(** * The uevent router of the container manager daemon (daemon/uevent.c)

    A shallow embedding of the event codec ([uevent_parse],
    [uevent_replace_member]), of the two routing tables, of the NIC mover,
    of the USB dispatcher and of the top-level dispatcher, followed by the
    properties of each.

    Conventions of the embedding.
    - A byte is an [ascii]; the raw buffer [msg.raw] is a [list ascii] whose
      length is the capacity of the buffer.  [msg.nlh] is the same memory
      (the two are members of one union): the header fields are read from
      and written to the first 40 bytes of [raw].
    - A [char *] member of [struct uevent] is a [cptr]: NULL, the address of
      the string literal [""], or an offset into [raw].
    - C integers are [Z] with the wrap-around of their type written out.
    - External collaborators (container registry, cgroup actuator, token
      subsystem, network helpers, file system) are fields of an [Env]
      record; what the daemon does to them is recorded in a list of
      [effect]s. *)

From Stdlib Require Import String Ascii DecimalString.
From Stdlib Require DecimalZ.
From Stdlib Require Import ZArith Lia Bool Arith List.
Import ListNotations.

Local Open Scope Z_scope.

(** ** Machine integers *)

Definition wrap_uint16 (z : Z) : Z := z mod 2 ^ 16.
Definition wrap_uint32 (z : Z) : Z := z mod 2 ^ 32.
Definition wrap_size_t (z : Z) : Z := z mod 2 ^ 64.

(** Conversion to a signed [w]-bit integer (two's complement). *)
Definition wrap_signed (w : Z) (z : Z) : Z :=
  let m := z mod 2 ^ w in
  if m <? 2 ^ (w - 1) then m else m - 2 ^ w.

Definition wrap_int (z : Z) : Z := wrap_signed 32 z.

(** ** C strings *)

Module CStr.

Definition NUL : ascii := Ascii.zero.

Definition is_nul (c : ascii) : bool := Ascii.eqb c NUL.

(** A string literal of the source, without its terminator. *)
Definition lit (s : string) : list ascii := list_ascii_of_string s.

(** [*p]: the byte at offset [p].  A read past the end of the modelled
    memory yields the terminator, where the read of the program is
    undefined.  The parser with every read checked against the bounds of
    [msg.raw] is [Bounds.uevent_parse]. *)
Definition byte_at (raw : list ascii) (p : nat) : ascii := nth p raw NUL.

(** The characters of the C string that starts at the head of [l]. *)
Fixpoint cstr (l : list ascii) : list ascii :=
  match l with
  | [] => []
  | c :: l' => if is_nul c then [] else c :: cstr l'
  end.

(** The C string at [raw + p]. *)
Definition cstr_at (raw : list ascii) (p : nat) : list ascii :=
  cstr (skipn p raw).

(** [strlen(raw + p)] *)
Definition strlen_at (raw : list ascii) (p : nat) : nat :=
  length (cstr_at raw p).

(** [strncmp(a, b, n) == 0] on two C strings given by their characters. *)
Fixpoint strncmp_eq (a b : list ascii) (n : Z) {struct b} : bool :=
  if n <=? 0 then true
  else match a, b with
       | [], [] => true
       | x :: a', y :: b' => Ascii.eqb x y && strncmp_eq a' b' (n - 1)
       | _, _ => false
       end.

(** [strcmp(a, b) == 0] *)
Fixpoint strcmp_eq (a b : list ascii) : bool :=
  match a, b with
  | [], [] => true
  | x :: a', y :: b' => Ascii.eqb x y && strcmp_eq a' b'
  | _, _ => false
  end.

Fixpoint starts_with (needle hay : list ascii) : bool :=
  match needle, hay with
  | [], _ => true
  | x :: n', y :: h' => Ascii.eqb x y && starts_with n' h'
  | _ :: _, [] => false
  end.

(** [strstr(hay, needle)]: the offset of the first occurrence. *)
Fixpoint strstr (hay needle : list ascii) : option nat :=
  if starts_with needle hay then Some O
  else match hay with
       | [] => None
       | _ :: h' => option_map S (strstr h' needle)
       end.

(** [strchr(s, c) != NULL] for a character [c] other than the terminator. *)
Definition strchr_found (s : list ascii) (c : ascii) : bool :=
  existsb (Ascii.eqb c) s.

(** *** Number conversions of the C library *)

Definition is_space (c : ascii) : bool :=
  let n := N_of_ascii c in
  (N.eqb n 32 || (N.leb 9 n && N.leb n 13))%N.

Fixpoint skip_space (s : list ascii) : list ascii :=
  match s with
  | c :: s' => if is_space c then skip_space s' else s
  | [] => []
  end.

Definition digit_val (c : ascii) : option Z :=
  let n := Z.of_N (N_of_ascii c) in
  if (48 <=? n) && (n <=? 57) then Some (n - 48) else None.

Definition hex_val (c : ascii) : option Z :=
  let n := Z.of_N (N_of_ascii c) in
  if (48 <=? n) && (n <=? 57) then Some (n - 48)
  else if (97 <=? n) && (n <=? 102) then Some (n - 87)
  else if (65 <=? n) && (n <=? 70) then Some (n - 55)
  else None.

(** Reads the longest run of digits; returns the value, the number of digits
    and the rest. *)
Fixpoint read_digits (val : ascii -> option Z) (base : Z) (s : list ascii)
         (acc : Z) (cnt : nat) : Z * nat * list ascii :=
  match s with
  | c :: s' =>
      match val c with
      | Some d => read_digits val base s' (acc * base + d) (S cnt)
      | None => (acc, cnt, s)
      end
  | [] => (acc, cnt, [])
  end.

Definition read_sign (s : list ascii) : bool * list ascii :=
  match s with
  | c :: s' =>
      if Ascii.eqb c "-"%char then (true, s')
      else if Ascii.eqb c "+"%char then (false, s')
      else (false, s)
  | [] => (false, [])
  end.

Definition LONG_MAX : Z := 2 ^ 63 - 1.
Definition LONG_MIN : Z := - 2 ^ 63.
Definition ULONG_MAX : Z := 2 ^ 64 - 1.

(** [atoi(s)], that is [(int) strtol(s, NULL, 10)]: white space, an optional
    sign, decimal digits; the [long] saturates, the cast to [int] wraps. *)
Definition atoi (s : list ascii) : Z :=
  let '(neg, s1) := read_sign (skip_space s) in
  let '(v, _, _) := read_digits digit_val 10 s1 0 O in
  let v' := if neg then - v else v in
  wrap_int (Z.max LONG_MIN (Z.min LONG_MAX v')).

(** One [%hx] conversion of [sscanf], as the C library (glibc) makes it:
    white space; an optional sign; a leading [0], and behind it an [x] or
    [X], which is read but is no part of the number; hexadecimal digits.
    The conversion fails when neither a leading [0] nor a digit was read.
    The number is converted as [strtoul] does (an overflow gives
    [ULONG_MAX] whatever the sign, otherwise a sign negates the
    [unsigned long]) and stored as [unsigned short].  [None] is a failure
    (the target keeps its value); otherwise the converted value and the
    unread rest. *)
Definition scan_hx (s : list ascii) : option (Z * list ascii) :=
  let '(neg, s1) := read_sign (skip_space s) in
  let '(lead, s2) :=
    match s1 with
    | z :: s1' =>
        if Ascii.eqb z "0"%char then
          (1%nat,
           match s1' with
           | x :: s1'' =>
               if Ascii.eqb x "x"%char || Ascii.eqb x "X"%char
               then s1'' else s1'
           | [] => s1'
           end)
        else (O, s1)
    | [] => (O, s1)
    end in
  let '(v, cnt, rest) := read_digits hex_val 16 s2 0 lead in
  match cnt with
  | O => None
  | S _ =>
      let v1 := if ULONG_MAX <? v then ULONG_MAX
                else if neg then wrap_size_t (- v) else v in
      Some (wrap_uint16 v1, rest)
  end.

(** [sscanf(s, "%hx", &x)] *)
Definition sscanf_hx (s : list ascii) : option Z :=
  option_map fst (scan_hx s).

(** [sscanf(s, "%hx/%hx/%hx", &a, &b, &c)]: the values assigned to the
    three targets, in order; a target after a failure is not assigned. *)
Definition sscanf_hx3 (s : list ascii) : option Z * option Z * option Z :=
  match scan_hx s with
  | None => (None, None, None)
  | Some (a, r1) =>
      match r1 with
      | c1 :: r1' =>
          if Ascii.eqb c1 "/"%char then
            match scan_hx r1' with
            | None => (Some a, None, None)
            | Some (b, r2) =>
                match r2 with
                | c2 :: r2' =>
                    if Ascii.eqb c2 "/"%char then
                      (Some a, Some b, option_map fst (scan_hx r2'))
                    else (Some a, Some b, None)
                | [] => (Some a, Some b, None)
                end
            end
          else (Some a, None, None)
      | [] => (Some a, None, None)
      end
  end.

(** [%d] of a C [int]. *)
Definition print_d (z : Z) : list ascii :=
  lit (NilZero.string_of_int (Z.to_int z)).

End CStr.

(** ** The event codec *)

Module Frame.
Import CStr.

(** Modelled from the spec: [UEVENT_BUF_LEN] is defined in uevent.h, which is
    not part of the sources; the spec gives the buffer as 8 KiB. *)
Definition UEVENT_BUF_LEN : nat := 8 * 1024.

Definition UDEV_MONITOR_TAG : list ascii := lit "libudev".
Definition UDEV_MONITOR_MAGIC : Z := 0xfeedcafe.

(** *** Memory *)

Definition slice (raw : list ascii) (off n : nat) : list ascii :=
  firstn n (skipn off raw).

(** A read of [n] bytes at [off]; [None] when it leaves the buffer. *)
Definition read_at (raw : list ascii) (off : nat) (n : Z) : option (list ascii) :=
  if (0 <=? n) && (Z.of_nat off + n <=? Z.of_nat (length raw))
  then Some (slice raw off (Z.to_nat n)) else None.

(** A write of [data] at [off]; [None] when it leaves the buffer. *)
Definition write_at (buf : list ascii) (off : nat) (data : list ascii)
  : option (list ascii) :=
  if (off + length data <=? length buf)%nat
  then Some (firstn off buf ++ data ++ skipn (off + length data) buf)
  else None.

Definition byte_of_Z (z : Z) : ascii := ascii_of_N (Z.to_N (z mod 256)).
Definition Z_of_byte (c : ascii) : Z := Z.of_N (N_of_ascii c).

(** The byte order of the host.  [unsigned int] is four bytes. *)
Inductive byte_order : Set := LittleEndian | BigEndian.

Definition encode_be32 (z : Z) : list ascii :=
  [byte_of_Z (z / 2 ^ 24); byte_of_Z (z / 2 ^ 16); byte_of_Z (z / 2 ^ 8);
   byte_of_Z z].

Definition decode_be32 (l : list ascii) : Z :=
  fold_left (fun acc c => acc * 256 + Z_of_byte c) l 0.

Definition encode_u32 (order : byte_order) (z : Z) : list ascii :=
  match order with
  | BigEndian => encode_be32 z
  | LittleEndian => rev (encode_be32 z)
  end.

Definition decode_u32 (order : byte_order) (l : list ascii) : Z :=
  match order with
  | BigEndian => decode_be32 l
  | LittleEndian => decode_be32 (rev l)
  end.

Definition htonl (order : byte_order) (z : Z) : Z :=
  decode_u32 order (encode_be32 z).

(** *** struct udev_monitor_netlink_header, as a view of the first 40 bytes

    [char prefix[8]] and eight [unsigned int] members, each at the offset
    that is the sum of the sizes in front of it. *)

Definition NLH_SIZE : nat := 40.
Definition OFF_MAGIC : nat := 8.
Definition OFF_HEADER_SIZE : nat := 12.
Definition OFF_PROPERTIES_OFF : nat := 16.
Definition OFF_PROPERTIES_LEN : nat := 20.
Definition OFF_SUBSYSTEM_HASH : nat := 24.
Definition OFF_DEVTYPE_HASH : nat := 28.
Definition OFF_TAG_BLOOM_HI : nat := 32.
Definition OFF_TAG_BLOOM_LO : nat := 36.

Definition nlh_prefix (raw : list ascii) : list ascii := slice raw 0 8.

Definition nlh_field (order : byte_order) (off : nat) (raw : list ascii) : Z :=
  decode_u32 order (slice raw off 4).

Definition nlh_magic order := nlh_field order OFF_MAGIC.
Definition nlh_header_size order := nlh_field order OFF_HEADER_SIZE.
Definition nlh_properties_off order := nlh_field order OFF_PROPERTIES_OFF.
Definition nlh_properties_len order := nlh_field order OFF_PROPERTIES_LEN.
Definition nlh_filter_subsystem_hash order := nlh_field order OFF_SUBSYSTEM_HASH.
Definition nlh_filter_devtype_hash order := nlh_field order OFF_DEVTYPE_HASH.
Definition nlh_filter_tag_bloom_hi order := nlh_field order OFF_TAG_BLOOM_HI.
Definition nlh_filter_tag_bloom_lo order := nlh_field order OFF_TAG_BLOOM_LO.

(** *** struct uevent *)

Inductive cptr : Set :=
| NullPtr                 (* NULL *)
| EmptyLit                (* the string literal "" *)
| InRaw (off : nat).      (* msg.raw + off *)

Record uevent : Set := mk_uevent {
  raw : list ascii;
  msg_len : Z;
  action : cptr;
  subsystem : cptr;
  devname : cptr;
  devpath : cptr;
  devtype : cptr;
  driver : cptr;
  major : Z;
  minor : Z;
  type : cptr;
  product : cptr;
  id_vendor_id : Z;
  id_model_id : Z;
  id_serial_short : cptr;
  interface : cptr;
  synth_uuid : cptr
}.

(** The string a member points to; [None] for NULL. *)
Definition str_of (u : uevent) (p : cptr) : option (list ascii) :=
  match p with
  | NullPtr => None
  | EmptyLit => Some []
  | InRaw off => Some (cstr_at (raw u) off)
  end.

Definition set_raw (v : list ascii) (u : uevent) : uevent :=
  {| raw := v; msg_len := msg_len u; action := action u; subsystem :=
     subsystem u; devname := devname u; devpath := devpath u; devtype :=
     devtype u; driver := driver u; major := major u; minor := minor u; type
     := type u; product := product u; id_vendor_id := id_vendor_id u;
     id_model_id := id_model_id u; id_serial_short := id_serial_short u;
     interface := interface u; synth_uuid := synth_uuid u |}.

Definition set_msg_len (v : Z) (u : uevent) : uevent :=
  {| raw := raw u; msg_len := v; action := action u; subsystem := subsystem
     u; devname := devname u; devpath := devpath u; devtype := devtype u;
     driver := driver u; major := major u; minor := minor u; type := type u;
     product := product u; id_vendor_id := id_vendor_id u; id_model_id :=
     id_model_id u; id_serial_short := id_serial_short u; interface :=
     interface u; synth_uuid := synth_uuid u |}.

Definition set_action (v : cptr) (u : uevent) : uevent :=
  {| raw := raw u; msg_len := msg_len u; action := v; subsystem := subsystem
     u; devname := devname u; devpath := devpath u; devtype := devtype u;
     driver := driver u; major := major u; minor := minor u; type := type u;
     product := product u; id_vendor_id := id_vendor_id u; id_model_id :=
     id_model_id u; id_serial_short := id_serial_short u; interface :=
     interface u; synth_uuid := synth_uuid u |}.

Definition set_subsystem (v : cptr) (u : uevent) : uevent :=
  {| raw := raw u; msg_len := msg_len u; action := action u; subsystem := v;
     devname := devname u; devpath := devpath u; devtype := devtype u;
     driver := driver u; major := major u; minor := minor u; type := type u;
     product := product u; id_vendor_id := id_vendor_id u; id_model_id :=
     id_model_id u; id_serial_short := id_serial_short u; interface :=
     interface u; synth_uuid := synth_uuid u |}.

Definition set_devname (v : cptr) (u : uevent) : uevent :=
  {| raw := raw u; msg_len := msg_len u; action := action u; subsystem :=
     subsystem u; devname := v; devpath := devpath u; devtype := devtype u;
     driver := driver u; major := major u; minor := minor u; type := type u;
     product := product u; id_vendor_id := id_vendor_id u; id_model_id :=
     id_model_id u; id_serial_short := id_serial_short u; interface :=
     interface u; synth_uuid := synth_uuid u |}.

Definition set_devpath (v : cptr) (u : uevent) : uevent :=
  {| raw := raw u; msg_len := msg_len u; action := action u; subsystem :=
     subsystem u; devname := devname u; devpath := v; devtype := devtype u;
     driver := driver u; major := major u; minor := minor u; type := type u;
     product := product u; id_vendor_id := id_vendor_id u; id_model_id :=
     id_model_id u; id_serial_short := id_serial_short u; interface :=
     interface u; synth_uuid := synth_uuid u |}.

Definition set_devtype (v : cptr) (u : uevent) : uevent :=
  {| raw := raw u; msg_len := msg_len u; action := action u; subsystem :=
     subsystem u; devname := devname u; devpath := devpath u; devtype := v;
     driver := driver u; major := major u; minor := minor u; type := type u;
     product := product u; id_vendor_id := id_vendor_id u; id_model_id :=
     id_model_id u; id_serial_short := id_serial_short u; interface :=
     interface u; synth_uuid := synth_uuid u |}.

Definition set_driver (v : cptr) (u : uevent) : uevent :=
  {| raw := raw u; msg_len := msg_len u; action := action u; subsystem :=
     subsystem u; devname := devname u; devpath := devpath u; devtype :=
     devtype u; driver := v; major := major u; minor := minor u; type :=
     type u; product := product u; id_vendor_id := id_vendor_id u;
     id_model_id := id_model_id u; id_serial_short := id_serial_short u;
     interface := interface u; synth_uuid := synth_uuid u |}.

Definition set_major (v : Z) (u : uevent) : uevent :=
  {| raw := raw u; msg_len := msg_len u; action := action u; subsystem :=
     subsystem u; devname := devname u; devpath := devpath u; devtype :=
     devtype u; driver := driver u; major := v; minor := minor u; type :=
     type u; product := product u; id_vendor_id := id_vendor_id u;
     id_model_id := id_model_id u; id_serial_short := id_serial_short u;
     interface := interface u; synth_uuid := synth_uuid u |}.

Definition set_minor (v : Z) (u : uevent) : uevent :=
  {| raw := raw u; msg_len := msg_len u; action := action u; subsystem :=
     subsystem u; devname := devname u; devpath := devpath u; devtype :=
     devtype u; driver := driver u; major := major u; minor := v; type :=
     type u; product := product u; id_vendor_id := id_vendor_id u;
     id_model_id := id_model_id u; id_serial_short := id_serial_short u;
     interface := interface u; synth_uuid := synth_uuid u |}.

Definition set_product (v : cptr) (u : uevent) : uevent :=
  {| raw := raw u; msg_len := msg_len u; action := action u; subsystem :=
     subsystem u; devname := devname u; devpath := devpath u; devtype :=
     devtype u; driver := driver u; major := major u; minor := minor u; type
     := type u; product := v; id_vendor_id := id_vendor_id u; id_model_id :=
     id_model_id u; id_serial_short := id_serial_short u; interface :=
     interface u; synth_uuid := synth_uuid u |}.

Definition set_id_vendor_id (v : Z) (u : uevent) : uevent :=
  {| raw := raw u; msg_len := msg_len u; action := action u; subsystem :=
     subsystem u; devname := devname u; devpath := devpath u; devtype :=
     devtype u; driver := driver u; major := major u; minor := minor u; type
     := type u; product := product u; id_vendor_id := v; id_model_id :=
     id_model_id u; id_serial_short := id_serial_short u; interface :=
     interface u; synth_uuid := synth_uuid u |}.

Definition set_id_model_id (v : Z) (u : uevent) : uevent :=
  {| raw := raw u; msg_len := msg_len u; action := action u; subsystem :=
     subsystem u; devname := devname u; devpath := devpath u; devtype :=
     devtype u; driver := driver u; major := major u; minor := minor u; type
     := type u; product := product u; id_vendor_id := id_vendor_id u;
     id_model_id := v; id_serial_short := id_serial_short u; interface :=
     interface u; synth_uuid := synth_uuid u |}.

Definition set_id_serial_short (v : cptr) (u : uevent) : uevent :=
  {| raw := raw u; msg_len := msg_len u; action := action u; subsystem :=
     subsystem u; devname := devname u; devpath := devpath u; devtype :=
     devtype u; driver := driver u; major := major u; minor := minor u; type
     := type u; product := product u; id_vendor_id := id_vendor_id u;
     id_model_id := id_model_id u; id_serial_short := v; interface :=
     interface u; synth_uuid := synth_uuid u |}.

Definition set_interface (v : cptr) (u : uevent) : uevent :=
  {| raw := raw u; msg_len := msg_len u; action := action u; subsystem :=
     subsystem u; devname := devname u; devpath := devpath u; devtype :=
     devtype u; driver := driver u; major := major u; minor := minor u; type
     := type u; product := product u; id_vendor_id := id_vendor_id u;
     id_model_id := id_model_id u; id_serial_short := id_serial_short u;
     interface := v; synth_uuid := synth_uuid u |}.

Definition set_synth_uuid (v : cptr) (u : uevent) : uevent :=
  {| raw := raw u; msg_len := msg_len u; action := action u; subsystem :=
     subsystem u; devname := devname u; devpath := devpath u; devtype :=
     devtype u; driver := driver u; major := major u; minor := minor u; type
     := type u; product := product u; id_vendor_id := id_vendor_id u;
     id_model_id := id_model_id u; id_serial_short := id_serial_short u;
     interface := interface u; synth_uuid := v |}.

(** [mem_new0(struct uevent, 1)] *)
Definition uevent_zero : uevent :=
  {| raw := repeat NUL UEVENT_BUF_LEN; msg_len := 0; action := NullPtr;
     subsystem := NullPtr; devname := NullPtr; devpath := NullPtr;
     devtype := NullPtr; driver := NullPtr; major := 0; minor := 0;
     type := NullPtr; product := NullPtr; id_vendor_id := 0;
     id_model_id := 0; id_serial_short := NullPtr; interface := NullPtr;
     synth_uuid := NullPtr |}.

(** *** uevent_parse *)

(** The assignments at the head of [uevent_parse].  [driver] and [type] are
    not among them. *)
Definition parse_defaults (u : uevent) : uevent :=
  set_synth_uuid EmptyLit
    (set_interface EmptyLit
      (set_id_serial_short EmptyLit
        (set_id_vendor_id 0
          (set_id_model_id 0
            (set_product EmptyLit
              (set_subsystem EmptyLit
                (set_devname EmptyLit
                  (set_minor (-1)
                    (set_major (-1)
                      (set_devtype EmptyLit
                        (set_devname EmptyLit
                          (set_devpath EmptyLit
                            (set_action EmptyLit u))))))))))))).

(** The chain of [strncmp] tests on the entry at [raw_p]; returns the
    updated struct and the advanced [raw_p]. *)
Definition parse_entry (u : uevent) (raw_p : nat) : uevent * nat :=
  let tok := cstr_at (raw u) raw_p in
  let at_ n := (raw_p + n)%nat in
  if strncmp_eq tok (lit "ACTION=") 7 then
    (set_action (InRaw (at_ 7%nat)) u, at_ 7%nat)
  else if strncmp_eq tok (lit "DEVPATH=") 8 then
    (set_devpath (InRaw (at_ 8%nat)) u, at_ 8%nat)
  else if strncmp_eq tok (lit "SUBSYSTEM=") 10 then
    (set_subsystem (InRaw (at_ 10%nat)) u, at_ 10%nat)
  else if strncmp_eq tok (lit "MAJOR=") 6 then
    (set_major (atoi (cstr_at (raw u) (at_ 6%nat))) u, at_ 6%nat)
  else if strncmp_eq tok (lit "MINOR=") 6 then
    (set_minor (atoi (cstr_at (raw u) (at_ 6%nat))) u, at_ 6%nat)
  else if strncmp_eq tok (lit "DEVNAME=") 8 then
    (set_devname (InRaw (at_ 8%nat)) u, at_ 8%nat)
  else if strncmp_eq tok (lit "DEVTYPE=") 8 then
    (set_devtype (InRaw (at_ 8%nat)) u, at_ 8%nat)
  else if strncmp_eq tok (lit "DRIVER=") 7 then
    (set_driver (InRaw (at_ 7%nat)) u, at_ 7%nat)
  else if strncmp_eq tok (lit "PRODUCT=") 8 then
    (set_product (InRaw (at_ 8%nat)) u, at_ 8%nat)
  else if strncmp_eq tok (lit "ID_VENDOR_ID=") 13 then
    (match sscanf_hx (cstr_at (raw u) (at_ 13%nat)) with
     | Some v => set_id_vendor_id v u
     | None => u
     end, at_ 13%nat)
  else if strncmp_eq tok (lit "ID_MODEL_ID=") 12 then
    (match sscanf_hx (cstr_at (raw u) (at_ 12%nat)) with
     | Some v => set_id_model_id v u
     | None => u
     end, at_ 12%nat)
  else if strncmp_eq tok (lit "ID_SERIAL_SHORT=") 16 then
    (set_id_serial_short (InRaw (at_ 16%nat)) u, at_ 16%nat)
  else if strncmp_eq tok (lit "INTERFACE=") 10 then
    (set_interface (InRaw (at_ 10%nat)) u, at_ 10%nat)
  else if strncmp_eq tok (lit "SYNTH_UUID=") 11 then
    (set_synth_uuid (InRaw (at_ 11%nat)) u, at_ 11%nat)
  else (u, raw_p).

(** The [while ( *raw_p )] loop: one iteration per unit of [fuel]. *)
Fixpoint parse_loop (fuel : nat) (u : uevent) (raw_p : nat) : option uevent :=
  match fuel with
  | O => None
  | S fuel' =>
      if is_nul (byte_at (raw u) raw_p) then Some u
      else
        let '(u1, p1) := parse_entry u raw_p in
        (* advance to after the next \0 *)
        let p2 := (p1 + strlen_at (raw u) p1 + 1)%nat in
        (* check if message ended *)
        if msg_len u <=? Z.of_nat p2 then Some u1
        else parse_loop fuel' u1 p2
  end.

(** [uevent_parse(uevent, raw_p)] with [raw_p = msg.raw + start].  Every
    iteration consumes at least one byte of the buffer, so one unit of fuel
    per byte is enough (see [uevent_parse_total]).  [uevent_trace] changes
    nothing in the struct and is left out here; this definition gives the
    struct that the call leaves when all its reads, those of [uevent_trace]
    included, lie in [msg.raw].  Whether they do is followed in
    [Bounds.uevent_parse]. *)
Definition uevent_parse (u : uevent) (start : nat) : option uevent :=
  parse_loop (S (length (raw u))) (parse_defaults u) start.

(** *** uevent_replace_member *)

Local Notation "x <- c ;; k" := (match c with Some x => k | None => None end)
  (at level 61, c at next level, right associativity).

Definition guard (b : bool) : option unit := if b then Some tt else None.

(** [uevent_replace_member(uevent, oldmember, newmember)].

    [newevent] is the memory [mem_new] returns: its contents are not
    initialised, so it is an argument.  [None] stands for an execution that
    does not return a frame: the [ASSERT] fails, or a copy leaves one of the
    two buffers.  The [if (!memcpy(...))] tests never fire, [memcpy] and
    [strcpy] return their destination.

    [msg.nlh] and [msg.raw] share their storage, so every step below acts on
    the one buffer [buf]. *)
Definition uevent_replace_member (order : byte_order) (newevent : uevent)
           (u : uevent) (oldmember : cptr) (newmember : list ascii)
  : option uevent :=
  match oldmember with
  | InRaw off_member =>
      let newmember := cstr newmember in
      (* ASSERT(oldmember > raw && oldmember < raw + msg_len) *)
      _ <- guard ((0 <? off_member)%nat && (Z.of_nat off_member <? msg_len u)) ;;
      let old_len := strlen_at (raw u) off_member in
      let diff_len := wrap_int (Z.of_nat (length newmember) - Z.of_nat old_len) in
      let new_msg_len := wrap_size_t (msg_len u + diff_len) in
      (* copy netlink header to cloned uevent *)
      hdr <- read_at (raw u) 0 (Z.of_nat NLH_SIZE) ;;
      buf <- write_at (raw newevent) 0 hdr ;;
      buf <- write_at buf OFF_PROPERTIES_LEN
               (encode_u32 order
                  (wrap_uint32 (nlh_properties_len order (raw u) + diff_len))) ;;
      (* copy uevent up to position of interface string *)
      head <- read_at (raw u) 0 (Z.of_nat off_member) ;;
      buf <- write_at buf 0 head ;;
      (* copy new member to uevent *)
      buf <- write_at buf off_member (newmember ++ [NUL]) ;;
      (* copy uevent after interface string *)
      let off_after_old := (off_member + old_len + 1)%nat in
      let off_after_new := (off_member + length newmember + 1)%nat in
      rest <- read_at (raw u) off_after_old
                (wrap_size_t (msg_len u - Z.of_nat off_after_old)) ;;
      buf <- write_at buf off_after_new rest ;;
      uevent_parse (set_msg_len new_msg_len (set_raw buf newevent)) 0
  | _ => None
  end.

(** [uevent_replace_devpath_new(str, oldstr, newstr)]; [None] is NULL. *)
Definition uevent_replace_devpath_new (str oldstr newstr : list ascii)
  : option (list ascii) :=
  match strstr str oldstr with
  | None => None
  | Some off_old =>
      Some (firstn off_old str ++ newstr
              ++ skipn (off_old + length oldstr) str)
  end.

(** [uevent_get_usb_vendor] and [uevent_get_usb_product] *)
Definition uevent_get_usb_vendor (u : uevent) : option Z :=
  if negb (id_vendor_id u =? 0) then Some (id_vendor_id u)
  else
    s <- str_of u (product u) ;;
    match sscanf_hx3 s with
    | (Some v, _, _) => Some v
    | _ => Some 0
    end.

Definition uevent_get_usb_product (u : uevent) : option Z :=
  if negb (id_model_id u =? 0) then Some (id_model_id u)
  else
    s <- str_of u (product u) ;;
    match sscanf_hx3 s with
    | (_, Some p, _) => Some p
    | _ => Some 0
    end.

(** *** Building frames *)

(** The bytes of a message: each entry followed by its terminator. *)
Definition entries (l : list string) : list ascii :=
  flat_map (fun s => lit s ++ [NUL]) l.

(** What [uevent_handle] holds after a successful receive of [data]: a
    zeroed struct whose buffer starts with [data]. *)
Definition uevent_received (data : list ascii) (len : Z) : uevent :=
  let data := firstn (UEVENT_BUF_LEN - 1) data in
  set_msg_len len
    (set_raw (data ++ repeat NUL (UEVENT_BUF_LEN - length data)) uevent_zero).

(** The [size] bytes at [buf] that are handed to the injector. *)
Definition payload (buf : list ascii) (size : Z) : list ascii :=
  firstn (Z.to_nat (Z.min size (Z.of_nat (length buf)))) buf.

End Frame.

(** ** External collaborators *)

Module Ext.
Import CStr Frame.

(** A [container_t *]. *)
Definition container_t : Set := nat.

(** Modelled from the spec: container.h is not part of the sources.  The
    states the source names, and one constructor for every other state. *)
Inductive container_state : Set :=
| CONTAINER_STATE_STARTING
| CONTAINER_STATE_BOOTING
| CONTAINER_STATE_RUNNING
| CONTAINER_STATE_SETUP
| CONTAINER_STATE_OTHER (n : nat).

Definition container_state_eqb (a b : container_state) : bool :=
  match a, b with
  | CONTAINER_STATE_STARTING, CONTAINER_STATE_STARTING => true
  | CONTAINER_STATE_BOOTING, CONTAINER_STATE_BOOTING => true
  | CONTAINER_STATE_RUNNING, CONTAINER_STATE_RUNNING => true
  | CONTAINER_STATE_SETUP, CONTAINER_STATE_SETUP => true
  | CONTAINER_STATE_OTHER n, CONTAINER_STATE_OTHER m => Nat.eqb n m
  | _, _ => false
  end.

(** [uint8_t mac[6]] *)
Definition mac_addr : Set := list Z.

(** [memcmp(a, b, n) == 0] *)
Fixpoint memcmp_eq (a b : list Z) (n : nat) {struct n} : bool :=
  match n with
  | O => true
  | S n' =>
      match a, b with
      | x :: a', y :: b' => (x =? y) && memcmp_eq a' b' n'
      | _, _ => false
      end
  end.

(** The members of [container_pnet_cfg_t] the router reads. *)
Record container_pnet_cfg : Set := {
  pnet_name : list ascii;
  mac_filter : bool
}.

(** [container_pnet_cfg_new(name, mac_filter, NULL)] *)
Definition container_pnet_cfg_new (name : list ascii) (filter : bool)
  : container_pnet_cfg :=
  {| pnet_name := name; mac_filter := filter |}.

(** How the forked injector child ends, as [waitpid] reports it. *)
Inductive child_outcome : Set :=
| ForkFailed
| WaitFailed
| ChildKilled
| ChildExited (status : Z).

Inductive unlink_result : Set := UnlinkOk | UnlinkENOENT | UnlinkFailed.

(** The answers of the collaborators.  They are functions of their
    arguments: the model does not follow how the world changes under the
    daemon's own actions. *)
Record Env : Type := {
  network_str_to_mac_addr : list ascii -> option mac_addr;
  network_get_mac_by_ifname : list ascii -> option mac_addr;
  network_rename_ifi : list ascii -> list ascii -> Z;
  network_interface_is_wifi : list ascii -> bool;
  cmld_netif_phys_remove_by_name : list ascii -> bool;
  cmld_containers : list container_t;
  cmld_containers_get_c0 : option container_t;
  uuid_new : list ascii -> option (list ascii);
  cmld_container_get_by_uuid : list ascii -> option container_t;
  cmld_is_hostedmode_active : bool;
  container_get_state : container_t -> container_state;
  container_get_pid : container_t -> Z;
  container_has_userns : container_t -> bool;
  container_get_rootdir : container_t -> list ascii;
  container_is_device_allowed : container_t -> Z -> Z -> bool;
  container_add_net_iface : container_t -> container_pnet_cfg -> bool -> Z;
  container_shift_ids : container_t -> list ascii -> bool -> Z;
  cmld_token_attach : list ascii -> list ascii -> Z;
  cmld_token_detach : list ascii -> Z;
  file_exists : list ascii -> bool;
  file_read_new : list ascii -> Z -> option (list ascii);
  dir_mkdir_p : list ascii -> Z -> Z;
  mknod : list ascii -> Z -> Z -> Z -> Z;
  unlink : list ascii -> unlink_result;
  injector_child : list ascii -> Z -> bool -> child_outcome;
  (** the contents of the memory [mem_new(struct uevent, 1)] returns *)
  mem_new_uevent : uevent
}.

(** What the daemon does to the outside, in order. *)
Inductive effect : Type :=
| EWarn (msg : string)
| EError (msg : string)
| ERenameIfi (oldname newname : list ascii)
| ENetifPhysRemove (name : list ascii)
| ENetifPhysAdd (name : list ascii)
| EAddNetIface (c : container_t) (cfg : container_pnet_cfg)
| EForkInjector (payload : list ascii) (size : Z) (netns_pid : Z) (join_userns : bool)
| EMkdirP (path : list ascii) (mode : Z)
| EMknod (path : list ascii) (mode : Z) (maj min : Z)
| EShiftIds (c : container_t) (path : list ascii)
| EUnlink (path : list ascii)
| EDeviceAllow (c : container_t) (maj min : Z) (assign : bool)
| EDeviceDeny (c : container_t) (maj min : Z)
| ETokenAttach (serial devpath : list ascii)
| ETokenDetach (devpath : list ascii)
| ETimerAdd (ms : Z) (uevent_cb : uevent)
| ETimerRemove.

End Ext.

(** ** The routing tables *)

Module Usbdev.

(** Modelled from the spec: [uevent_usbdev_type_t] is declared in uevent.h,
    which is not part of the sources; the spec lists its members. *)
Inductive uevent_usbdev_type : Set :=
| UEVENT_USBDEV_TYPE_GENERIC
| UEVENT_USBDEV_TYPE_TOKEN
| UEVENT_USBDEV_TYPE_PIN_ENTRY.

(** [struct uevent_usbdev].  [type] is [None] in a zeroed struct whose
    [type] was never assigned. *)
Record uevent_usbdev : Set := {
  i_serial : list ascii;
  id_vendor : Z;
  id_product : Z;
  major : Z;
  minor : Z;
  assign : bool;
  type : option uevent_usbdev_type
}.

Definition uevent_usbdev_new (ty : uevent_usbdev_type) (vendor product : Z)
           (serial : list ascii) (asg : bool) : uevent_usbdev :=
  {| i_serial := serial; id_vendor := vendor; id_product := product;
     major := -1; minor := -1; assign := asg; type := Some ty |}.

Definition uevent_usbdev_set_major (dev : uevent_usbdev) (v : Z) : uevent_usbdev :=
  {| i_serial := i_serial dev; id_vendor := id_vendor dev;
     id_product := id_product dev; major := v; minor := minor dev;
     assign := assign dev; type := type dev |}.

Definition uevent_usbdev_set_minor (dev : uevent_usbdev) (v : Z) : uevent_usbdev :=
  {| i_serial := i_serial dev; id_vendor := id_vendor dev;
     id_product := id_product dev; major := major dev; minor := v;
     assign := assign dev; type := type dev |}.

End Usbdev.

Module Tables.
Import CStr Ext.

(** [uevent_container_dev_mapping_t].  [addr] is the address of the
    allocation: the list cells hold this pointer, and [list_remove] looks
    for it. *)
Record dev_mapping : Set := {
  addr : nat;
  container : container_t;
  usbdev : Usbdev.uevent_usbdev;
  assign : bool
}.

(** [uevent_container_netdev_mapping_t] *)
Record netdev_mapping : Set := {
  n_addr : nat;
  n_container : container_t;
  pnet_cfg : container_pnet_cfg;
  mac : mac_addr
}.

(** The identity of a USB mapping. *)
Definition usb_identity (m : dev_mapping) : container_t * Z * Z * list ascii :=
  (container m, Usbdev.id_vendor (usbdev m), Usbdev.id_product (usbdev m),
   Usbdev.i_serial (usbdev m)).

(** The file-scope variables of uevent.c, and the two function-scope
    counters of [uevent_rename_ifi_new]. *)
Record globals : Set := {
  uevent_netlink_sock : option nat;
  uevent_io_event : option nat;
  uevent_container_dev_mapping_list : list dev_mapping;
  uevent_container_netdev_mapping_list : list netdev_mapping;
  cmld_wlan_idx : Z;
  cmld_eth_idx : Z
}.

Definition globals_init : globals :=
  {| uevent_netlink_sock := None; uevent_io_event := None;
     uevent_container_dev_mapping_list := [];
     uevent_container_netdev_mapping_list := [];
     cmld_wlan_idx := 0; cmld_eth_idx := 0 |}.

Definition set_dev_list (l : list dev_mapping) (g : globals) : globals :=
  {| uevent_netlink_sock := uevent_netlink_sock g;
     uevent_io_event := uevent_io_event g;
     uevent_container_dev_mapping_list := l;
     uevent_container_netdev_mapping_list := uevent_container_netdev_mapping_list g;
     cmld_wlan_idx := cmld_wlan_idx g; cmld_eth_idx := cmld_eth_idx g |}.

Definition set_netdev_list (l : list netdev_mapping) (g : globals) : globals :=
  {| uevent_netlink_sock := uevent_netlink_sock g;
     uevent_io_event := uevent_io_event g;
     uevent_container_dev_mapping_list := uevent_container_dev_mapping_list g;
     uevent_container_netdev_mapping_list := l;
     cmld_wlan_idx := cmld_wlan_idx g; cmld_eth_idx := cmld_eth_idx g |}.

Definition set_wlan_idx (v : Z) (g : globals) : globals :=
  {| uevent_netlink_sock := uevent_netlink_sock g;
     uevent_io_event := uevent_io_event g;
     uevent_container_dev_mapping_list := uevent_container_dev_mapping_list g;
     uevent_container_netdev_mapping_list := uevent_container_netdev_mapping_list g;
     cmld_wlan_idx := v; cmld_eth_idx := cmld_eth_idx g |}.

Definition set_eth_idx (v : Z) (g : globals) : globals :=
  {| uevent_netlink_sock := uevent_netlink_sock g;
     uevent_io_event := uevent_io_event g;
     uevent_container_dev_mapping_list := uevent_container_dev_mapping_list g;
     uevent_container_netdev_mapping_list := uevent_container_netdev_mapping_list g;
     cmld_wlan_idx := cmld_wlan_idx g; cmld_eth_idx := v |}.

(** The addresses of the live mappings. *)
Definition live (g : globals) : list nat :=
  map addr (uevent_container_dev_mapping_list g)
    ++ map n_addr (uevent_container_netdev_mapping_list g).

(** [mem_new0]: an address no live mapping has. *)
Definition mem_new0 (g : globals) : nat := S (list_max (live g)).

(** Modelled from the spec: common/list.h is not part of the sources; the
    spec describes the tables as ordered sequences.  [list_append] adds a
    cell at the tail. *)
Definition list_append {A : Type} (l : list A) (data : A) : list A := l ++ [data].

(** Modelled from the spec: common/list.h is not part of the sources.
    [list_remove(list, data)] unlinks the first cell whose data pointer is
    [data]. *)
Fixpoint list_remove {A : Type} (ptr : A -> nat) (l : list A) (data : nat) : list A :=
  match l with
  | [] => []
  | x :: l' => if Nat.eqb (ptr x) data then l' else x :: list_remove ptr l' data
  end.

(** [uevent_container_dev_mapping_new]: the mapping is zeroed, then the
    members of its [usbdev] are copied one by one; [type] and the
    mapping's own [assign] are not assigned. *)
Definition uevent_container_dev_mapping_new (g : globals) (c : container_t)
           (dev : Usbdev.uevent_usbdev) : dev_mapping :=
  {| addr := mem_new0 g;
     container := c;
     usbdev := {| Usbdev.i_serial := Usbdev.i_serial dev;
                  Usbdev.id_vendor := Usbdev.id_vendor dev;
                  Usbdev.id_product := Usbdev.id_product dev;
                  Usbdev.major := Usbdev.major dev;
                  Usbdev.minor := Usbdev.minor dev;
                  Usbdev.assign := Usbdev.assign dev;
                  Usbdev.type := None |};
     assign := false |}.

(** [uevent_container_netdev_mapping_new]; [None] is NULL. *)
Definition uevent_container_netdev_mapping_new (env : Env) (g : globals)
           (c : container_t) (cfg : container_pnet_cfg) : option netdev_mapping :=
  match network_str_to_mac_addr env (pnet_name cfg) with
  | None => None
  | Some m =>
      Some {| n_addr := mem_new0 g; n_container := c; pnet_cfg := cfg; mac := m |}
  end.

(** [uevent_register_usbdevice] *)
Definition uevent_register_usbdevice (g : globals) (c : container_t)
           (dev : Usbdev.uevent_usbdev) : Z * globals :=
  let mapping := uevent_container_dev_mapping_new g c dev in
  (0, set_dev_list (list_append (uevent_container_dev_mapping_list g) mapping) g).

(** The test of the loop in [uevent_unregister_usbdevice]. *)
Definition dev_mapping_matches (c : container_t) (dev : Usbdev.uevent_usbdev)
           (m : dev_mapping) : bool :=
  Nat.eqb (container m) c
  && (Usbdev.id_vendor (usbdev m) =? Usbdev.id_vendor dev)
  && (Usbdev.id_product (usbdev m) =? Usbdev.id_product dev)
  && strcmp_eq (Usbdev.i_serial (usbdev m)) (Usbdev.i_serial dev).

(** A loop that overwrites [mapping_to_remove] at every match. *)
Definition last_match {A : Type} (test : A -> bool) (l : list A) : option A :=
  fold_left (fun found m => if test m then Some m else found) l None.

(** [uevent_unregister_usbdevice] *)
Definition uevent_unregister_usbdevice (g : globals) (c : container_t)
           (dev : Usbdev.uevent_usbdev) : Z * globals :=
  match last_match (dev_mapping_matches c dev) (uevent_container_dev_mapping_list g) with
  | None => (-1, g)
  | Some mapping_to_remove =>
      (0, set_dev_list
            (list_remove addr (uevent_container_dev_mapping_list g)
               (addr mapping_to_remove)) g)
  end.

(** [uevent_register_netdev] *)
Definition uevent_register_netdev (env : Env) (g : globals) (c : container_t)
           (cfg : container_pnet_cfg) : Z * globals :=
  match uevent_container_netdev_mapping_new env g c cfg with
  | None => (-1, g)
  | Some mapping =>
      (0, set_netdev_list
            (list_append (uevent_container_netdev_mapping_list g) mapping) g)
  end.

Definition netdev_mapping_matches (c : container_t) (m6 : mac_addr)
           (m : netdev_mapping) : bool :=
  Nat.eqb (n_container m) c && memcmp_eq (mac m) m6 6.

(** [uevent_unregister_netdev] *)
Definition uevent_unregister_netdev (g : globals) (c : container_t)
           (m6 : mac_addr) : Z * globals :=
  match last_match (netdev_mapping_matches c m6)
          (uevent_container_netdev_mapping_list g) with
  | None => (-1, g)
  | Some mapping_to_remove =>
      (0, set_netdev_list
            (list_remove n_addr (uevent_container_netdev_mapping_list g)
               (n_addr mapping_to_remove)) g)
  end.

End Tables.

(** ** The router *)

Module Router.
Import CStr Frame Ext Tables.

Section WithEnv.

Variable order : byte_order.
Variable env : Env.

(** A computation reads and writes the globals and records its effects.
    [None] is an execution that does not return: a failed [ASSERT], a NULL
    or out-of-buffer access. *)
Definition M (A : Type) : Type := globals -> option (A * globals * list effect).

Definition ret {A : Type} (a : A) : M A := fun g => Some (a, g, []).

Definition bind {A B : Type} (m : M A) (k : A -> M B) : M B :=
  fun g =>
    match m g with
    | None => None
    | Some (a, g1, e1) =>
        match k a g1 with
        | None => None
        | Some (b, g2, e2) => Some (b, g2, e1 ++ e2)
        end
    end.

Definition emit (e : effect) : M unit := fun g => Some (tt, g, [e]).
Definition get : M globals := fun g => Some (g, g, []).
Definition put (g' : globals) : M unit := fun _ => Some (tt, g', []).
Definition lift {A : Type} (o : option A) : M A :=
  fun g => match o with Some a => Some (a, g, []) | None => None end.

Local Notation "x <- c ;; k" := (bind c (fun x => k))
  (at level 61, c at next level, right associativity).
Local Notation "c ;;; k" := (bind c (fun _ => k))
  (at level 61, right associativity).

Definition S_IFCHR : Z := 8192.    (* 0020000 *)
Definition S_IFBLK : Z := 24576.   (* 0060000 *)

(** [memrchr(path, '/', n)]: the offset of the last slash among the
    first [n] characters. *)
Fixpoint memrchr_slash (path : list ascii) (n : nat) : option nat :=
  match n with
  | O => None
  | S n' =>
      if Ascii.eqb (nth n' path NUL) "/"%char then Some n'
      else memrchr_slash path n'
  end.

(** The loop [for (runp = p; runp != path; --runp) if (runp[-1] != '/')
    break;] of [dirname]: the start of the run of slashes before [p]. *)
Fixpoint slash_run_start (path : list ascii) (p : nat) : nat :=
  match p with
  | O => O
  | S p' =>
      if Ascii.eqb (nth p' path NUL) "/"%char then slash_run_start path p'
      else p
  end.

(** [dirname(path)] of the C library (glibc), step by step: the last
    slash is looked for; when it ends the path, the slashes at the end are
    skipped and the last slash before them is taken; the path is cut at the
    start of the run of slashes that ends there.  A path without a slash
    gives ".", a run that starts the path gives "/", and "//" when the
    path starts with exactly two slashes. *)
Definition dirname (path : list ascii) : list ascii :=
  (* Find last '/'. *)
  let last_slash := memrchr_slash path (length path) in
  let last_slash :=
    match last_slash with
    | Some ls =>
        if negb (Nat.eqb ls 0) && Nat.eqb (S ls) (length path) then
          (* The '/' is the last character, we have to look further. *)
          let runp := slash_run_start path ls in
          if negb (Nat.eqb runp 0) then memrchr_slash path runp else Some ls
        else Some ls
    | None => None
    end in
  match last_slash with
  | Some ls =>
      let runp := slash_run_start path ls in
      firstn (if Nat.eqb runp 0
              then (if Nat.eqb ls 1 then 2%nat else 1%nat)
              else runp) path
  | None => lit "."
  end.

(** [uevent_rename_ifi_new(oldname, infix)]; [asprintf] is taken to
    succeed. *)
Definition uevent_rename_ifi_new (oldname infix : list ascii)
  : M (option (list ascii)) :=
  g <- get ;;
  let use_wlan := strcmp_eq infix (lit "wlan") in
  let ifi_idx := if use_wlan then cmld_wlan_idx g else cmld_eth_idx g in
  let newname := lit "cml" ++ infix ++ print_d (wrap_int ifi_idx) in
  put ((if use_wlan then set_wlan_idx else set_eth_idx)
         (wrap_uint32 (ifi_idx + 1)) g) ;;;
  emit (ERenameIfi oldname newname) ;;;
  if negb (network_rename_ifi env oldname newname =? 0)
  then emit (EError "Failed to rename interface") ;;; ret None
  else ret (Some newname).

(** [uevent_rename_interface(uevent)] *)
Definition uevent_rename_interface (u : uevent) : M (option uevent) :=
  ifname <- lift (str_of u (interface u)) ;;
  infix <- lift (str_of u (devtype u)) ;;
  new_ifname <- uevent_rename_ifi_new ifname infix ;;
  match new_ifname with
  | None => ret None
  | Some new_ifname =>
      (* replace ifname in cmld's available netifs *)
      emit (ENetifPhysRemove ifname) ;;;
      (if cmld_netif_phys_remove_by_name env ifname
       then emit (ENetifPhysAdd new_ifname) else ret tt) ;;;
      path <- lift (str_of u (devpath u)) ;;
      match uevent_replace_devpath_new path ifname new_ifname with
      | None => ret None
      | Some new_devpath =>
          uev_chname <- lift (uevent_replace_member order (mem_new_uevent env)
                                u (interface u) new_ifname) ;;
          uev_chname <- lift (uevent_parse uev_chname 0) ;;
          uev_chdevpath <- lift (uevent_replace_member order (mem_new_uevent env)
                                   u (devpath u) new_devpath) ;;
          _ <- lift (uevent_parse uev_chdevpath 0) ;;
          ret (Some uev_chname)
      end
  end.

(** [uevent_inject_into_netns(uevent, size, netns_pid, join_userns)]: the
    fork is an effect, what the child does is the collaborator's answer. *)
Definition uevent_inject_into_netns (buf : list ascii) (size : Z)
           (netns_pid : Z) (join_userns : bool) : M Z :=
  match injector_child env (payload buf size) netns_pid join_userns with
  | ForkFailed => emit (EError "Could not fork for switching to netns") ;;; ret (-1)
  | outcome =>
      emit (EForkInjector (payload buf size) size netns_pid join_userns) ;;;
      match outcome with
      | ChildExited status => ret (if status =? 0 then 0 else -1)
      | ChildKilled => emit (EError "Child terminated abnormally") ;;; ret (-1)
      | _ => emit (EError "Could not waitpid") ;;; ret (-1)
      end
  end.

(** [uevent_create_device_node(uevent, path, container)] *)
Definition uevent_create_device_node (u : uevent) (path : list ascii)
           (c : container_t) : M Z :=
  let shift : M Z :=
    emit (EShiftIds c path) ;;;
    if container_shift_ids env c path false <? 0
    then emit (EError "Failed to fixup uids") ;;; ret (-1)
    else ret 0 in
  if file_exists env path then shift
  else
    emit (EMkdirP (dirname path) 493) ;;;
    if dir_mkdir_p env (dirname path) 493 <? 0
    then emit (EError "Could not create path for device node") ;;; ret (-1)
    else
      dt <- lift (str_of u (devtype u)) ;;
      let mode := if strcmp_eq dt (lit "disk") then S_IFBLK else S_IFCHR in
      emit (EMknod path mode (major u) (minor u)) ;;;
      if mknod env path mode (major u) (minor u) <? 0
      then emit (EError "Could not create device node") ;;; ret (-1)
      else shift.

(** [uevent_netdev_move(uevent)] *)
Definition uevent_netdev_move (u : uevent) : M Z :=
  ifname <- lift (str_of u (interface u)) ;;
  match network_get_mac_by_ifname env ifname with
  | None => emit (EError "Iface with no mac, skipping!") ;;; ret (-1)
  | Some iface_mac =>
      g <- get ;;
      let found :=
        find (fun mapping => memcmp_eq iface_mac (mac mapping) 6)
             (uevent_container_netdev_mapping_list g) in
      let container := option_map n_container found in
      let pnet := option_map pnet_cfg found in
      (* no mapping found move to c0 *)
      let container :=
        match container with
        | Some c => Some c
        | None => cmld_containers_get_c0 env
        end in
      let st_ne c s := negb (container_state_eqb (container_get_state env c) s) in
      if match container with
         | None => true
         | Some c =>
             st_ne c CONTAINER_STATE_BOOTING
             || st_ne c CONTAINER_STATE_RUNNING
             || st_ne c CONTAINER_STATE_STARTING
         end
      then emit (EWarn "Target container is not running, skip moving") ;;; ret (-1)
      else
        c <- lift container ;;
        let pnet :=
          match pnet with
          | Some cfg => cfg
          | None => container_pnet_cfg_new ifname false
          end in
        (* rename network interface to avoid name clashes *)
        newevent <- uevent_rename_interface u ;;
        u <- match newevent with
             | Some n => ret n
             | None => emit (EError "Failed to rename interface. Injecting uevent as it is")
                         ;;; ret u
             end ;;
        emit (EAddNetIface c pnet) ;;;
        if negb (container_add_net_iface env c pnet false =? 0)
        then emit (EError "Cannot move interface to container") ;;; ret (-1)
        else if mac_filter pnet then ret 0
        else
          rc <- uevent_inject_into_netns (raw u) (msg_len u)
                  (container_get_pid env c) (container_has_userns env c) ;;
          (if rc <? 0 then emit (EWarn "Could not inject uevent into netns")
           else ret tt) ;;;
          ret 0
  end.

(** [uevent_sysfs_netif_timer_cb(timer, data)] *)
Definition uevent_sysfs_netif_timer_cb (uevent_cb : uevent) : M unit :=
  u <- lift (uevent_parse uevent_cb 0) ;;
  dt <- lift (str_of u (devtype u)) ;;
  ifname <- lift (str_of u (interface u)) ;;
  (* if sysfs is not ready in case of wifi just return and retry *)
  if strcmp_eq dt (lit "wlan") && negb (network_interface_is_wifi env ifname)
  then ret tt
  else
    rc <- uevent_netdev_move u ;;
    (if rc =? -1 then emit (EWarn "Did not move net interface!") else ret tt) ;;;
    emit ETimerRemove.

(** [uevent_device_node_and_forward(uevent, container)] *)
Definition uevent_device_node_and_forward (u : uevent) (c : container_t) : M unit :=
  let st := container_get_state env c in
  if negb (container_state_eqb st CONTAINER_STATE_BOOTING
           || container_state_eqb st CONTAINER_STATE_RUNNING
           || container_state_eqb st CONTAINER_STATE_SETUP)
  then ret tt
  else if negb (container_is_device_allowed env c (major u) (minor u))
  then ret tt
  else
    dn <- lift (str_of u (devname u)) ;;
    (* newer versions of udev prepends '/dev/' in DEVNAME *)
    let devname :=
      container_get_rootdir env c
        ++ (if strncmp_eq (lit "/dev/") dn 4 then [] else lit "/dev/") ++ dn in
    act <- lift (str_of u (action u)) ;;
    rc <- (if strncmp_eq act (lit "add") 3 then
             uevent_create_device_node u devname c
           else if strncmp_eq act (lit "remove") 6 then
             emit (EUnlink devname) ;;;
             match unlink env devname with
             | UnlinkFailed => emit (EWarn "Could not remove device node") ;;; ret 0
             | _ => ret 0
             end
           else ret 0) ;;
    if rc <? 0 then emit (EError "Could not create device node")
    else
      rc <- uevent_inject_into_netns (raw u) (msg_len u)
              (container_get_pid env c) (container_has_userns env c) ;;
      if rc <? 0 then emit (EWarn "Could not inject uevent into netns")
      else ret tt.

(** The loop of the remove path: a deny for every mapping bound to the
    device numbers of the event. *)
Fixpoint usb_deny_loop (u : uevent) (l : list dev_mapping) : M unit :=
  match l with
  | [] => ret tt
  | mapping :: l' =>
      (if (major u =? Usbdev.major (usbdev mapping))
          && (minor u =? Usbdev.minor (usbdev mapping))
       then emit (EDeviceDeny (container mapping)
                    (Usbdev.major (usbdev mapping))
                    (Usbdev.minor (usbdev mapping)))
       else ret tt) ;;;
      usb_deny_loop u l'
  end.

(** The loop of the add path; returns the list with the matching mappings
    updated in place. *)
Fixpoint usb_allow_loop (u : uevent) (serial : list ascii)
         (l : list dev_mapping) : M (list dev_mapping) :=
  match l with
  | [] => ret []
  | mapping :: l' =>
      vendor_id <- lift (uevent_get_usb_vendor u) ;;
      product_id <- lift (uevent_get_usb_product u) ;;
      mapping <-
        (if (Usbdev.id_vendor (usbdev mapping) =? vendor_id)
            && (Usbdev.id_product (usbdev mapping) =? product_id)
            && strcmp_eq (Usbdev.i_serial (usbdev mapping)) serial
         then
           let dev := Usbdev.uevent_usbdev_set_minor
                        (Usbdev.uevent_usbdev_set_major (usbdev mapping) (major u))
                        (minor u) in
           emit (EDeviceAllow (container mapping) (Usbdev.major dev)
                   (Usbdev.minor dev) (assign mapping)) ;;;
           ret {| addr := addr mapping; container := container mapping;
                  usbdev := dev; assign := assign mapping |}
         else ret mapping) ;;
      rest <- usb_allow_loop u serial l' ;;
      ret (mapping :: rest)
  end.

(** [uevent_handle_usb_device(uevent)] *)
Definition uevent_handle_usb_device (u : uevent) : M bool :=
  sub <- lift (str_of u (subsystem u)) ;;
  dt <- lift (str_of u (devtype u)) ;;
  if negb (strncmp_eq sub (lit "usb") 3)
     || negb (strncmp_eq dt (lit "usb_device") 10)
  then ret false
  else
    act <- lift (str_of u (action u)) ;;
    done <-
      (if strncmp_eq act (lit "remove") 6 then
         detached <-
           match str_of u (devpath u) with
           | Some path =>
               emit (ETokenDetach path) ;;;
               ret (cmld_token_detach env path =? 0)
           | None => ret false
           end ;;
         if detached then ret true
         else
           g <- get ;;
           usb_deny_loop u (uevent_container_dev_mapping_list g) ;;;
           ret false
       else ret false) ;;
    if done then ret true
    else if strncmp_eq act (lit "add") 3 then
      path <- lift (str_of u (devpath u)) ;;
      let serial_path := lit "/sys/" ++ path ++ lit "/serial" in
      let serial :=
        if file_exists env serial_path
        then option_map cstr (file_read_new env serial_path 255)
        else None in
      match serial with
      | None => ret false
      | Some [] => ret false
      | Some serial =>
          let serial :=
            if Ascii.eqb (last serial NUL) "010"%char
            then removelast serial else serial in
          attached <-
            (emit (ETokenAttach serial path) ;;;
             ret (cmld_token_attach env serial path =? 0)) ;;
          if attached then ret true
          else
            g <- get ;;
            l <- usb_allow_loop u serial (uevent_container_dev_mapping_list g) ;;
            put (set_dev_list l g) ;;;
            ret false
      end
    else ret false.

(** The fan-out loop of [handle_kernel_event]. *)
Fixpoint forward_all (u : uevent) (l : list container_t) : M unit :=
  match l with
  | [] => ret tt
  | c :: l' => uevent_device_node_and_forward u c ;;; forward_all u l'
  end.

(** [handle_kernel_event(uevent, raw_p)] *)
Definition handle_kernel_event (uev : uevent) (raw_p : nat) : M unit :=
  u <- lift (uevent_parse uev raw_p) ;;
  act <- lift (str_of u (action u)) ;;
  (* just handle add,remove or change events to containers *)
  if negb (strncmp_eq act (lit "add") 3)
     && negb (strncmp_eq act (lit "remove") 6)
     && negb (strncmp_eq act (lit "change") 6)
  then ret tt
  else
    handled <- uevent_handle_usb_device u ;;
    if handled then ret tt
    else
      uuid_str <- lift (str_of u (synth_uuid u)) ;;
      (* handle coldboot events just for target container *)
      match match uuid_new env uuid_str with
            | Some uevent_uuid => cmld_container_get_by_uuid env uevent_uuid
            | None => None
            end with
      | Some c =>
          uev_fwd <- lift (uevent_replace_member order (mem_new_uevent env)
                             u (synth_uuid u) (lit "0")) ;;
          uevent_device_node_and_forward uev_fwd c
      | None =>
          sub <- lift (str_of u (subsystem u)) ;;
          path <- lift (str_of u (devpath u)) ;;
          (* move network ifaces to containers *)
          if strncmp_eq act (lit "add") 3
             && strcmp_eq sub (lit "net")
             && (match strstr path (lit "virtual") with None => true | Some _ => false end)
             && negb (cmld_is_hostedmode_active env)
          then
            ifname <- lift (str_of u (interface u)) ;;
            emit (ENetifPhysAdd ifname) ;;;
            (* give sysfs some time to settle if iface is wifi *)
            emit (ETimerAdd 100 u)
          else
            (* handle new events targetting all containers *)
            forward_all u (cmld_containers env)
      end.

(** [handle_udev_event(uevent, raw_p)] *)
Definition handle_udev_event (uev : uevent) (raw_p : nat) : M unit :=
  _ <- lift (uevent_parse uev raw_p) ;;
  ret tt.

(** [uevent_handle].  [ret_recv] is what [nl_msg_receive_kernel] returned
    and [data] what it stored in the zeroed buffer. *)
Definition uevent_handle (ret_recv : Z) (data : list ascii) : M unit :=
  let uev := uevent_received data (wrap_size_t ret_recv) in
  if msg_len uev <=? 0 then emit (EWarn "could not read uevent")
  else if strncmp_eq (cstr_at (raw uev) 0) UDEV_MONITOR_TAG (msg_len uev) then
    (* udev message needs proper version magic *)
    if negb (nlh_magic order (raw uev) =? htonl order UDEV_MONITOR_MAGIC)
    then emit (EWarn "unrecognized message signature")
    else if msg_len uev <? wrap_uint32 (nlh_properties_off order (raw uev) + 32)
    then emit (EWarn "message smaller than expected")
    else handle_udev_event uev (Z.to_nat (nlh_properties_off order (raw uev)))
  else if strchr_found (cstr_at (raw uev) 0) "@"%char then
    (* kernel message *)
    handle_kernel_event uev (strlen_at (raw uev) 0 + 1)
  else ret tt.

End WithEnv.

End Router.

(** ** The members of the view, by name *)

Module View.
Import CStr Frame.
Local Open Scope string_scope.

(** The string members that [uevent_parse] resets and fills. *)
Inductive member : Set :=
| MAction | MDevpath | MSubsystem | MDevname | MDevtype | MProduct
| MIdSerialShort | MInterface | MSynthUuid.

Definition get (f : member) (u : uevent) : cptr :=
  match f with
  | MAction => action u
  | MDevpath => devpath u
  | MSubsystem => subsystem u
  | MDevname => devname u
  | MDevtype => devtype u
  | MProduct => product u
  | MIdSerialShort => id_serial_short u
  | MInterface => interface u
  | MSynthUuid => synth_uuid u
  end.

(** The string a member of the view holds. *)
Definition value (f : member) (u : uevent) : option (list ascii) :=
  str_of u (get f u).

(** The recognized keys, in the order of the tests in [uevent_parse]. *)
Inductive key : Set :=
| KAction | KDevpath | KSubsystem | KMajor | KMinor | KDevname | KDevtype
| KDriver | KProduct | KIdVendorId | KIdModelId | KIdSerialShort
| KInterface | KSynthUuid.

Definition key_prefix (k : key) : list ascii :=
  lit match k with
      | KAction => "ACTION="
      | KDevpath => "DEVPATH="
      | KSubsystem => "SUBSYSTEM="
      | KMajor => "MAJOR="
      | KMinor => "MINOR="
      | KDevname => "DEVNAME="
      | KDevtype => "DEVTYPE="
      | KDriver => "DRIVER="
      | KProduct => "PRODUCT="
      | KIdVendorId => "ID_VENDOR_ID="
      | KIdModelId => "ID_MODEL_ID="
      | KIdSerialShort => "ID_SERIAL_SHORT="
      | KInterface => "INTERFACE="
      | KSynthUuid => "SYNTH_UUID="
      end.

Definition key_of (f : member) : key :=
  match f with
  | MAction => KAction
  | MDevpath => KDevpath
  | MSubsystem => KSubsystem
  | MDevname => KDevname
  | MDevtype => KDevtype
  | MProduct => KProduct
  | MIdSerialShort => KIdSerialShort
  | MInterface => KInterface
  | MSynthUuid => KSynthUuid
  end.

(** Which branch of [parse_entry] an entry takes. *)
Definition classify (tok : list ascii) : option key :=
  if strncmp_eq tok (lit "ACTION=") 7 then Some KAction
  else if strncmp_eq tok (lit "DEVPATH=") 8 then Some KDevpath
  else if strncmp_eq tok (lit "SUBSYSTEM=") 10 then Some KSubsystem
  else if strncmp_eq tok (lit "MAJOR=") 6 then Some KMajor
  else if strncmp_eq tok (lit "MINOR=") 6 then Some KMinor
  else if strncmp_eq tok (lit "DEVNAME=") 8 then Some KDevname
  else if strncmp_eq tok (lit "DEVTYPE=") 8 then Some KDevtype
  else if strncmp_eq tok (lit "DRIVER=") 7 then Some KDriver
  else if strncmp_eq tok (lit "PRODUCT=") 8 then Some KProduct
  else if strncmp_eq tok (lit "ID_VENDOR_ID=") 13 then Some KIdVendorId
  else if strncmp_eq tok (lit "ID_MODEL_ID=") 12 then Some KIdModelId
  else if strncmp_eq tok (lit "ID_SERIAL_SHORT=") 16 then Some KIdSerialShort
  else if strncmp_eq tok (lit "INTERFACE=") 10 then Some KInterface
  else if strncmp_eq tok (lit "SYNTH_UUID=") 11 then Some KSynthUuid
  else None.

(** What the branch of key [k] does to the struct, for an entry whose
    value starts at [p]. *)
Definition apply_key (k : key) (p : nat) (u : uevent) : uevent :=
  match k with
  | KAction => set_action (InRaw p) u
  | KDevpath => set_devpath (InRaw p) u
  | KSubsystem => set_subsystem (InRaw p) u
  | KMajor => set_major (atoi (cstr_at (raw u) p)) u
  | KMinor => set_minor (atoi (cstr_at (raw u) p)) u
  | KDevname => set_devname (InRaw p) u
  | KDevtype => set_devtype (InRaw p) u
  | KDriver => set_driver (InRaw p) u
  | KProduct => set_product (InRaw p) u
  | KIdVendorId =>
      match sscanf_hx (cstr_at (raw u) p) with
      | Some v => set_id_vendor_id v u
      | None => u
      end
  | KIdModelId =>
      match sscanf_hx (cstr_at (raw u) p) with
      | Some v => set_id_model_id v u
      | None => u
      end
  | KIdSerialShort => set_id_serial_short (InRaw p) u
  | KInterface => set_interface (InRaw p) u
  | KSynthUuid => set_synth_uuid (InRaw p) u
  end.

(** What the entry at [p] does to the struct. *)
Definition entry_effect (u : uevent) (p : nat) : uevent :=
  match classify (cstr_at (raw u) p) with
  | Some k => apply_key k (p + length (key_prefix k)) u
  | None => u
  end.

(** A C string has no terminator inside. *)
Definition no_nul (s : list ascii) : bool :=
  forallb (fun c => negb (is_nul c)) s.

(** Where the byte at offset [p] of a frame is after a member at [off] of
    length [old_len] was replaced by one of length [new_len]. *)
Definition shift (off old_len new_len p : nat) : nat :=
  if (p <=? off)%nat then p else (p + new_len - old_len)%nat.

(** The integer members of two views agree. *)
Definition same_numbers (u u' : uevent) : Prop :=
  major u' = major u /\ minor u' = minor u
  /\ id_vendor_id u' = id_vendor_id u /\ id_model_id u' = id_model_id u.

(** [b], a member [g] of the view of the rewritten frame [T'], stands for
    [a], the same member of the view of the frame [T]; [f] is the member
    that was rewritten, at [off]. *)
Definition ptr_rel (T T' : list ascii) (off old_len new_len : nat)
           (f g : member) (a b : cptr) : Prop :=
  match a, b with
  | NullPtr, NullPtr => True
  | EmptyLit, EmptyLit => True
  | InRaw p, InRaw p' =>
      p' = shift off old_len new_len p
      /\ ((g = f /\ p = off) \/ cstr_at T' p' = cstr_at T p)
  | _, _ => False
  end.

Definition view_rel (T T' : list ascii) (M M' off old_len new_len : nat)
           (f : member) (u u' : uevent) : Prop :=
  raw u = T /\ raw u' = T'
  /\ msg_len u = Z.of_nat M /\ msg_len u' = Z.of_nat M'
  /\ same_numbers u u'
  /\ forall g, ptr_rel T T' off old_len new_len f g (get g u) (get g u').

(** [p] is where an entry can start when the scan starts at [start]. *)
Definition entry_start (raw : list ascii) (start p : nat) : Prop :=
  (start <= p)%nat /\ (p = start \/ byte_at raw (p - 1) = NUL).

(** No entry of the frame carries the key [k]. *)
Definition absent (raw : list ascii) (start : nat) (k : key) : Prop :=
  forall t, entry_start raw start t -> classify (cstr_at raw t) <> Some k.

End View.

(** ** Concrete frames and worlds used by the examples *)

Module Scenario.
Import CStr Frame Ext Tables Router.
Local Open Scope string_scope.

Definition c0 : container_t := 0%nat.
Definition c1 : container_t := 1%nat.

Definition nic_mac : mac_addr := [82; 84; 0; 18; 52; 86].   (* 52:54:00:12:34:56 *)

Definition usb_devpath : string := "/devices/pci0000:00/0000:00:14.0/usb1".
Definition usb_serial_path : list ascii := lit "/sys/" ++ lit usb_devpath ++ lit "/serial".
Definition usb_serial : list ascii := lit "0000:00:14.0".
Definition usb_serial_file : list ascii := usb_serial ++ ["010"%char].

(** A world in which every container runs, [c0] exists, every interface
    has the MAC above, renaming and attaching succeed, no token reacts and
    the injector child exits with 0. *)
Definition world : Env :=
  {| network_str_to_mac_addr :=
       fun s => if strcmp_eq s (lit "52:54:00:12:34:56") then Some nic_mac else None;
     network_get_mac_by_ifname := fun _ => Some nic_mac;
     network_rename_ifi := fun _ _ => 0;
     network_interface_is_wifi := fun _ => true;
     cmld_netif_phys_remove_by_name := fun _ => true;
     cmld_containers := [c0; c1];
     cmld_containers_get_c0 := Some c0;
     uuid_new := fun _ => None;
     cmld_container_get_by_uuid := fun _ => None;
     cmld_is_hostedmode_active := false;
     container_get_state := fun _ => CONTAINER_STATE_RUNNING;
     container_get_pid := fun c => 1000 + Z.of_nat c;
     container_has_userns := fun _ => true;
     container_get_rootdir := fun _ => lit "/run/c";
     container_is_device_allowed := fun _ _ _ => true;
     container_add_net_iface := fun _ _ _ => 0;
     container_shift_ids := fun _ _ _ => 0;
     cmld_token_attach := fun _ _ => -1;
     cmld_token_detach := fun _ => -1;
     file_exists := fun p => strcmp_eq p usb_serial_path;
     file_read_new := fun _ _ => Some usb_serial_file;
     dir_mkdir_p := fun _ _ => 0;
     mknod := fun _ _ _ _ => 0;
     unlink := fun _ => UnlinkOk;
     injector_child := fun _ _ _ => ChildExited 0;
     mem_new_uevent := uevent_zero |}.

(** S1: the kernel add event of a USB device. *)
Definition usb_add_msg : list ascii :=
  entries ["add@" ++ usb_devpath; "ACTION=add"; "DEVPATH=" ++ usb_devpath;
           "SUBSYSTEM=usb"; "MAJOR=189"; "MINOR=3";
           "DEVNAME=bus/usb/001/004"; "DEVTYPE=usb_device";
           "PRODUCT=1d6b/2/410"; "SEQNUM=2101"].

Definition usb_registered : globals :=
  snd (uevent_register_usbdevice globals_init c1
         (Usbdev.uevent_usbdev_new Usbdev.UEVENT_USBDEV_TYPE_GENERIC
            7531 2 usb_serial false)).

(** S4: the kernel add event of the network interface eth5. *)
Definition eth5_devpath : string := "/devices/pci0000:00/0000:00:03.0/net/eth5".

Definition eth5_add_msg : list ascii :=
  entries ["add@" ++ eth5_devpath; "ACTION=add"; "DEVPATH=" ++ eth5_devpath;
           "SUBSYSTEM=net"; "INTERFACE=eth5"; "IFINDEX=7"; "SEQNUM=2102"].

(** The same event with [DEVTYPE=eth], so that the new name is cmleth0. *)
Definition eth5_devtype_msg : list ascii :=
  entries ["add@" ++ eth5_devpath; "ACTION=add"; "DEVPATH=" ++ eth5_devpath;
           "SUBSYSTEM=net"; "DEVTYPE=eth"; "INTERFACE=eth5"; "IFINDEX=7";
           "SEQNUM=2102"].

Definition received (msg : list ascii) : uevent :=
  uevent_received msg (Z.of_nat (length msg)).

(** A udev frame on a little-endian host: the 40-byte header, then the
    properties. *)
Definition udev_msg (magic : list Z) (props : list ascii) : list ascii :=
  lit "libudev" ++ [NUL]
    ++ map byte_of_Z magic
    ++ encode_u32 LittleEndian 40
    ++ encode_u32 LittleEndian 40
    ++ encode_u32 LittleEndian (Z.of_nat (length props))
    ++ map byte_of_Z [17; 34; 51; 68; 85; 102; 119; 136;
                      153; 170; 187; 204; 221; 238; 255; 1]
    ++ props.

Definition good_magic : list Z := [254; 237; 202; 254].   (* fe ed ca fe *)
Definition bad_magic : list Z := [222; 173; 190; 239].    (* de ad be ef *)

Definition udev_net_msg : list ascii :=
  udev_msg good_magic (entries ["ACTION=add"; "SUBSYSTEM=net"; "INTERFACE=eth5"]).

Definition udev_bad_msg : list ascii :=
  udev_msg bad_magic (entries ["ACTION=add"; "SUBSYSTEM=net"; "INTERFACE=eth5"]).

(** Two mappings of one identity, then a mapping of another container. *)
Definition usb_dev : Usbdev.uevent_usbdev :=
  Usbdev.uevent_usbdev_new Usbdev.UEVENT_USBDEV_TYPE_GENERIC 7531 2 usb_serial false.

(** The same device registered twice for the same container. *)
Definition same_registered_twice : globals :=
  snd (uevent_register_usbdevice
         (snd (uevent_register_usbdevice globals_init c1 usb_dev)) c1 usb_dev).

Definition twice_registered : globals :=
  snd (uevent_register_usbdevice
         (snd (uevent_register_usbdevice
                 (snd (uevent_register_usbdevice globals_init c1 usb_dev))
                 c1 usb_dev))
         c0 usb_dev).

Definition hd_dev (l : list dev_mapping) : dev_mapping :=
  hd (uevent_container_dev_mapping_new globals_init c0 usb_dev) l.

Definition nic_cfg : container_pnet_cfg :=
  container_pnet_cfg_new (lit "52:54:00:12:34:56") false.

Definition net_twice_registered : globals :=
  snd (uevent_register_netdev world
         (snd (uevent_register_netdev world
                 (snd (uevent_register_netdev world twice_registered c1 nic_cfg))
                 c1 nic_cfg))
         c0 nic_cfg).

(** The eth5 event as [handle_kernel_event] parses it, and the frame that
    replacing its INTERFACE by cmleth0 gives. *)
Definition eth5_start : nat := (strlen_at eth5_add_msg 0 + 1)%nat.

Definition eth5_event : uevent :=
  match uevent_parse (received eth5_add_msg) eth5_start with
  | Some v => v
  | None => uevent_zero
  end.

Definition eth5_interface_off : nat :=
  match interface eth5_event with InRaw off => off | _ => O end.

Definition eth5_renamed : uevent :=
  match uevent_replace_member LittleEndian uevent_zero eth5_event
          (interface eth5_event) (lit "cmleth0") with
  | Some F' => F'
  | None => uevent_zero
  end.

Definition hd_netdev (l : list netdev_mapping) : netdev_mapping :=
  hd {| n_addr := 0; n_container := c0; pnet_cfg := nic_cfg; mac := nic_mac |} l.

End Scenario.

(** ** A message as a list of entries *)

Module Lookup.
Import CStr Frame View.

Definition key_index (k : key) : nat :=
  match k with
  | KAction => 0 | KDevpath => 1 | KSubsystem => 2 | KMajor => 3
  | KMinor => 4 | KDevname => 5 | KDevtype => 6 | KDriver => 7
  | KProduct => 8 | KIdVendorId => 9 | KIdModelId => 10
  | KIdSerialShort => 11 | KInterface => 12 | KSynthUuid => 13
  end.

Definition key_eqb (a b : key) : bool := Nat.eqb (key_index a) (key_index b).

(** Whether the entry [tok] carries the key [k]. *)
Definition has_key (k : key) (tok : list ascii) : bool :=
  match classify tok with
  | Some k' => key_eqb k' k
  | None => false
  end.




(** The offsets of the entries that the loop of [uevent_parse] handles
    when it is started at [p]: the loop stops at an empty entry and behind
    the entry that reaches [msg_len]. *)
Fixpoint entries_scanned (fuel : nat) (raw : list ascii) (msg_len : Z)
         (p : nat) : list nat :=
  match fuel with
  | O => []
  | S fuel' =>
      if is_nul (byte_at raw p) then []
      else
        p :: (let p2 := (p + strlen_at raw p + 1)%nat in
              if msg_len <=? Z.of_nat p2 then []
              else entries_scanned fuel' raw msg_len p2)
  end.

Definition scanned (u : uevent) (start : nat) : list nat :=
  entries_scanned (S (length (raw u))) (raw u) (msg_len u) start.

(** None of the entries that the loop handles carries the key [k]. *)
Definition unscanned (u : uevent) (start : nat) (k : key) : Prop :=
  forall t, In t (scanned u start) -> classify (cstr_at (raw u) t) <> Some k.

End Lookup.

(** ** The parser with its reads checked *)

Module Bounds.
Import CStr Frame.

(** How a run over [msg.raw] ends. *)
Inductive run (A : Type) : Type :=
| Done (a : A)
| Outside (off : nat)   (* a read at [msg.raw + off], outside of the array *)
| NoFuel.

Arguments Done {A} a.
Arguments Outside {A} off.
Arguments NoFuel {A}.

(** [*p] for [p = msg.raw + off]; [None] when [off] is outside of the
    array. *)
Definition load (raw : list ascii) (off : nat) : option ascii :=
  nth_error raw off.

(** The terminator of the string at [off] lies in the array.  A scan of
    that string ([strncmp], [atoi], [sscanf], a ["%s"], [while ( *p++ )])
    reads up to that terminator; without one it reads the byte behind the
    array. *)
Definition terminated (raw : list ascii) (off : nat) : bool :=
  (off + strlen_at raw off <? length raw)%nat.

(** The loop of [uevent_trace(uevent, raw_p)]: in
    [while ( *_raw_p || _raw_p < msg.raw + msg_len)] the byte is read
    first. *)
Fixpoint trace_loop (fuel : nat) (u : uevent) (p : nat) : run unit :=
  match fuel with
  | O => NoFuel
  | S fuel' =>
      match load (raw u) p with
      | None => Outside p
      | Some c =>
          if negb (is_nul c) || (Z.of_nat p <? msg_len u) then
            (* advance to after the next \0 *)
            if terminated (raw u) p
            then trace_loop fuel' u (p + strlen_at (raw u) p + 1)
            else Outside (length (raw u))
          else Done tt
      end
  end.

Definition uevent_trace (u : uevent) (start : nat) : run unit :=
  trace_loop (S (length (raw u))) u start.

(** The loop of [uevent_parse]: [Frame.parse_loop] with the read of
    [while ( *raw_p)] and the scans of an iteration checked. *)
Fixpoint parse_loop (fuel : nat) (u : uevent) (raw_p : nat) : run uevent :=
  match fuel with
  | O => NoFuel
  | S fuel' =>
      match load (raw u) raw_p with
      | None => Outside raw_p
      | Some c =>
          if is_nul c then Done u
          else if terminated (raw u) raw_p then
            let '(u1, p1) := parse_entry u raw_p in
            (* advance to after the next \0 *)
            let p2 := (p1 + strlen_at (raw u) p1 + 1)%nat in
            (* check if message ended *)
            if msg_len u <=? Z.of_nat p2 then Done u1
            else parse_loop fuel' u1 p2
          else Outside (length (raw u))
      end
  end.

(** [uevent_parse(uevent, raw_p)] with [raw_p = msg.raw + start]: the
    members are reset, [uevent_trace] runs, then the loop. *)
Definition uevent_parse (u : uevent) (start : nat) : run uevent :=
  match uevent_trace (parse_defaults u) start with
  | Done _ => parse_loop (S (length (raw u))) (parse_defaults u) start
  | Outside off => Outside off
  | NoFuel => NoFuel
  end.

(** The message lies in the array with at least one byte to spare behind
    the byte at [msg_len], and the array is zero from [msg_len] on: what
    [uevent_handle] holds after a receive of at most [sizeof(raw) - 2]
    bytes into the zeroed struct. *)
Definition zero_tailed (u : uevent) : Prop :=
  0 <= msg_len u
  /\ (Z.to_nat (msg_len u) + 1 < length (raw u))%nat
  /\ forall j, (Z.to_nat (msg_len u) <= j)%nat -> byte_at (raw u) j = NUL.

End Bounds.

(** ** Words for what the router does *)

Module RouterSpec.
Import CStr Frame Ext Tables Router.

(** Effects that rename, track or attach a network interface, or end its
    timer. *)
Definition moves_nic (e : effect) : bool :=
  match e with
  | ERenameIfi _ _ | ENetifPhysRemove _ | EAddNetIface _ _ | ETimerRemove => true
  | _ => false
  end.

(** Effects on a container: its file system or a process forked into it. *)
Definition touches_container (e : effect) : bool :=
  match e with
  | EForkInjector _ _ _ _ | EMkdirP _ _ | EMknod _ _ _ _ | EShiftIds _ _
  | EUnlink _ => true
  | _ => false
  end.

(** Changes of the cgroup device policy. *)
Definition changes_policy (e : effect) : bool :=
  match e with
  | EDeviceAllow _ _ _ _ | EDeviceDeny _ _ _ => true
  | _ => false
  end.

(** Everything of a USB mapping but the device numbers. *)
Definition cell_identity (m : dev_mapping)
  : nat * (container_t * Z * Z * list ascii) * bool * bool
    * option Usbdev.uevent_usbdev_type :=
  (addr m, usb_identity m, assign m, Usbdev.assign (usbdev m),
   Usbdev.type (usbdev m)).

(** The globals agree on everything but the device numbers of the USB
    mappings. *)
Definition same_but_numbers (g g' : globals) : Prop :=
  uevent_netlink_sock g' = uevent_netlink_sock g
  /\ uevent_io_event g' = uevent_io_event g
  /\ uevent_container_netdev_mapping_list g'
     = uevent_container_netdev_mapping_list g
  /\ cmld_wlan_idx g' = cmld_wlan_idx g
  /\ cmld_eth_idx g' = cmld_eth_idx g
  /\ map cell_identity (uevent_container_dev_mapping_list g')
     = map cell_identity (uevent_container_dev_mapping_list g).

(** Whenever the computation returns, the globals before and after are
    related by [R] and every effect satisfies [E]. *)
Definition inv {A : Type} (R : globals -> globals -> Prop) (E : effect -> bool)
           (m : M A) : Prop :=
  forall g r g' effs,
    m g = Some (r, g', effs) -> R g g' /\ forallb E effs = true.

(** The tests of the two loops of the USB dispatcher. *)
Definition usb_bound (u : uevent) (m : dev_mapping) : bool :=
  (major u =? Usbdev.major (usbdev m)) && (minor u =? Usbdev.minor (usbdev m)).

Definition usb_matches (vendor product : Z) (serial : list ascii)
           (m : dev_mapping) : bool :=
  (Usbdev.id_vendor (usbdev m) =? vendor)
  && (Usbdev.id_product (usbdev m) =? product)
  && strcmp_eq (Usbdev.i_serial (usbdev m)) serial.

(** The mapping with the device numbers of the event filled in. *)
Definition usb_bind (u : uevent) (m : dev_mapping) : dev_mapping :=
  {| addr := addr m; container := container m;
     usbdev := Usbdev.uevent_usbdev_set_minor
                 (Usbdev.uevent_usbdev_set_major (usbdev m) (major u))
                 (minor u);
     assign := assign m |}.

Definition deny_of (m : dev_mapping) : effect :=
  EDeviceDeny (container m) (Usbdev.major (usbdev m)) (Usbdev.minor (usbdev m)).

Definition allow_of (u : uevent) (m : dev_mapping) : effect :=
  EDeviceAllow (container m) (major u) (minor u) (assign m).

(** The container is in one of the states in which events are projected
    into it, and its cgroup allows the device of the event. *)
Definition projectable (env : Env) (u : uevent) (c : container_t) : bool :=
  (container_state_eqb (container_get_state env c) CONTAINER_STATE_BOOTING
   || container_state_eqb (container_get_state env c) CONTAINER_STATE_RUNNING
   || container_state_eqb (container_get_state env c) CONTAINER_STATE_SETUP)
  && container_is_device_allowed env c (major u) (minor u).

(** Messages of the log. *)
Definition is_log (e : effect) : bool :=
  match e with
  | EWarn _ | EError _ => true
  | _ => false
  end.

(** An allow, if the effect is one, carries [assign = false]. *)
Definition allow_flag_false (e : effect) : bool :=
  match e with
  | EDeviceAllow _ _ _ a => negb a
  | _ => true
  end.

Definition is_mknod (e : effect) : bool :=
  match e with EMknod _ _ _ _ => true | _ => false end.

Definition is_shift_ids (e : effect) : bool :=
  match e with EShiftIds _ _ => true | _ => false end.

(** The mode [uevent_create_device_node] passes to [mknod]. *)
Definition node_mode (dt : list ascii) : Z :=
  if strcmp_eq dt (lit "disk") then S_IFBLK else S_IFCHR.

(** No mapping of the table has its own [assign] set. *)
Definition all_unassigned (g : globals) : bool :=
  forallb (fun m => negb (assign m)) (uevent_container_dev_mapping_list g).

End RouterSpec.

(** ** Start and stop *)

Module Lifecycle.
Import CStr Frame Ext Tables Router.

(** The collaborators of [uevent_init]: cmld's list of physical
    interfaces, the process table, the netlink socket and the event loop.
    A socket and a watcher are named by a number; [None] is NULL. *)
Record InitEnv : Type := {
  cmld_get_netif_phys_list : list (list ascii);
  proc_find : Z -> list ascii -> Z;
  nl_sock_uevent_new : Z -> option nat;
  nl_sock_get_fd : nat -> Z;
  fd_make_non_blocking : Z -> Z;
  event_io_new : Z -> nat
}.

Inductive life_effect : Type :=
| Run (e : effect)
| LError (s : string)
| ENlSockNew (pid : Z)
| ENlSockFree (sock : nat)
| ENonBlocking (fd : Z)
| EIoNew (fd : Z)
| EAddIo (io : nat)
| ERemoveIo (io : nat)
| EIoFree (io : nat).

Definition set_sock (s : option nat) (g : globals) : globals :=
  {| uevent_netlink_sock := s;
     uevent_io_event := uevent_io_event g;
     uevent_container_dev_mapping_list := uevent_container_dev_mapping_list g;
     uevent_container_netdev_mapping_list := uevent_container_netdev_mapping_list g;
     cmld_wlan_idx := cmld_wlan_idx g; cmld_eth_idx := cmld_eth_idx g |}.

Definition set_io (io : option nat) (g : globals) : globals :=
  {| uevent_netlink_sock := uevent_netlink_sock g;
     uevent_io_event := io;
     uevent_container_dev_mapping_list := uevent_container_dev_mapping_list g;
     uevent_container_netdev_mapping_list := uevent_container_netdev_mapping_list g;
     cmld_wlan_idx := cmld_wlan_idx g; cmld_eth_idx := cmld_eth_idx g |}.

(** The loop of [uevent_init] over cmld's list of physical interfaces;
    returns the list with the names of the renamed interfaces replaced in
    place. *)
Fixpoint rename_all (env : Env) (l : list (list ascii)) : M (list (list ascii)) :=
  match l with
  | [] => ret []
  | ifname :: l' =>
      let prefix :=
        if network_interface_is_wifi env ifname then lit "wlan" else lit "eth" in
      bind (uevent_rename_ifi_new env ifname prefix) (fun if_name_new =>
      bind (rename_all env l') (fun rest =>
      ret (match if_name_new with
           | Some n => n :: rest
           | None => ifname :: rest
           end)))
  end.

(** The pid of the udevd that the socket is opened for. *)
Definition udevd_pid (ienv : InitEnv) : Z :=
  let udevd_pid := proc_find ienv 1 (lit "systemd-udevd") in
  let eudevd_pid := proc_find ienv 1 (lit "udevd") in
  if (eudevd_pid <? udevd_pid) && (0 <? eudevd_pid) then eudevd_pid
  else udevd_pid.

(** [uevent_init()]: the result, the globals, cmld's list of physical
    interfaces and the effects. *)
Definition uevent_init (ienv : InitEnv) (env : Env) (g : globals)
  : option (Z * globals * list (list ascii) * list life_effect) :=
  match uevent_netlink_sock g, uevent_io_event g with
  | Some _, _ =>
      Some (-1, g, cmld_get_netif_phys_list ienv,
            [LError "Uevent netlink_socket already exists."])
  | None, Some _ =>
      Some (-1, g, cmld_get_netif_phys_list ienv,
            [LError "Uevent io_event already exists."])
  | None, None =>
      (* Initially rename all physical interfaces before starting uevent
         handling. *)
      match rename_all env (cmld_get_netif_phys_list ienv) g with
      | None => None
      | Some (names, g1, effs) =>
          (* find the udevd started by cml's init *)
          let pid := udevd_pid ienv in
          match nl_sock_uevent_new ienv pid with
          | None =>
              Some (-1, set_sock None g1, names,
                    map Run effs
                    ++ [ENlSockNew pid; LError "Could not open netlink socket"])
          | Some sock =>
              let g2 := set_sock (Some sock) g1 in
              let fd := nl_sock_get_fd ienv sock in
              if negb (fd_make_non_blocking ienv fd =? 0) then
                Some (-1, g2, names,
                      map Run effs
                      ++ [ENlSockNew pid; ENonBlocking fd;
                          LError "Could not set fd of netlink sockt to non blocking!";
                          ENlSockFree sock])
              else
                let io := event_io_new ienv fd in
                Some (0, set_io (Some io) g2, names,
                      map Run effs
                      ++ [ENlSockNew pid; ENonBlocking fd; EIoNew fd; EAddIo io])
          end
      end
  end.

(** [uevent_deinit()]: the two objects are freed, the two statics keep
    their values. *)
Definition uevent_deinit (g : globals) : globals * list life_effect :=
  (g,
   match uevent_io_event g with
   | Some io => [ERemoveIo io; EIoFree io]
   | None => []
   end
   ++ match uevent_netlink_sock g with
      | Some sock => [ENlSockFree sock]
      | None => []
      end).

(** The name [uevent_rename_ifi_new] builds from an infix and a counter. *)
Definition ifi_name (infix : list ascii) (idx : Z) : list ascii :=
  lit "cml" ++ infix ++ print_d (wrap_int idx).

(** The globals agree on the socket, its watcher and the two tables. *)
Definition same_but_counters (g g' : globals) : Prop :=
  uevent_netlink_sock g' = uevent_netlink_sock g
  /\ uevent_io_event g' = uevent_io_event g
  /\ uevent_container_dev_mapping_list g' = uevent_container_dev_mapping_list g
  /\ uevent_container_netdev_mapping_list g'
     = uevent_container_netdev_mapping_list g.

(** The two counters are values of an [unsigned int]. *)
Definition counters_in_range (g : globals) : Prop :=
  0 <= cmld_wlan_idx g < 2 ^ 32 /\ 0 <= cmld_eth_idx g < 2 ^ 32.

(** The names asked for in a list of effects. *)
Definition rename_targets (effs : list effect) : list (list ascii) :=
  flat_map (fun e => match e with ERenameIfi _ n => [n] | _ => [] end) effs.

Definition runs (effs : list life_effect) : list effect :=
  flat_map (fun e => match e with Run e => [e] | _ => [] end) effs.

Definition frees_sock (e : life_effect) : bool :=
  match e with ENlSockFree _ => true | _ => false end.

End Lifecycle.

(** ** More frames and worlds for the examples *)

Module Samples.
Import CStr Frame Ext Tables Router Scenario Lookup.
Local Open Scope string_scope.




(** The matching remove event. *)
Definition usb_remove_msg : list ascii :=
  entries ["remove@" ++ usb_devpath; "ACTION=remove"; "DEVPATH=" ++ usb_devpath;
           "SUBSYSTEM=usb"; "MAJOR=189"; "MINOR=3";
           "DEVNAME=bus/usb/001/004"; "DEVTYPE=usb_device";
           "PRODUCT=1d6b/2/410"; "SEQNUM=2103"].

Definition parsed (msg : list ascii) : uevent :=
  match uevent_parse (received msg) (strlen_at msg 0 + 1) with
  | Some u => u
  | None => uevent_zero
  end.

(** A udev frame on a little-endian host whose header gives the offset
    0xffffffe0 for the properties. *)
Definition udev_wrap_msg : list ascii :=
  lit "libudev" ++ [NUL]
    ++ map byte_of_Z good_magic
    ++ encode_u32 LittleEndian 40
    ++ encode_u32 LittleEndian 4294967264
    ++ encode_u32 LittleEndian 40
    ++ map byte_of_Z [17; 34; 51; 68; 85; 102; 119; 136;
                      153; 170; 187; 204; 221; 238; 255; 1]
    ++ entries ["ACTION=add"; "SUBSYSTEM=net"; "INTERFACE=eth5"].




(** The table of [twice_registered] after the USB add event: all three
    mappings are bound to 189:3. *)
Definition usb_bound_table : globals :=
  match uevent_handle_usb_device world (parsed usb_add_msg) twice_registered with
  | Some (_, g, _) => g
  | None => twice_registered
  end.

(** The world of the scenarios with other container states and another
    answer of the token subsystem. *)
Definition world_with (st : container_t -> container_state) (token : Z) : Env :=
  {| network_str_to_mac_addr := network_str_to_mac_addr world;
     network_get_mac_by_ifname := network_get_mac_by_ifname world;
     network_rename_ifi := network_rename_ifi world;
     network_interface_is_wifi := network_interface_is_wifi world;
     cmld_netif_phys_remove_by_name := cmld_netif_phys_remove_by_name world;
     cmld_containers := cmld_containers world;
     cmld_containers_get_c0 := cmld_containers_get_c0 world;
     uuid_new := uuid_new world;
     cmld_container_get_by_uuid := cmld_container_get_by_uuid world;
     cmld_is_hostedmode_active := cmld_is_hostedmode_active world;
     container_get_state := st;
     container_get_pid := container_get_pid world;
     container_has_userns := container_has_userns world;
     container_get_rootdir := container_get_rootdir world;
     container_is_device_allowed := container_is_device_allowed world;
     container_add_net_iface := container_add_net_iface world;
     container_shift_ids := container_shift_ids world;
     cmld_token_attach := fun _ _ => token;
     cmld_token_detach := fun _ => token;
     file_exists := file_exists world;
     file_read_new := file_read_new world;
     dir_mkdir_p := dir_mkdir_p world;
     mknod := mknod world;
     unlink := unlink world;
     injector_child := injector_child world;
     mem_new_uevent := mem_new_uevent world |}.

(** The world in which the token subsystem takes every device. *)
Definition token_world : Env := world_with (container_get_state world) 0.

(** The world in which no container is up. *)
Definition stopped_world : Env := world_with (fun _ => CONTAINER_STATE_OTHER 0) (-1).

(** What [uevent_handle] makes of the USB add event with three mappings
    registered. *)
Definition usb_handled : unit * globals * list effect :=
  match uevent_handle LittleEndian world (Z.of_nat (length usb_add_msg))
          usb_add_msg twice_registered with
  | Some x => x
  | None => (tt, twice_registered, [])
  end.

(** What the projection of the USB add event into c1 does. *)
Definition usb_forwarded : unit * globals * list effect :=
  match uevent_device_node_and_forward world (parsed usb_add_msg) c1
          globals_init with
  | Some x => x
  | None => (tt, globals_init, [])
  end.

Definition usb_node_path : list ascii := lit "/run/c/dev/bus/usb/001/004".

(** A host with two wired interfaces and one wireless one, udevd running
    as process 77. *)
Definition host (nonblocking : Z) : Lifecycle.InitEnv :=
  {| Lifecycle.cmld_get_netif_phys_list := [lit "eth0"; lit "wlp2s0"; lit "eth1"];
     Lifecycle.proc_find :=
       fun _ name => if strcmp_eq name (lit "udevd") then 77 else 0;
     Lifecycle.nl_sock_uevent_new := fun _ => Some 5%nat;
     Lifecycle.nl_sock_get_fd := fun _ => 9;
     Lifecycle.fd_make_non_blocking := fun _ => nonblocking;
     Lifecycle.event_io_new := fun _ => 6%nat |}.

(** In this world only the interface wlp2s0 is a wireless one. *)
Definition host_world : Env :=
  {| network_str_to_mac_addr := network_str_to_mac_addr world;
     network_get_mac_by_ifname := network_get_mac_by_ifname world;
     network_rename_ifi := network_rename_ifi world;
     network_interface_is_wifi := fun n => strcmp_eq n (lit "wlp2s0");
     cmld_netif_phys_remove_by_name := cmld_netif_phys_remove_by_name world;
     cmld_containers := cmld_containers world;
     cmld_containers_get_c0 := cmld_containers_get_c0 world;
     uuid_new := uuid_new world;
     cmld_container_get_by_uuid := cmld_container_get_by_uuid world;
     cmld_is_hostedmode_active := cmld_is_hostedmode_active world;
     container_get_state := container_get_state world;
     container_get_pid := container_get_pid world;
     container_has_userns := container_has_userns world;
     container_get_rootdir := container_get_rootdir world;
     container_is_device_allowed := container_is_device_allowed world;
     container_add_net_iface := container_add_net_iface world;
     container_shift_ids := container_shift_ids world;
     cmld_token_attach := cmld_token_attach world;
     cmld_token_detach := cmld_token_detach world;
     file_exists := file_exists world;
     file_read_new := file_read_new world;
     dir_mkdir_p := dir_mkdir_p world;
     mknod := mknod world;
     unlink := unlink world;
     injector_child := injector_child world;
     mem_new_uevent := mem_new_uevent world |}.

(** What [uevent_init] does on this host. *)
Definition host_started (nonblocking : Z)
  : Z * globals * list (list ascii) * list Lifecycle.life_effect :=
  match Lifecycle.uevent_init (host nonblocking) host_world usb_registered with
  | Some x => x
  | None => (-1, usb_registered, [], [])
  end.


End Samples.

(** * Properties of the codec, the tables and the router *)

(** ** The event codec *)

Module CodecFacts.
Import CStr Frame View.

(** *** C strings in a buffer *)

Lemma is_nul_true (c : ascii) : is_nul c = true <-> c = NUL.
Proof. apply Ascii.eqb_eq. Qed.

Lemma byte_at_past_end (raw : list ascii) (p : nat) :
  (length raw <= p)%nat -> byte_at raw p = NUL.
Proof. intros H. unfold byte_at. now apply nth_overflow. Qed.

Lemma byte_at_not_nul_inside (raw : list ascii) (p : nat) :
  is_nul (byte_at raw p) = false -> (p < length raw)%nat.
Proof.
  intros H. destruct (Nat.lt_ge_cases p (length raw)) as [|Hge]; [assumption|].
  rewrite (byte_at_past_end raw p Hge) in H. discriminate.
Qed.

Lemma cstr_at_unfold (raw : list ascii) : forall p,
  cstr_at raw p
  = if is_nul (byte_at raw p) then [] else byte_at raw p :: cstr_at raw (S p).
Proof.
  unfold cstr_at, byte_at.
  induction raw as [|c raw IH]; intros p.
  - destruct p; reflexivity.
  - destruct p as [|p]; simpl.
    + reflexivity.
    + apply IH.
Qed.

Lemma strlen_at_zero (raw : list ascii) (p : nat) :
  strlen_at raw p = O <-> is_nul (byte_at raw p) = true.
Proof.
  unfold strlen_at. rewrite cstr_at_unfold.
  destruct (is_nul (byte_at raw p)); simpl; split; congruence.
Qed.

Lemma strlen_at_succ (raw : list ascii) (p : nat) :
  is_nul (byte_at raw p) = false -> strlen_at raw p = S (strlen_at raw (S p)).
Proof.
  intros H. unfold strlen_at. rewrite cstr_at_unfold, H. reflexivity.
Qed.

(** The string at [p] ends at the first terminator at or after [p]. *)
Lemma byte_at_strlen (raw : list ascii) : forall n p,
  strlen_at raw p = n -> byte_at raw (p + n) = NUL.
Proof.
  induction n as [|n IH]; intros p Hn.
  - rewrite Nat.add_0_r. apply is_nul_true. now apply strlen_at_zero.
  - destruct (is_nul (byte_at raw p)) eqn:E.
    + apply strlen_at_zero in E. congruence.
    + rewrite (strlen_at_succ raw p E) in Hn.
      replace (p + S n)%nat with (S p + n)%nat by lia. apply IH. congruence.
Qed.

Lemma byte_at_inside_cstr (raw : list ascii) : forall i p,
  (i < strlen_at raw p)%nat -> is_nul (byte_at raw (p + i)) = false.
Proof.
  induction i as [|i IH]; intros p Hi.
  - rewrite Nat.add_0_r. destruct (is_nul (byte_at raw p)) eqn:E; [|reflexivity].
    apply strlen_at_zero in E. lia.
  - destruct (is_nul (byte_at raw p)) eqn:E.
    + apply strlen_at_zero in E. lia.
    + rewrite (strlen_at_succ raw p E) in Hi.
      replace (p + S i)%nat with (S p + i)%nat by lia. apply IH. lia.
Qed.

Lemma strlen_at_le_nul (raw : list ascii) (p q : nat) :
  (p <= q)%nat -> byte_at raw q = NUL -> (p + strlen_at raw p <= q)%nat.
Proof.
  intros Hpq Hq.
  destruct (Nat.le_gt_cases (p + strlen_at raw p) q) as [|Hgt]; [assumption|].
  assert (Hin : is_nul (byte_at raw (p + (q - p))) = false)
    by (apply byte_at_inside_cstr; lia).
  replace (p + (q - p))%nat with q in Hin by lia.
  rewrite Hq in Hin. discriminate.
Qed.

Lemma cstr_at_plus (raw : list ascii) : forall k p,
  (k <= strlen_at raw p)%nat -> cstr_at raw (p + k) = skipn k (cstr_at raw p).
Proof.
  induction k as [|k IH]; intros p Hk.
  - now rewrite Nat.add_0_r.
  - destruct (is_nul (byte_at raw p)) eqn:E.
    + apply strlen_at_zero in E. lia.
    + rewrite (cstr_at_unfold raw p), E. simpl.
      replace (p + S k)%nat with (S p + k)%nat by lia. apply IH.
      rewrite (strlen_at_succ raw p E) in Hk. lia.
Qed.

Lemma strlen_at_plus (raw : list ascii) (k p : nat) :
  (k <= strlen_at raw p)%nat ->
  (p + k + strlen_at raw (p + k) = p + strlen_at raw p)%nat.
Proof.
  intros Hk. unfold strlen_at at 1. rewrite cstr_at_plus by assumption.
  rewrite length_skipn. fold (strlen_at raw p). lia.
Qed.

(** Two strings are equal when their bytes agree up to the terminator of
    the first. *)
Lemma cstr_at_ext (T T' : list ascii) : forall n p p',
  strlen_at T p = n ->
  (forall i, (i <= n)%nat -> byte_at T' (p' + i) = byte_at T (p + i)) ->
  cstr_at T' p' = cstr_at T p.
Proof.
  induction n as [|n IH]; intros p p' Hn Hbytes.
  - pose proof (Hbytes O (Nat.le_refl _)) as H0. rewrite !Nat.add_0_r in H0.
    apply strlen_at_zero in Hn.
    rewrite (cstr_at_unfold T p), (cstr_at_unfold T' p'), H0, Hn. reflexivity.
  - destruct (is_nul (byte_at T p)) eqn:E.
    + apply strlen_at_zero in E. congruence.
    + pose proof (Hbytes O (Nat.le_0_l _)) as H0. rewrite !Nat.add_0_r in H0.
      rewrite (cstr_at_unfold T p), (cstr_at_unfold T' p'), H0, E. f_equal.
      apply IH.
      * rewrite (strlen_at_succ T p E) in Hn. congruence.
      * intros i Hi. specialize (Hbytes (S i)).
        replace (p' + S i)%nat with (S p' + i)%nat in Hbytes by lia.
        replace (p + S i)%nat with (S p + i)%nat in Hbytes by lia.
        apply Hbytes. lia.
Qed.

Lemma cstr_app_nul (s r : list ascii) :
  no_nul s = true -> cstr (s ++ NUL :: r) = s.
Proof.
  induction s as [|c s IH]; simpl; intros Hs.
  - reflexivity.
  - apply andb_true_iff in Hs. destruct Hs as [Hc Hs].
    apply negb_true_iff in Hc. rewrite Hc. f_equal. now apply IH.
Qed.

Lemma cstr_id (s : list ascii) : no_nul s = true -> cstr s = s.
Proof.
  induction s as [|c s IH]; simpl; intros Hs; [reflexivity|].
  apply andb_true_iff in Hs. destruct Hs as [Hc Hs].
  apply negb_true_iff in Hc. rewrite Hc. f_equal. now apply IH.
Qed.

Lemma cstr_no_nul (l : list ascii) : no_nul (cstr l) = true.
Proof.
  induction l as [|c l IH]; simpl; [reflexivity|].
  destruct (is_nul c) eqn:E; simpl; [reflexivity|].
  now rewrite E, IH.
Qed.

(** *** The tests of [parse_entry] *)

Lemma strncmp_eq_prefix (pre : list ascii) : forall tok,
  strncmp_eq tok pre (Z.of_nat (length pre)) = true ->
  tok = pre ++ skipn (length pre) tok.
Proof.
  induction pre as [|y pre IH]; intros tok H.
  - reflexivity.
  - destruct tok as [|x tok].
    + simpl in H. discriminate.
    + cbn [strncmp_eq] in H.
      replace (Z.of_nat (length (y :: pre)) <=? 0) with false in H
        by (symmetry; apply Z.leb_gt; simpl length; lia).
      apply andb_true_iff in H. destruct H as [Hxy H].
      apply Ascii.eqb_eq in Hxy. subst y.
      replace (Z.of_nat (length (x :: pre)) - 1) with (Z.of_nat (length pre)) in H
        by (simpl length; lia).
      simpl. f_equal. now apply IH.
Qed.

Lemma classify_prefix (tok : list ascii) (k : key) :
  classify tok = Some k ->
  tok = key_prefix k ++ skipn (length (key_prefix k)) tok.
Proof.
  unfold classify.
  repeat match goal with
         | |- context [strncmp_eq tok ?pre ?n] =>
             let E := fresh "E" in
             destruct (strncmp_eq tok pre n) eqn:E;
             [intros [= <-]; exact (strncmp_eq_prefix pre tok E)|clear E]
         end.
  discriminate.
Qed.

Lemma classify_of_prefix (k : key) (rest : list ascii) :
  classify (key_prefix k ++ rest) = Some k.
Proof. destruct k; vm_compute; reflexivity. Qed.

Lemma key_prefix_length (tok : list ascii) (k : key) :
  classify tok = Some k -> (length (key_prefix k) <= length tok)%nat.
Proof.
  intros H. apply classify_prefix in H.
  apply (f_equal (@length ascii)) in H. rewrite length_app in H. lia.
Qed.

(** *** The loop of [uevent_parse], entry by entry *)

Lemma apply_key_raw (k : key) (p : nat) (u : uevent) :
  raw (apply_key k p u) = raw u /\ msg_len (apply_key k p u) = msg_len u.
Proof.
  destruct k; simpl; try (split; reflexivity);
    destruct (sscanf_hx _); split; reflexivity.
Qed.

Lemma parse_entry_classify (u : uevent) (p : nat) :
  parse_entry u p
  = match classify (cstr_at (raw u) p) with
    | Some k => (apply_key k (p + length (key_prefix k)) u,
                 (p + length (key_prefix k))%nat)
    | None => (u, p)
    end.
Proof.
  unfold parse_entry, classify.
  repeat match goal with
         | |- context [strncmp_eq ?tok ?pre ?n] =>
             destruct (strncmp_eq tok pre n); [reflexivity|]
         end.
  reflexivity.
Qed.

Lemma entry_effect_raw (u : uevent) (p : nat) :
  raw (entry_effect u p) = raw u /\ msg_len (entry_effect u p) = msg_len u.
Proof.
  unfold entry_effect. destruct (classify (cstr_at (raw u) p)).
  - apply apply_key_raw.
  - split; reflexivity.
Qed.

(** One iteration: the entry at [raw_p] is applied, and the scan goes on
    behind the terminator of that entry. *)
Lemma parse_loop_step (fuel : nat) (u : uevent) (p : nat) :
  parse_loop (S fuel) u p
  = if is_nul (byte_at (raw u) p) then Some u
    else if msg_len u <=? Z.of_nat (p + strlen_at (raw u) p + 1)
         then Some (entry_effect u p)
         else parse_loop fuel (entry_effect u p) (p + strlen_at (raw u) p + 1).
Proof.
  cbn [parse_loop]. destruct (is_nul (byte_at (raw u) p)); [reflexivity|].
  rewrite parse_entry_classify. unfold entry_effect.
  destruct (classify (cstr_at (raw u) p)) as [k|] eqn:Ek; [|reflexivity].
  rewrite strlen_at_plus by (apply key_prefix_length; assumption).
  reflexivity.
Qed.

Lemma parse_loop_raw : forall fuel u p v,
  parse_loop fuel u p = Some v -> raw v = raw u /\ msg_len v = msg_len u.
Proof.
  induction fuel as [|fuel IH]; intros u p v H; [discriminate|].
  rewrite parse_loop_step in H.
  destruct (is_nul (byte_at (raw u) p)).
  - injection H as <-. split; reflexivity.
  - destruct (entry_effect_raw u p) as [Hr Hm].
    destruct (msg_len u <=? _).
    + injection H as <-. split; assumption.
    + apply IH in H. destruct H as [H1 H2]. split; congruence.
Qed.

(** The loop ends: one unit of fuel for every byte from [raw_p] to the end
    of the buffer, and one more, is enough. *)
Lemma parse_loop_total : forall fuel u p,
  (length (raw u) - p < fuel)%nat -> exists v, parse_loop fuel u p = Some v.
Proof.
  induction fuel as [|fuel IH]; intros u p Hfuel; [lia|].
  rewrite parse_loop_step.
  destruct (is_nul (byte_at (raw u) p)) eqn:E; [eexists; reflexivity|].
  destruct (msg_len u <=? _); [eexists; reflexivity|].
  apply IH. apply byte_at_not_nul_inside in E.
  destruct (entry_effect_raw u p) as [Hr _]. rewrite Hr. lia.
Qed.

Lemma parse_loop_more_fuel : forall fuel fuel' u p v,
  parse_loop fuel u p = Some v -> (fuel <= fuel')%nat ->
  parse_loop fuel' u p = Some v.
Proof.
  induction fuel as [|fuel IH]; intros fuel' u p v H Hle; [discriminate|].
  destruct fuel' as [|fuel']; [lia|].
  rewrite parse_loop_step in *.
  destruct (is_nul (byte_at (raw u) p)); [assumption|].
  destruct (msg_len u <=? _); [assumption|].
  apply (IH fuel'); [assumption|lia].
Qed.

Lemma parse_defaults_raw (u : uevent) :
  raw (parse_defaults u) = raw u /\ msg_len (parse_defaults u) = msg_len u.
Proof. split; reflexivity. Qed.

Lemma uevent_parse_eq (u : uevent) (start : nat) :
  uevent_parse u start
  = parse_loop (S (length (raw u))) (parse_defaults u) start.
Proof. unfold uevent_parse. reflexivity. Qed.

(** [uevent_parse] returns, for every struct and every start. *)
Theorem uevent_parse_total (u : uevent) (start : nat) :
  exists v, uevent_parse u start = Some v
            /\ raw v = raw u /\ msg_len v = msg_len u.
Proof.
  unfold uevent_parse.
  destruct (parse_loop_total (S (length (raw u))) (parse_defaults u) start)
    as [v Hv]; [simpl; lia|].
  exists v. split; [assumption|]. now apply parse_loop_raw in Hv.
Qed.

(** *** Where the value of a member comes from *)

Section Origin.

Context {A : Type}.
Variable proj : uevent -> A.
Variable k : key.
Variable P : list ascii -> nat -> A -> Prop.

Hypothesis other_keys : forall k' p u, k' <> k -> proj (apply_key k' p u) = proj u.
Hypothesis this_key : forall p u,
  proj (apply_key k p u) = proj u \/ P (raw u) p (proj (apply_key k p u)).

Lemma key_eq_dec (a b : key) : {a = b} + {a <> b}.
Proof. decide equality. Qed.

(** After the loop a member either has the value it had before, or the
    value that an entry with its key gave it. *)
Lemma parse_loop_origin : forall fuel u p v,
  parse_loop fuel u p = Some v ->
  proj v = proj u
  \/ exists t, entry_start (raw u) p t
               /\ classify (cstr_at (raw u) t) = Some k
               /\ P (raw u) (t + length (key_prefix k)) (proj v).
Proof.
  induction fuel as [|fuel IH]; intros u p v H; [discriminate|].
  rewrite parse_loop_step in H.
  destruct (is_nul (byte_at (raw u) p)); [injection H as <-; now left|].
  assert (Hhere : proj (entry_effect u p) = proj u
                  \/ (classify (cstr_at (raw u) p) = Some k
                      /\ P (raw u) (p + length (key_prefix k))
                           (proj (entry_effect u p)))).
  { unfold entry_effect.
    destruct (classify (cstr_at (raw u) p)) as [k'|]; [|now left].
    destruct (key_eq_dec k' k) as [->|Hne].
    - destruct (this_key (p + length (key_prefix k)) u); [now left|now right].
    - left. now apply other_keys. }
  destruct (entry_effect_raw u p) as [Hr Hm].
  destruct (msg_len u <=? _).
  - injection H as <-. destruct Hhere as [Hsame|[Hk HP]]; [now left|].
    right. exists p. repeat split; auto.
  - apply IH in H. rewrite Hr in H. destruct H as [Hsame|[t [[Hle Ht] [Hk HP]]]].
    + rewrite Hsame. destruct Hhere as [Hsame'|[Hk HP]]; [now left|].
      right. exists p. repeat split; auto.
    + right. exists t. split; [|split; assumption].
      split; [lia|]. right. destruct Ht as [->|Ht]; [|assumption].
      replace (p + strlen_at (raw u) p + 1 - 1)%nat
        with (p + strlen_at (raw u) p)%nat by lia.
      now apply byte_at_strlen.
Qed.

End Origin.

(** *** The buffer [uevent_replace_member] builds *)

Lemma wrap_int_small (z : Z) : - 2 ^ 31 <= z < 2 ^ 31 -> wrap_int z = z.
Proof.
  intros H. unfold wrap_int, wrap_signed.
  change (2 ^ (32 - 1)) with (2 ^ 31). change (2 ^ 32) with (2 * 2 ^ 31).
  destruct (Z_lt_le_dec z 0) as [Hneg|Hpos].
  - replace (z mod (2 * 2 ^ 31)) with (z + 2 * 2 ^ 31)
      by (apply Z.mod_unique with (q := -1); lia).
    destruct (Z.ltb_spec (z + 2 * 2 ^ 31) (2 ^ 31)); lia.
  - rewrite Z.mod_small by lia.
    destruct (Z.ltb_spec z (2 ^ 31)); lia.
Qed.

Lemma wrap_size_t_small (z : Z) : 0 <= z < 2 ^ 64 -> wrap_size_t z = z.
Proof. intros H. unfold wrap_size_t. now apply Z.mod_small. Qed.

Lemma read_at_some (raw : list ascii) (off : nat) (n : Z) (data : list ascii) :
  read_at raw off n = Some data ->
  0 <= n /\ (off + Z.to_nat n <= length raw)%nat
  /\ data = slice raw off (Z.to_nat n) /\ length data = Z.to_nat n.
Proof.
  unfold read_at. destruct (0 <=? n) eqn:E1; [|discriminate].
  destruct (Z.of_nat off + n <=? Z.of_nat (length raw)) eqn:E2; [|discriminate].
  simpl. intros [= <-]. apply Z.leb_le in E1, E2.
  repeat split; try lia.
  unfold slice. rewrite length_firstn, length_skipn. lia.
Qed.

Lemma write_at_some (buf : list ascii) (off : nat) (data out : list ascii) :
  write_at buf off data = Some out ->
  (off + length data <= length buf)%nat
  /\ out = firstn off buf ++ data ++ skipn (off + length data) buf
  /\ length out = length buf.
Proof.
  unfold write_at. destruct (off + length data <=? length buf)%nat eqn:E; [|discriminate].
  intros [= <-]. apply Nat.leb_le in E. repeat split; try assumption.
  rewrite !length_app, length_firstn, length_skipn. lia.
Qed.

Lemma firstn_app_exact {A : Type} (l r : list A) (n : nat) :
  length l = n -> firstn n (l ++ r) = l.
Proof.
  intros <-. rewrite firstn_app, Nat.sub_diag, firstn_all. simpl.
  apply app_nil_r.
Qed.

Lemma skipn_app_exact {A : Type} (l r : list A) (n : nat) :
  length l = n -> skipn n (l ++ r) = r.
Proof.
  intros <-. rewrite skipn_app, Nat.sub_diag, skipn_all. reflexivity.
Qed.

(** The frame [uevent_replace_member] returns, when it returns one: the
    bytes before the old member, the new member and its terminator, the
    bytes behind the terminator of the old member up to the end of the
    message, and whatever the allocation held behind that. *)
Lemma replace_member_shape (order : byte_order) (newevent u F' : uevent)
      (off : nat) (newmember : list ascii) :
  uevent_replace_member order newevent u (InRaw off) newmember = Some F' ->
  0 <= msg_len u <= Z.of_nat (length (raw u)) ->
  Z.of_nat (length (raw u)) < 2 ^ 31 ->
  Z.of_nat (length (cstr newmember)) < 2 ^ 31 ->
  byte_at (raw u) (Z.to_nat (msg_len u) - 1) = NUL ->
  let old_len := strlen_at (raw u) off in
  let new_len := length (cstr newmember) in
  let M := Z.to_nat (msg_len u) in
  (0 < off)%nat
  /\ (off + old_len + 1 <= M)%nat
  /\ msg_len F' = Z.of_nat (M + new_len - old_len)
  /\ exists junk,
       raw F' = firstn off (raw u) ++ cstr newmember
                  ++ NUL :: slice (raw u) (off + old_len + 1)
                              (M - (off + old_len + 1)) ++ junk.
Proof.
  intros Hrepl Hlen Hcap Hnew Hterm old_len new_len M.
  unfold uevent_replace_member in Hrepl.
  destruct (guard _) eqn:Hguard; [|discriminate].
  unfold guard in Hguard.
  destruct ((0 <? off)%nat && (Z.of_nat off <? msg_len u)) eqn:Hg; [|discriminate].
  apply andb_true_iff in Hg. destruct Hg as [Hoff0 HoffM].
  apply Nat.ltb_lt in Hoff0. apply Z.ltb_lt in HoffM.
  assert (Hin : (off + old_len <= M - 1)%nat).
  { apply strlen_at_le_nul; [lia|assumption]. }
  fold old_len new_len in Hrepl.
  rewrite wrap_int_small in Hrepl by lia.
  rewrite (wrap_size_t_small (msg_len u + _)) in Hrepl by lia.
  rewrite (wrap_size_t_small (msg_len u - _)) in Hrepl by lia.
  destruct (read_at (raw u) 0 (Z.of_nat NLH_SIZE)) as [hdr|]; [|discriminate].
  destruct (write_at (raw newevent) 0 hdr) as [b1|]; [|discriminate].
  destruct (write_at b1 OFF_PROPERTIES_LEN _) as [b2|]; [|discriminate].
  destruct (read_at (raw u) 0 (Z.of_nat off)) as [head|] eqn:Hhead; [|discriminate].
  destruct (write_at b2 0 head) as [b3|] eqn:Hb3; [|discriminate].
  destruct (write_at b3 off _) as [b4|] eqn:Hb4; [|discriminate].
  destruct (read_at (raw u) (off + old_len + 1) _) as [rest|] eqn:Hrest;
    [|discriminate].
  destruct (write_at b4 (off + new_len + 1) rest) as [b5|] eqn:Hb5;
    [|discriminate].
  destruct (uevent_parse_total
              (set_msg_len (msg_len u + (Z.of_nat new_len - Z.of_nat old_len))
                 (set_raw b5 newevent)) 0) as [v [Hv [Hraw Hmsg]]].
  rewrite Hv in Hrepl. injection Hrepl as <-.
  apply read_at_some in Hhead. destruct Hhead as [_ [Hh1 [Hh2 Hh3]]].
  apply read_at_some in Hrest. destruct Hrest as [_ [Hr1 [Hr2 Hr3]]].
  apply write_at_some in Hb3. destruct Hb3 as [_ [Hb3 _]].
  apply write_at_some in Hb4. destruct Hb4 as [_ [Hb4 _]].
  apply write_at_some in Hb5. destruct Hb5 as [_ [Hb5 _]].
  rewrite Nat2Z.id in *. unfold slice in Hh2. simpl skipn in Hh2.
  repeat split; try lia.
  - rewrite Hmsg. simpl. lia.
  - rewrite Hraw. simpl raw.
    exists (skipn (off + new_len + 1 + length rest) b4).
    rewrite Hb5.
    assert (Hfirst : firstn (off + new_len + 1) b4
                     = firstn off (raw u) ++ cstr newmember ++ [NUL]).
    { unfold new_len. rewrite Hb4. rewrite Hb3. simpl firstn at 2. simpl app at 3.
      rewrite (firstn_app_exact head _ off) by assumption.
      rewrite app_assoc.
      rewrite firstn_app_exact; [now rewrite Hh2|].
      rewrite !length_app. simpl. lia. }
    rewrite Hfirst. rewrite <- !app_assoc. simpl.
    do 3 f_equal. rewrite Hr2. f_equal. f_equal. lia.
Qed.

(** *** Members and keys *)

Lemma key_of_inj (f g : member) : key_of g = key_of f -> g = f.
Proof. destruct f, g; simpl; intros H; try reflexivity; discriminate. Qed.

Lemma key_prefix_pos (k : key) : (0 < length (key_prefix k))%nat.
Proof. destruct k; simpl; lia. Qed.

Lemma get_apply_same (f : member) (p : nat) (u : uevent) :
  get f (apply_key (key_of f) p u) = InRaw p.
Proof. destruct f; reflexivity. Qed.

Lemma get_apply_other (g : member) (k : key) (p : nat) (u : uevent) :
  k <> key_of g -> get g (apply_key k p u) = get g u.
Proof.
  destruct g, k; simpl; intros H;
    try reflexivity; try (destruct (sscanf_hx _); reflexivity);
    contradiction H; reflexivity.
Qed.

Lemma numbers_apply_member (f : member) (p p' : nat) (u u' : uevent) :
  same_numbers u u' ->
  same_numbers (apply_key (key_of f) p u) (apply_key (key_of f) p' u').
Proof. destruct f; simpl; trivial. Qed.

Lemma numbers_apply_key (k : key) (q q' : nat) (u u' : uevent) :
  same_numbers u u' ->
  cstr_at (raw u') q' = cstr_at (raw u) q ->
  same_numbers (apply_key k q u) (apply_key k q' u').
Proof.
  unfold same_numbers. intros (H1 & H2 & H3 & H4) Heq.
  destruct k; simpl; rewrite ?Heq; try (destruct (sscanf_hx _)); simpl;
    repeat split; assumption.
Qed.

Lemma shift_low (off ol nl p : nat) : (p <= off)%nat -> shift off ol nl p = p.
Proof. intros H. unfold shift. destruct (Nat.leb_spec p off); [reflexivity|lia]. Qed.

Lemma shift_high (off ol nl p : nat) :
  (off < p)%nat -> shift off ol nl p = (p + nl - ol)%nat.
Proof. intros H. unfold shift. destruct (Nat.leb_spec p off); [lia|reflexivity]. Qed.

Lemma cstr_at_prefix (T T' : list ascii) : forall k p p',
  (k <= strlen_at T p)%nat ->
  (forall i, (i < k)%nat -> byte_at T' (p' + i) = byte_at T (p + i)) ->
  cstr_at T' p' = firstn k (cstr_at T p) ++ cstr_at T' (p' + k).
Proof.
  induction k as [|k IH]; intros p p' Hk Hbytes.
  - now rewrite Nat.add_0_r.
  - destruct (is_nul (byte_at T p)) eqn:E.
    + apply strlen_at_zero in E. lia.
    + pose proof (Hbytes O (Nat.lt_0_succ _)) as H0. rewrite !Nat.add_0_r in H0.
      rewrite (cstr_at_unfold T p), (cstr_at_unfold T' p'), H0, E. simpl. f_equal.
      replace (p' + S k)%nat with (S p' + k)%nat by lia.
      apply IH.
      * rewrite (strlen_at_succ T p E) in Hk. lia.
      * intros i Hi. specialize (Hbytes (S i)).
        replace (p' + S i)%nat with (S p' + i)%nat in Hbytes by lia.
        replace (p + S i)%nat with (S p + i)%nat in Hbytes by lia.
        apply Hbytes. lia.
Qed.

(** *** Parsing the rewritten frame follows parsing the frame *)

Section Rewritten.

Variables T T' junk newmember : list ascii.
Variables M off start t0 : nat.
Variable f : member.

Local Abbreviation old_len := (strlen_at T off).
Local Abbreviation new_len := (length newmember).
Local Abbreviation t_end := (off + strlen_at T off + 1)%nat.
Local Abbreviation M' := (M + length newmember - strlen_at T off)%nat.
Local Abbreviation sh := (shift off (strlen_at T off) (length newmember)).
Local Abbreviation rel := (view_rel T T' M M' off (strlen_at T off) (length newmember) f).

Hypothesis Hnew : no_nul newmember = true.
Hypothesis Hshape :
  T' = firstn off T ++ newmember ++ NUL :: slice T t_end (M - t_end) ++ junk.
Hypothesis HM : (t_end <= M <= length T)%nat.
Hypothesis Hterm : byte_at T (M - 1) = NUL.
Hypothesis Ht0 : entry_start T start t0.
Hypothesis Hkey : classify (cstr_at T t0) = Some (key_of f).
Hypothesis Hoff : off = (t0 + length (key_prefix (key_of f)))%nat.

Lemma length_head : length (firstn off T) = off.
Proof. rewrite length_firstn. lia. Qed.

Lemma bytes_before (i : nat) : (i < off)%nat -> byte_at T' i = byte_at T i.
Proof.
  intros Hi. unfold byte_at. rewrite Hshape.
  rewrite app_nth1 by (rewrite length_head; lia).
  rewrite nth_firstn. destruct (Nat.ltb_spec i off); [reflexivity|lia].
Qed.

Lemma string_at_off : cstr_at T' off = newmember.
Proof.
  unfold cstr_at. rewrite Hshape, (skipn_app_exact _ _ off length_head).
  now apply cstr_app_nul.
Qed.

Lemma bytes_after (i : nat) :
  (t_end <= i < M)%nat -> byte_at T' (i + new_len - old_len) = byte_at T i.
Proof.
  intros Hi. unfold byte_at. rewrite Hshape.
  rewrite app_nth2 by (rewrite length_head; lia). rewrite length_head.
  rewrite app_nth2 by lia.
  replace (i + new_len - old_len - off - new_len)%nat with (S (i - t_end)) by lia.
  cbn [nth].
  assert (Hslice : length (slice T t_end (M - t_end)) = (M - t_end)%nat).
  { unfold slice. rewrite length_firstn, length_skipn. lia. }
  rewrite app_nth1 by lia.
  unfold slice. rewrite nth_firstn.
  destruct (Nat.ltb_spec (i - t_end) (M - t_end)); [|lia].
  rewrite nth_skipn. f_equal. lia.
Qed.

Lemma t0_before_off : (t0 < off)%nat.
Proof. pose proof (key_prefix_pos (key_of f)). lia. Qed.

Lemma strlen_at_t0 :
  strlen_at T t0 = (length (key_prefix (key_of f)) + old_len)%nat.
Proof.
  pose proof (strlen_at_plus T (length (key_prefix (key_of f))) t0) as H.
  rewrite <- Hoff in H.
  assert (length (key_prefix (key_of f)) <= strlen_at T t0)%nat
    by (apply key_prefix_length; exact Hkey).
  lia.
Qed.

(** The entry of the rewritten member, in the rewritten frame. *)
Lemma entry_at_t0 : cstr_at T' t0 = key_prefix (key_of f) ++ newmember.
Proof.
  rewrite (cstr_at_prefix T T' (length (key_prefix (key_of f))) t0 t0).
  - rewrite <- Hoff, string_at_off. f_equal.
    rewrite (classify_prefix _ _ Hkey). now apply firstn_app_exact.
  - apply key_prefix_length. exact Hkey.
  - intros i Hi. apply bytes_before. lia.
Qed.

(** An entry in front of the rewritten one. *)
Lemma entry_before (p : nat) :
  (start <= p < t0)%nat ->
  (p + strlen_at T p + 1 <= t0)%nat /\ cstr_at T' p = cstr_at T p.
Proof.
  intros Hp. destruct Ht0 as [_ [Heq|Hnul]]; [lia|].
  assert (Hend : (p + strlen_at T p <= t0 - 1)%nat)
    by (apply strlen_at_le_nul; [lia|assumption]).
  split; [lia|].
  apply (cstr_at_ext T T' (strlen_at T p)); [reflexivity|].
  intros i Hi. apply bytes_before. pose proof t0_before_off. lia.
Qed.

(** An entry behind the rewritten one. *)
Lemma entry_after (p : nat) :
  (t_end <= p < M)%nat ->
  (p + strlen_at T p + 1 <= M)%nat
  /\ cstr_at T' (p + new_len - old_len) = cstr_at T p.
Proof.
  intros Hp.
  assert (Hend : (p + strlen_at T p <= M - 1)%nat)
    by (apply strlen_at_le_nul; [lia|assumption]).
  split; [lia|].
  apply (cstr_at_ext T T' (strlen_at T p)); [reflexivity|].
  intros i Hi.
  replace (p + new_len - old_len + i)%nat with (p + i + new_len - old_len)%nat by lia.
  apply bytes_after. lia.
Qed.

(** One entry keeps the two views related, when both frames have the same
    key there and the value of the entry is where the shift says. *)
Lemma view_rel_entry (u u' : uevent) (p p' : nat) :
  rel u u' ->
  classify (cstr_at T' p') = classify (cstr_at T p) ->
  (forall k, classify (cstr_at T p) = Some k ->
             (p' + length (key_prefix k))%nat = sh (p + length (key_prefix k))
             /\ ((k = key_of f /\ (p + length (key_prefix k))%nat = off)
                 \/ cstr_at T' (p' + length (key_prefix k))
                    = cstr_at T (p + length (key_prefix k)))) ->
  rel (entry_effect u p) (entry_effect u' p').
Proof.
  intros Hrel Hclass Hval.
  pose proof Hrel as (HT & HT' & Hm & Hm' & Hnum & Hptr).
  unfold entry_effect. rewrite HT, HT', Hclass.
  destruct (classify (cstr_at T p)) as [k|]; [|exact Hrel].
  destruct (Hval k eq_refl) as [Hq Hd].
  destruct (apply_key_raw k (p + length (key_prefix k)) u) as [Hr1 Hr2].
  destruct (apply_key_raw k (p' + length (key_prefix k)) u') as [Hr1' Hr2'].
  split; [congruence|]. split; [congruence|].
  split; [congruence|]. split; [congruence|]. split.
  - destruct Hd as [[-> _]|Heq].
    + now apply numbers_apply_member.
    + apply numbers_apply_key; [assumption|]. now rewrite HT, HT'.
  - intros g. destruct (key_eq_dec k (key_of g)) as [->|Hne].
    + rewrite !get_apply_same. cbn [ptr_rel]. split; [assumption|].
      destruct Hd as [[Hk Ho]|Heq]; [left|right; assumption].
      split; [now apply key_of_inj|assumption].
    + rewrite !get_apply_other by assumption. apply Hptr.
Qed.

Lemma parse_sim : forall fuel u u' p v,
  rel u u' ->
  (start <= p < M)%nat ->
  (p <= t0 \/ t_end <= p)%nat ->
  parse_loop fuel u p = Some v ->
  exists v', parse_loop fuel u' (sh p) = Some v' /\ rel v v'.
Proof.
  pose proof t0_before_off as Ht0off.
  induction fuel as [|fuel IH]; intros u u' p v Hrel Hp Hcase H; [discriminate|].
  rewrite parse_loop_step in H. rewrite parse_loop_step.
  pose proof Hrel as (HT & HT' & Hm & Hm' & _).
  rewrite HT, Hm in H. rewrite HT', Hm'.
  assert (Hp3 : (p < t0 \/ p = t0 \/ t_end <= p)%nat) by lia.
  destruct Hp3 as [Hlt|[->|Hge]].
  - (* an entry in front of the rewritten one *)
    destruct (entry_before p) as [Hnext Htok]; [lia|].
    rewrite shift_low by lia.
    rewrite (bytes_before p) by lia.
    destruct (is_nul (byte_at T p)); [injection H as <-; eauto|].
    assert (Hlen : strlen_at T' p = strlen_at T p)
      by exact (f_equal (@length ascii) Htok).
    rewrite Hlen.
    assert (Hrel' : rel (entry_effect u p) (entry_effect u' p)).
    { apply view_rel_entry; [assumption|now rewrite Htok|].
      intros k Hk. pose proof (key_prefix_length _ _ Hk) as Hkl.
      fold (strlen_at T p) in Hkl.
      split; [rewrite shift_low; lia|]. right.
      rewrite !cstr_at_plus by (rewrite ?Hlen; assumption).
      now rewrite Htok. }
    destruct (Z.leb_spec (Z.of_nat M) (Z.of_nat (p + strlen_at T p + 1))); [lia|].
    destruct (Z.leb_spec (Z.of_nat M') (Z.of_nat (p + strlen_at T p + 1))); [lia|].
    destruct (IH _ _ (p + strlen_at T p + 1)%nat v Hrel') as [v' [Hv' Hrv]];
      [lia|lia|exact H|].
    rewrite shift_low in Hv' by lia. eauto.
  - (* the rewritten entry *)
    rewrite shift_low by lia.
    rewrite (bytes_before t0) by lia.
    destruct (is_nul (byte_at T t0)); [injection H as <-; eauto|].
    rewrite strlen_at_t0 in H.
    assert (Hlen : strlen_at T' t0
                   = (length (key_prefix (key_of f)) + new_len)%nat)
      by (unfold strlen_at; rewrite entry_at_t0; apply length_app).
    rewrite Hlen.
    assert (Hrel' : rel (entry_effect u t0) (entry_effect u' t0)).
    { apply view_rel_entry; [assumption| |].
      - rewrite entry_at_t0, Hkey. apply classify_of_prefix.
      - intros k Hk. rewrite Hkey in Hk. injection Hk as <-.
        rewrite <- Hoff. split; [now rewrite shift_low|].
        left. split; reflexivity. }
    destruct (Z.leb_spec (Z.of_nat M)
                (Z.of_nat (t0 + (length (key_prefix (key_of f)) + old_len) + 1)));
      destruct (Z.leb_spec (Z.of_nat M')
                  (Z.of_nat (t0 + (length (key_prefix (key_of f)) + new_len) + 1)));
      try lia.
    + injection H as <-. eauto.
    + destruct (IH _ _ (t0 + (length (key_prefix (key_of f)) + old_len) + 1)%nat
                    v Hrel') as [v' [Hv' Hrv]]; [lia|lia|exact H|].
      rewrite shift_high in Hv' by lia.
      replace (t0 + (length (key_prefix (key_of f)) + new_len) + 1)%nat
        with (t0 + (length (key_prefix (key_of f)) + old_len) + 1
              + new_len - old_len)%nat by lia.
      eauto.
  - (* an entry behind the rewritten one *)
    destruct (entry_after p) as [Hnext Htok]; [lia|].
    rewrite shift_high by lia.
    rewrite (bytes_after p) by lia.
    destruct (is_nul (byte_at T p)); [injection H as <-; eauto|].
    assert (Hlen : strlen_at T' (p + new_len - old_len) = strlen_at T p)
      by exact (f_equal (@length ascii) Htok).
    rewrite Hlen.
    assert (Hrel' : rel (entry_effect u p)
                      (entry_effect u' (p + new_len - old_len))).
    { apply view_rel_entry; [assumption|now rewrite Htok|].
      intros k Hk. pose proof (key_prefix_length _ _ Hk) as Hkl.
      fold (strlen_at T p) in Hkl.
      split; [rewrite shift_high; lia|]. right.
      rewrite !cstr_at_plus by (rewrite ?Hlen; assumption).
      now rewrite Htok. }
    destruct (Z.leb_spec (Z.of_nat M) (Z.of_nat (p + strlen_at T p + 1)));
      destruct (Z.leb_spec (Z.of_nat M')
                  (Z.of_nat (p + new_len - old_len + strlen_at T p + 1)));
      try lia.
    + injection H as <-. eauto.
    + destruct (IH _ _ (p + strlen_at T p + 1)%nat v Hrel') as [v' [Hv' Hrv]];
        [lia|lia|exact H|].
      rewrite shift_high in Hv' by lia.
      replace (p + new_len - old_len + strlen_at T p + 1)%nat
        with (p + strlen_at T p + 1 + new_len - old_len)%nat by lia.
      eauto.
Qed.

End Rewritten.

Lemma parse_loop_fuel_irrelevant (f1 f2 : nat) (u v1 v2 : uevent) (p : nat) :
  parse_loop f1 u p = Some v1 -> parse_loop f2 u p = Some v2 -> v1 = v2.
Proof.
  intros H1 H2. destruct (Nat.le_ge_cases f1 f2) as [Hle|Hle].
  - apply (parse_loop_more_fuel _ _ _ _ _ H1) in Hle. congruence.
  - apply (parse_loop_more_fuel _ _ _ _ _ H2) in Hle. congruence.
Qed.

Lemma get_parse_defaults (f : member) (u : uevent) :
  get f (parse_defaults u) = EmptyLit.
Proof. destruct f; reflexivity. Qed.

(** A member that points into the frame was set by an entry with its key,
    and points behind the prefix of that entry. *)
Lemma member_origin (f : member) (u v : uevent) (start off : nat) :
  uevent_parse u start = Some v ->
  get f v = InRaw off ->
  exists t0, entry_start (raw u) start t0
             /\ classify (cstr_at (raw u) t0) = Some (key_of f)
             /\ off = (t0 + length (key_prefix (key_of f)))%nat.
Proof.
  intros Hparse Hf. rewrite uevent_parse_eq in Hparse.
  apply (parse_loop_origin (get f) (key_of f) (fun _ q a => a = InRaw q)) in Hparse.
  - change (raw (parse_defaults u)) with (raw u) in Hparse.
    destruct Hparse as [Hsame|[t0 [Hst [Hk Hv]]]].
    + rewrite get_parse_defaults in Hsame. congruence.
    + exists t0. split; [exact Hst|]. split; [exact Hk|].
      rewrite Hf in Hv. injection Hv as Hv. exact Hv.
  - intros k' p u1 Hne. apply get_apply_other. exact Hne.
  - intros p u1. right. apply get_apply_same.
Qed.

(** C3: let a frame be parsed from [start], let a string member of the
    view point into the frame, and let [uevent_replace_member] replace that
    member by [new].  Parsing the frame it returns from the same [start]
    gives a view in which that member is [new], every other string member
    that the parser resets (action, devpath, subsystem, devname, devtype,
    product, id_serial_short, interface, synth_uuid) is the string it was,
    and major, minor, id_vendor_id and id_model_id are the numbers they
    were.  The frame is one that lies in its buffer and ends with a
    terminator; [new] is a C string. *)
Theorem rewrite_then_parse
        (order : byte_order) (newevent u v F' : uevent) (start off : nat)
        (f : member) (new : list ascii)
        (Hlen : 0 <= msg_len u <= Z.of_nat (length (raw u)))
        (Hcap : Z.of_nat (length (raw u)) < 2 ^ 31)
        (Hterm : byte_at (raw u) (Z.to_nat (msg_len u) - 1) = NUL)
        (Hnew : no_nul new = true)
        (Hnewlen : Z.of_nat (length new) < 2 ^ 31)
        (Hparse : uevent_parse u start = Some v)
        (Hf : get f v = InRaw off)
        (Hrepl : uevent_replace_member order newevent v (get f v) new = Some F') :
  exists v',
    uevent_parse F' start = Some v'
    /\ value f v' = Some new
    /\ (forall g, g <> f -> value g v' = value g v)
    /\ same_numbers v v'.
Proof.
  destruct (member_origin f u v start off Hparse Hf) as [t0 [Hst [Hkey Hoff]]].
  pose proof Hparse as Hloop. rewrite uevent_parse_eq in Hloop.
  destruct (parse_loop_raw _ _ _ _ Hloop) as [Hraw Hmsg]. simpl in Hraw, Hmsg.
  rewrite Hf in Hrepl.
  pose proof (cstr_id new Hnew) as Hcstr.
  apply replace_member_shape in Hrepl;
    rewrite ?Hraw, ?Hmsg, ?Hcstr; try assumption.
  rewrite Hraw, Hmsg, Hcstr in Hrepl.
  destruct Hrepl as (Hoff0 & Hend & HmsgF & junk & HrawF).
  set (T := raw u) in *. set (M := Z.to_nat (msg_len u)) in *.
  assert (HM : (off + strlen_at T off + 1 <= M <= length T)%nat) by lia.
  assert (Hrel0 : view_rel T (raw F') M (M + length new - strlen_at T off) off
                    (strlen_at T off) (length new) f
                    (parse_defaults u) (parse_defaults F')).
  { repeat split; try assumption; try reflexivity.
    - simpl. lia.
    - intros g. rewrite !get_parse_defaults. exact I. }
  assert (Hlow : (start <= t0 < off)%nat).
  { destruct Hst as [Hst _]. pose proof (key_prefix_pos (key_of f)). lia. }
  destruct (parse_sim T (raw F') junk new M off start t0 f Hnew HrawF HM Hterm
              Hst Hkey Hoff (S (length T)) (parse_defaults u)
              (parse_defaults F') start v Hrel0) as [v' [Hv' Hrel]];
    [lia|lia|exact Hloop|].
  rewrite shift_low in Hv' by lia.
  destruct (uevent_parse_total F' start) as [v'' [Hv'' _]].
  pose proof Hv'' as Heq. rewrite uevent_parse_eq in Heq.
  rewrite (parse_loop_fuel_irrelevant _ _ _ _ _ _ Heq Hv') in Hv''.
  exists v'. split; [assumption|].
  destruct Hrel as (HT & HT' & _ & _ & Hnum & Hptr).
  split; [|split; [|exact Hnum]].
  - specialize (Hptr f). rewrite Hf in Hptr. unfold value.
    destruct (get f v') as [| |p']; try contradiction.
    destruct Hptr as [-> _]. rewrite shift_low by lia.
    simpl. rewrite HT'.
    now rewrite (string_at_off T (raw F') junk new M off t0 f Hnew HrawF HM Hoff).
  - intros g Hg. specialize (Hptr g). unfold value.
    destruct (get g v) as [| |p], (get g v') as [| |p']; try contradiction;
      try reflexivity.
    destruct Hptr as [_ [[Hgf _]|Hstr]]; [contradiction|].
    simpl. now rewrite HT, HT', Hstr.
Qed.

Lemma rewrite_then_parse_witness :
  exists v',
    uevent_parse Scenario.eth5_renamed Scenario.eth5_start = Some v'
    /\ value MInterface v' = Some (lit "cmleth0")
    /\ (forall g, g <> MInterface -> value g v' = value g Scenario.eth5_event)
    /\ same_numbers Scenario.eth5_event v'.
Proof.
  apply (rewrite_then_parse LittleEndian uevent_zero
           (Scenario.received Scenario.eth5_add_msg) Scenario.eth5_event
           Scenario.eth5_renamed Scenario.eth5_start
           Scenario.eth5_interface_off MInterface (lit "cmleth0")).
  - vm_compute. split; discriminate.
  - vm_compute. reflexivity.
  - vm_compute. reflexivity.
  - vm_compute. reflexivity.
  - vm_compute. reflexivity.
  - vm_compute. reflexivity.
  - vm_compute. reflexivity.
  - vm_compute. reflexivity.
Defined.

(** *** Members without an entry *)

Section Absent.

Variables (u v : uevent) (start : nat).
Hypothesis Hparse : uevent_parse u start = Some v.

Local Abbreviation absent := (View.absent (raw u) start).

Lemma untouched {A : Type} (proj : uevent -> A) (k : key) :
  (forall k' p w, k' <> k -> proj (apply_key k' p w) = proj w) ->
  absent k -> proj v = proj (parse_defaults u).
Proof.
  intros Hother Habs. pose proof Hparse as Hloop.
  rewrite uevent_parse_eq in Hloop.
  apply (parse_loop_origin proj k (fun _ _ _ => True) Hother) in Hloop.
  - change (raw (parse_defaults u)) with (raw u) in Hloop.
    destruct Hloop as [Hsame|[t [Hst [Hk _]]]]; [exact Hsame|].
    exfalso. exact (Habs t Hst Hk).
  - intros p w. right. exact I.
Qed.

(** A string member without an entry is the empty string. *)
Lemma absent_member_empty (f : member) :
  absent (key_of f) -> get f v = EmptyLit /\ value f v = Some [].
Proof.
  intros Habs.
  assert (H : get f v = EmptyLit).
  { rewrite (untouched (get f) (key_of f)); [apply get_parse_defaults| |exact Habs].
    intros k' p w Hne. apply get_apply_other. exact Hne. }
  split; [exact H|]. unfold value. rewrite H. reflexivity.
Qed.

(** [major] and [minor] without an entry are -1, the two ids are 0. *)
Lemma absent_numbers :
  (absent KMajor -> major v = -1)
  /\ (absent KMinor -> minor v = -1)
  /\ (absent KIdVendorId -> id_vendor_id v = 0)
  /\ (absent KIdModelId -> id_model_id v = 0).
Proof.
  repeat split; intros Habs.
  - rewrite (untouched major KMajor); [reflexivity| |exact Habs].
    intros k' p w Hne. destruct k'; simpl; try reflexivity;
      try (destruct (sscanf_hx _); reflexivity); contradiction Hne; reflexivity.
  - rewrite (untouched minor KMinor); [reflexivity| |exact Habs].
    intros k' p w Hne. destruct k'; simpl; try reflexivity;
      try (destruct (sscanf_hx _); reflexivity); contradiction Hne; reflexivity.
  - rewrite (untouched id_vendor_id KIdVendorId); [reflexivity| |exact Habs].
    intros k' p w Hne. destruct k'; simpl; try reflexivity;
      try (destruct (sscanf_hx _); reflexivity); contradiction Hne; reflexivity.
  - rewrite (untouched id_model_id KIdModelId); [reflexivity| |exact Habs].
    intros k' p w Hne. destruct k'; simpl; try reflexivity;
      try (destruct (sscanf_hx _); reflexivity); contradiction Hne; reflexivity.
Qed.

(** [driver] without an entry is what it was before the call: the parser
    does not reset it. *)
Lemma absent_driver_kept : absent KDriver -> driver v = driver u.
Proof.
  intros Habs.
  rewrite (untouched driver KDriver); [reflexivity| |exact Habs].
  intros k' p w Hne. destruct k'; simpl; try reflexivity;
    try (destruct (sscanf_hx _); reflexivity); contradiction Hne; reflexivity.
Qed.

End Absent.

(** C5 (the code at the failing input): the USB add event carries no
    DRIVER entry, and after [uevent_parse] on the zeroed struct of
    [uevent_handle] its [driver] member is NULL, not the empty string;
    the members the parser resets are empty or -1 or 0 as claimed. *)
Theorem parse_leaves_driver_unset :
  exists v,
    uevent_parse (Scenario.received Scenario.usb_add_msg)
      (strlen_at Scenario.usb_add_msg 0 + 1) = Some v
    /\ driver v = NullPtr
    /\ str_of v (driver v) <> Some []
    /\ value MInterface v = Some []
    /\ value MSynthUuid v = Some []
    /\ value MIdSerialShort v = Some []
    /\ id_vendor_id v = 0 /\ id_model_id v = 0.
Proof.
  eexists. split; [vm_compute; reflexivity|].
  split; [reflexivity|]. split; [discriminate|].
  repeat split.
Qed.

(** *** The header of the rewritten frame *)

Lemma slice_firstn (raw : list ascii) (m o n : nat) :
  (o + n <= m)%nat -> slice (firstn m raw) o n = slice raw o n.
Proof.
  intros H. unfold slice.
  rewrite skipn_firstn_comm, firstn_firstn.
  f_equal. lia.
Qed.

Lemma nlh_field_header (order : byte_order) (o : nat) (raw raw' : list ascii) :
  (o + 4 <= NLH_SIZE)%nat ->
  firstn NLH_SIZE raw' = firstn NLH_SIZE raw ->
  nlh_field order o raw' = nlh_field order o raw.
Proof.
  intros Ho Hhdr. unfold nlh_field.
  rewrite <- (slice_firstn raw' NLH_SIZE o 4 Ho).
  rewrite <- (slice_firstn raw NLH_SIZE o 4 Ho).
  now rewrite Hhdr.
Qed.

(** When the replaced member lies behind the header, as the properties of
    a udev frame do, the frame [uevent_replace_member] returns has the
    length of the message adjusted, and its first 40 bytes are those of the
    original frame: the copy of the bytes in front of the member runs over
    the header again, after [properties_len] was stored.  So every header
    field, [properties_len] included, is the one of the original frame. *)
Lemma replace_member_header (order : byte_order) (newevent u F' : uevent)
      (off : nat) (newmember : list ascii) :
  uevent_replace_member order newevent u (InRaw off) newmember = Some F' ->
  0 <= msg_len u <= Z.of_nat (length (raw u)) ->
  Z.of_nat (length (raw u)) < 2 ^ 31 ->
  Z.of_nat (length (cstr newmember)) < 2 ^ 31 ->
  byte_at (raw u) (Z.to_nat (msg_len u) - 1) = NUL ->
  (NLH_SIZE <= off)%nat ->
  msg_len F' = msg_len u + Z.of_nat (length (cstr newmember))
               - Z.of_nat (strlen_at (raw u) off)
  /\ firstn NLH_SIZE (raw F') = firstn NLH_SIZE (raw u)
  /\ nlh_properties_len order (raw F') = nlh_properties_len order (raw u).
Proof.
  intros Hrepl Hlen Hcap Hnew Hterm Hoff.
  destruct (replace_member_shape _ _ _ _ _ _ Hrepl Hlen Hcap Hnew Hterm)
    as (_ & Hend & Hmsg & junk & Hraw).
  assert (Hhdr : firstn NLH_SIZE (raw F') = firstn NLH_SIZE (raw u)).
  { rewrite Hraw. rewrite firstn_app.
    assert (Hl : length (firstn off (raw u)) = off)
      by (rewrite length_firstn; lia).
    rewrite Hl. replace (NLH_SIZE - off)%nat with O by lia.
    rewrite firstn_firstn. simpl firstn at 2. rewrite app_nil_r.
    f_equal. lia. }
  split; [rewrite Hmsg; lia|]. split; [exact Hhdr|].
  apply nlh_field_header; [unfold OFF_PROPERTIES_LEN, NLH_SIZE; lia|exact Hhdr].
Qed.

(** C2 (the code at the failing input): replacing eth5 by cmleth0 in the
    INTERFACE property makes the message three bytes longer and leaves
    every header field as it was, also [properties_len].  For a udev frame
    it is 40 before and 40 after, not 43; for the kernel frame that
    [uevent_rename_interface] rewrites, the four bytes at the place of
    [properties_len] are the same before and after. *)
Theorem replace_member_keeps_properties_len :
  (exists v F',
      uevent_parse (Scenario.received Scenario.udev_net_msg) 40 = Some v
      /\ value MInterface v = Some (lit "eth5")
      /\ uevent_replace_member LittleEndian uevent_zero v (interface v)
           (lit "cmleth0") = Some F'
      /\ msg_len F' = msg_len v + 7 - 4
      /\ firstn NLH_SIZE (raw F') = firstn NLH_SIZE (raw v)
      /\ nlh_properties_len LittleEndian (raw v) = 40
      /\ nlh_properties_len LittleEndian (raw F') = 40)
  /\
  (uevent_replace_member LittleEndian uevent_zero Scenario.eth5_event
     (interface Scenario.eth5_event) (lit "cmleth0")
   = Some Scenario.eth5_renamed
   /\ msg_len Scenario.eth5_renamed = msg_len Scenario.eth5_event + 7 - 4
   /\ nlh_properties_len LittleEndian (raw Scenario.eth5_renamed)
      = nlh_properties_len LittleEndian (raw Scenario.eth5_event)).
Proof.
  split.
  - eexists. eexists.
    split; [vm_compute; reflexivity|].
    split; [vm_compute; reflexivity|].
    split; [vm_compute; reflexivity|].
    split; [vm_compute; reflexivity|].
    split; [vm_compute; reflexivity|].
    split; vm_compute; reflexivity.
  - split; [vm_compute; reflexivity|].
    split; vm_compute; reflexivity.
Qed.

End CodecFacts.

(** ** The routing tables *)

Module TableFacts.
Import CStr Ext Tables.

Lemma ascii_eqb_refl (c : ascii) : Ascii.eqb c c = true.
Proof. apply Ascii.eqb_eq. reflexivity. Qed.

Lemma strcmp_eq_refl (s : list ascii) : strcmp_eq s s = true.
Proof.
  induction s as [|c s IH]; simpl; [reflexivity|].
  now rewrite ascii_eqb_refl, IH.
Qed.

Lemma memcmp_eq_refl (n : nat) : forall m : list Z,
  (n <= length m)%nat -> memcmp_eq m m n = true.
Proof.
  induction n as [|n IH]; intros m Hlen; simpl; [reflexivity|].
  destruct m as [|x m]; simpl in Hlen; [lia|].
  rewrite Z.eqb_refl, IH by lia. reflexivity.
Qed.

Section Lists.

Context {A : Type}.
Variable ptr : A -> nat.
Variable test : A -> bool.

Lemma last_match_from (l : list A) : forall acc,
  fold_left (fun found m => if test m then Some m else found) l acc
  = match last_match test l with Some m => Some m | None => acc end.
Proof.
  unfold last_match.
  induction l as [|x l IH]; intros acc; simpl; [reflexivity|].
  rewrite IH. rewrite (IH (if test x then Some x else None)).
  destruct (fold_left _ l None); [reflexivity|].
  destruct (test x); reflexivity.
Qed.

Lemma last_match_none (l : list A) :
  (forall x, In x l -> test x = false) -> last_match test l = None.
Proof.
  induction l as [|x l IH]; intros Hl; [reflexivity|].
  unfold last_match; simpl. rewrite last_match_from.
  rewrite IH by (intros y Hy; apply Hl; now right).
  rewrite (Hl x) by now left. reflexivity.
Qed.

(** The loop ends with the last matching cell in [mapping_to_remove]. *)
Lemma last_match_split (l1 l2 : list A) (m : A) :
  test m = true ->
  (forall x, In x l2 -> test x = false) ->
  last_match test (l1 ++ m :: l2) = Some m.
Proof.
  intros Hm Hl2. unfold last_match.
  rewrite fold_left_app. simpl. rewrite Hm.
  rewrite last_match_from, last_match_none by assumption. reflexivity.
Qed.

Lemma last_match_tail (l : list A) (m : A) :
  test m = true -> last_match test (list_append l m) = Some m.
Proof.
  intros Hm. apply (last_match_split l [] m Hm). intros x [].
Qed.

(** With pairwise distinct addresses, [list_remove] unlinks exactly the
    cell it is given. *)
Lemma list_remove_split (l1 l2 : list A) (m : A) :
  NoDup (map ptr (l1 ++ m :: l2)) ->
  list_remove ptr (l1 ++ m :: l2) (ptr m) = l1 ++ l2.
Proof.
  induction l1 as [|x l1 IH]; intros Hnd; simpl.
  - now rewrite Nat.eqb_refl.
  - simpl in Hnd. inversion Hnd as [|? ? Hnotin Hnd']; subst.
    destruct (Nat.eqb (ptr x) (ptr m)) eqn:E.
    + apply Nat.eqb_eq in E. exfalso. apply Hnotin. rewrite E.
      rewrite map_app. apply in_or_app. right. now left.
    + now rewrite IH.
Qed.

Lemma list_remove_fresh_tail (l : list A) (m : A) :
  (forall x, In x l -> ptr x <> ptr m) ->
  list_remove ptr (list_append l m) (ptr m) = l.
Proof.
  unfold list_append.
  induction l as [|x l IH]; intros Hfresh; simpl.
  - now rewrite Nat.eqb_refl.
  - destruct (Nat.eqb (ptr x) (ptr m)) eqn:E.
    + apply Nat.eqb_eq in E. exfalso. apply (Hfresh x); [now left|assumption].
    + rewrite IH; [reflexivity|]. intros y Hy. apply Hfresh. now right.
Qed.

End Lists.

Lemma list_max_ge (l : list nat) (x : nat) : In x l -> (x <= list_max l)%nat.
Proof.
  intros Hin. pose proof (proj1 (list_max_le l (list_max l)) (Nat.le_refl _)) as Hall.
  rewrite Forall_forall in Hall. now apply Hall.
Qed.

(** [mem_new0] returns an address that no cell of either table holds. *)
Lemma mem_new0_fresh_dev (g : globals) (x : dev_mapping) :
  In x (uevent_container_dev_mapping_list g) -> addr x <> mem_new0 g.
Proof.
  intros Hin. unfold mem_new0, live.
  assert (addr x <= list_max (map addr (uevent_container_dev_mapping_list g)
                        ++ map n_addr (uevent_container_netdev_mapping_list g)))%nat.
  { apply list_max_ge. apply in_or_app. left. now apply in_map. }
  lia.
Qed.

Lemma mem_new0_fresh_netdev (g : globals) (x : netdev_mapping) :
  In x (uevent_container_netdev_mapping_list g) -> n_addr x <> mem_new0 g.
Proof.
  intros Hin. unfold mem_new0, live.
  assert (n_addr x <= list_max (map addr (uevent_container_dev_mapping_list g)
                        ++ map n_addr (uevent_container_netdev_mapping_list g)))%nat.
  { apply list_max_ge. apply in_or_app. right. now apply in_map. }
  lia.
Qed.

Lemma set_dev_list_same (g : globals) :
  set_dev_list (uevent_container_dev_mapping_list g) g = g.
Proof. destruct g; reflexivity. Qed.

Lemma set_netdev_list_same (g : globals) :
  set_netdev_list (uevent_container_netdev_mapping_list g) g = g.
Proof. destruct g; reflexivity. Qed.

Lemma dev_list_set (l : list dev_mapping) (g : globals) :
  uevent_container_dev_mapping_list (set_dev_list l g) = l.
Proof. reflexivity. Qed.

Lemma netdev_list_set (l : list netdev_mapping) (g : globals) :
  uevent_container_netdev_mapping_list (set_netdev_list l g) = l.
Proof. reflexivity. Qed.

Lemma set_dev_list_twice (l l' : list dev_mapping) (g : globals) :
  set_dev_list l (set_dev_list l' g) = set_dev_list l g.
Proof. reflexivity. Qed.

Lemma set_netdev_list_twice (l l' : list netdev_mapping) (g : globals) :
  set_netdev_list l (set_netdev_list l' g) = set_netdev_list l g.
Proof. reflexivity. Qed.

Lemma new_dev_mapping_matches (g : globals) (c : container_t) (dev : Usbdev.uevent_usbdev) :
  dev_mapping_matches c dev (uevent_container_dev_mapping_new g c dev) = true.
Proof.
  unfold dev_mapping_matches; simpl.
  now rewrite Nat.eqb_refl, !Z.eqb_refl, strcmp_eq_refl.
Qed.

(** C6 (as stated): registering an identity that is already in the table
    leaves two mappings of that identity behind. *)
Lemma register_twice_duplicates :
  exists m1 m2,
    uevent_container_dev_mapping_list Scenario.same_registered_twice = [m1; m2]
    /\ usb_identity m1 = usb_identity m2
    /\ ~ NoDup (map usb_identity
                  (uevent_container_dev_mapping_list Scenario.same_registered_twice)).
Proof.
  eexists. eexists. split; [reflexivity|]. split; [reflexivity|].
  intros Hnd. inversion Hnd as [|? ? Hnotin _]; subst.
  apply Hnotin. now left.
Qed.

(** C6 (amended): [uevent_register_usbdevice] returns 0 and appends exactly
    one mapping at the tail of the table, whatever the table holds: the
    mappings already there keep their place and their contents, and the new
    one carries the container and the vendor, product, serial, major, minor
    and assign members of the device it was given. *)
Theorem register_usbdevice_appends (g : globals) (c : container_t)
        (dev : Usbdev.uevent_usbdev) :
  exists m,
    uevent_register_usbdevice g c dev
    = (0, set_dev_list (uevent_container_dev_mapping_list g ++ [m]) g)
    /\ usb_identity m
       = (c, Usbdev.id_vendor dev, Usbdev.id_product dev, Usbdev.i_serial dev)
    /\ Usbdev.major (usbdev m) = Usbdev.major dev
    /\ Usbdev.minor (usbdev m) = Usbdev.minor dev
    /\ Usbdev.assign (usbdev m) = Usbdev.assign dev
    /\ length (uevent_container_dev_mapping_list
                 (snd (uevent_register_usbdevice g c dev)))
       = S (length (uevent_container_dev_mapping_list g)).
Proof.
  exists (uevent_container_dev_mapping_new g c dev).
  repeat split. simpl. unfold list_append. rewrite length_app. simpl. lia.
Qed.

(** C9: registering a USB mapping and unregistering it with the same
    container and device gives back the globals as they were, and so does
    registering a NET mapping and unregistering it with the same container
    and the MAC of its configuration; all four calls return 0. *)
Theorem register_unregister_roundtrip (env : Env) (g : globals) (c : container_t)
        (dev : Usbdev.uevent_usbdev) (cfg : container_pnet_cfg) (m6 : mac_addr)
        (Hmac : network_str_to_mac_addr env (pnet_name cfg) = Some m6)
        (Hlen : length m6 = 6%nat) :
  (let (r1, g1) := uevent_register_usbdevice g c dev in
   let (r2, g2) := uevent_unregister_usbdevice g1 c dev in
   r1 = 0 /\ r2 = 0 /\ g2 = g)
  /\
  (let (r1, g1) := uevent_register_netdev env g c cfg in
   let (r2, g2) := uevent_unregister_netdev g1 c m6 in
   r1 = 0 /\ r2 = 0 /\ g2 = g).
Proof.
  split.
  - unfold uevent_register_usbdevice.
    set (m := uevent_container_dev_mapping_new g c dev).
    unfold uevent_unregister_usbdevice. rewrite dev_list_set.
    rewrite last_match_tail by apply new_dev_mapping_matches.
    rewrite list_remove_fresh_tail
      by (intros x Hx; now apply mem_new0_fresh_dev).
    rewrite set_dev_list_twice, set_dev_list_same. repeat split.
  - unfold uevent_register_netdev, uevent_container_netdev_mapping_new.
    rewrite Hmac.
    set (m := {| n_addr := mem_new0 g; n_container := c; pnet_cfg := cfg; mac := m6 |}).
    unfold uevent_unregister_netdev. rewrite netdev_list_set.
    rewrite last_match_tail.
    + rewrite list_remove_fresh_tail
        by (intros x Hx; now apply mem_new0_fresh_netdev).
      rewrite set_netdev_list_twice, set_netdev_list_same. repeat split.
    + unfold netdev_mapping_matches, m. cbn [n_container mac].
      rewrite Nat.eqb_refl, memcmp_eq_refl by lia. reflexivity.
Qed.

Lemma register_unregister_roundtrip_witness :
  (let (r1, g1) := uevent_register_usbdevice Scenario.twice_registered
                     Scenario.c1 Scenario.usb_dev in
   let (r2, g2) := uevent_unregister_usbdevice g1 Scenario.c1 Scenario.usb_dev in
   r1 = 0 /\ r2 = 0 /\ g2 = Scenario.twice_registered)
  /\
  (let (r1, g1) := uevent_register_netdev Scenario.world Scenario.twice_registered
                     Scenario.c1 Scenario.nic_cfg in
   let (r2, g2) := uevent_unregister_netdev g1 Scenario.c1 Scenario.nic_mac in
   r1 = 0 /\ r2 = 0 /\ g2 = Scenario.twice_registered).
Proof.
  apply (register_unregister_roundtrip Scenario.world Scenario.twice_registered
           Scenario.c1 Scenario.usb_dev Scenario.nic_cfg Scenario.nic_mac);
    reflexivity.
Defined.

(** C10: when at least one stored mapping matches the container and the
    identity (in particular when several do), [uevent_unregister_usbdevice]
    returns 0 and removes one cell, the last matching one in list order;
    every other cell, matching or not, stays where it was.  The same holds
    for [uevent_unregister_netdev].  Each of the two statements stands for
    itself: nothing is asked of the other table. *)
Theorem unregister_removes_last_match :
  (forall (g : globals) (c : container_t) (dev : Usbdev.uevent_usbdev)
          (l1 l2 : list dev_mapping) (m : dev_mapping),
      uevent_container_dev_mapping_list g = l1 ++ m :: l2 ->
      dev_mapping_matches c dev m = true ->
      (forall x, In x l2 -> dev_mapping_matches c dev x = false) ->
      NoDup (map addr (l1 ++ m :: l2)) ->
      uevent_unregister_usbdevice g c dev = (0, set_dev_list (l1 ++ l2) g))
  /\ (forall (g : globals) (c : container_t) (m6 : mac_addr)
             (k1 k2 : list netdev_mapping) (n : netdev_mapping),
        uevent_container_netdev_mapping_list g = k1 ++ n :: k2 ->
        netdev_mapping_matches c m6 n = true ->
        (forall x, In x k2 -> netdev_mapping_matches c m6 x = false) ->
        NoDup (map n_addr (k1 ++ n :: k2)) ->
        uevent_unregister_netdev g c m6 = (0, set_netdev_list (k1 ++ k2) g)).
Proof.
  split.
  - intros g c dev l1 l2 m Hdev Hm Hl2 Hdistinct.
    unfold uevent_unregister_usbdevice. rewrite Hdev.
    rewrite last_match_split by assumption.
    now rewrite list_remove_split.
  - intros g c m6 k1 k2 n Hnet Hn Hk2 Hndistinct.
    unfold uevent_unregister_netdev. rewrite Hnet.
    rewrite last_match_split by assumption.
    now rewrite list_remove_split.
Qed.

(** The USB half on a state with three USB mappings and no NET mapping,
    the NET half on a state with three NET mappings and no USB mapping. *)
Lemma unregister_removes_last_match_witness :
  let g := Scenario.twice_registered in
  let l := uevent_container_dev_mapping_list g in
  let h := snd (uevent_register_netdev Scenario.world
                  (snd (uevent_register_netdev Scenario.world
                          (snd (uevent_register_netdev Scenario.world
                                  globals_init Scenario.c1 Scenario.nic_cfg))
                          Scenario.c1 Scenario.nic_cfg))
                  Scenario.c0 Scenario.nic_cfg) in
  let k := uevent_container_netdev_mapping_list h in
  (uevent_container_netdev_mapping_list g = []
   /\ uevent_unregister_usbdevice g Scenario.c1 Scenario.usb_dev
      = (0, set_dev_list (firstn 1 l ++ skipn 2 l) g))
  /\ (uevent_container_dev_mapping_list h = []
      /\ uevent_unregister_netdev h Scenario.c1 Scenario.nic_mac
         = (0, set_netdev_list (firstn 1 k ++ skipn 2 k) h)).
Proof.
  intros g l h k. split; (split; [reflexivity|]).
  - apply (proj1 unregister_removes_last_match g Scenario.c1 Scenario.usb_dev
             (firstn 1 l) (skipn 2 l) (nth 1 l (Scenario.hd_dev l))).
    + reflexivity.
    + reflexivity.
    + intros x [<-|[]]. reflexivity.
    + repeat constructor; simpl; intuition discriminate.
  - apply (proj2 unregister_removes_last_match h Scenario.c1 Scenario.nic_mac
             (firstn 1 k) (skipn 2 k) (nth 1 k (Scenario.hd_netdev k))).
    + reflexivity.
    + reflexivity.
    + intros x [<-|[]]. reflexivity.
    + repeat constructor; simpl; intuition discriminate.
Defined.

End TableFacts.

(** ** The NIC mover, the USB dispatcher and the dispatcher *)

Module RouterFacts.
Import CStr Frame Ext Tables Router Scenario.
Local Open Scope string_scope.

(** The three inequalities of the liveness test cannot all fail: whatever
    the state of the container, one of them holds. *)
Lemma liveness_test_always_true (st : container_state) :
  negb (container_state_eqb st CONTAINER_STATE_BOOTING)
  || negb (container_state_eqb st CONTAINER_STATE_RUNNING)
  || negb (container_state_eqb st CONTAINER_STATE_STARTING) = true.
Proof. destruct st; reflexivity. Qed.

(** [uevent_netdev_move] never gets past its liveness test: for every
    world, every table and every event that names an interface it returns
    -1, changes nothing, and renames, attaches and injects nothing. *)
Lemma uevent_netdev_move_never_moves (order : byte_order) (env : Env)
      (u : uevent) (g : globals) (ifname : list ascii) :
  str_of u (interface u) = Some ifname ->
  exists msg,
    uevent_netdev_move order env u g = Some (-1, g, [msg])
    /\ (msg = EError "Iface with no mac, skipping!"
        \/ msg = EWarn "Target container is not running, skip moving").
Proof.
  intros Hif. unfold uevent_netdev_move, bind, lift, get. rewrite Hif.
  destruct (network_get_mac_by_ifname env ifname) as [iface_mac|].
  - eexists. split; [|right; reflexivity].
    destruct (option_map n_container _) as [c|].
    + rewrite liveness_test_always_true. reflexivity.
    + destruct (cmld_containers_get_c0 env) as [c|].
      * rewrite liveness_test_always_true. reflexivity.
      * reflexivity.
  - eexists. split; [reflexivity|left; reflexivity].
Qed.

(** C1 (the code at the failing input): with no mapping registered and c0
    in state RUNNING, the add event of eth5 is not moved: the call returns
    -1 with the warning of a target that is not running, and nothing is
    renamed, attached or injected. *)
Theorem netdev_move_skips_running_c0 :
  exists u,
    uevent_parse (received eth5_add_msg) 0 = Some u
    /\ cmld_containers_get_c0 world = Some c0
    /\ container_get_state world c0 = CONTAINER_STATE_RUNNING
    /\ uevent_netdev_move LittleEndian world u globals_init
       = Some (-1, globals_init,
               [EWarn "Target container is not running, skip moving"]).
Proof.
  eexists. split; [vm_compute; reflexivity|].
  split; [reflexivity|]. split; [reflexivity|].
  vm_compute. reflexivity.
Qed.

(** C4 (the code at the failing input): after a successful rename of eth5
    the frame that [uevent_rename_interface] hands back for forwarding has
    the new name in INTERFACE only; its DEVPATH is the one of the original
    event and still ends in eth5.  With [DEVTYPE=eth] the new name is
    cmleth0; without a DEVTYPE entry, as for a plain ethernet device, the
    infix is empty and the new name is cml0. *)
Theorem rename_interface_keeps_devpath :
  (exists u v g effs,
      uevent_parse (received eth5_devtype_msg) 0 = Some u
      /\ uevent_rename_interface LittleEndian world u globals_init
         = Some (Some v, g, effs)
      /\ In (ERenameIfi (lit "eth5") (lit "cmleth0")) effs
      /\ str_of v (interface v) = Some (lit "cmleth0")
      /\ str_of v (devpath v) = Some (lit eth5_devpath)
      /\ payload (raw v) (msg_len v)
         = entries ["add@" ++ eth5_devpath; "ACTION=add";
                    "DEVPATH=" ++ eth5_devpath; "SUBSYSTEM=net";
                    "DEVTYPE=eth"; "INTERFACE=cmleth0"; "IFINDEX=7";
                    "SEQNUM=2102"])
  /\
  (exists u v g effs,
      uevent_parse (received eth5_add_msg) 0 = Some u
      /\ uevent_rename_interface LittleEndian world u globals_init
         = Some (Some v, g, effs)
      /\ str_of v (interface v) = Some (lit "cml0")
      /\ str_of v (devpath v) = Some (lit eth5_devpath)).
Proof.
  split.
  - eexists. eexists. eexists. eexists.
    split; [vm_compute; reflexivity|].
    split; [vm_compute; reflexivity|].
    split; [left; reflexivity|].
    split; [vm_compute; reflexivity|].
    split; vm_compute; reflexivity.
  - eexists. eexists. eexists. eexists.
    split; [vm_compute; reflexivity|].
    split; [vm_compute; reflexivity|].
    split; vm_compute; reflexivity.
Qed.

(** The add path of the USB dispatcher when the serial can be read and no
    token reacts: the token subsystem is asked once, then the loop over the
    mappings runs, and the event is not consumed. *)
Lemma usb_add_dispatch (env : Env) (u : uevent) (g : globals)
      (sub dt act path content serial : list ascii) :
  str_of u (subsystem u) = Some sub ->
  str_of u (devtype u) = Some dt ->
  str_of u (action u) = Some act ->
  str_of u (devpath u) = Some path ->
  strncmp_eq sub (lit "usb") 3 = true ->
  strncmp_eq dt (lit "usb_device") 10 = true ->
  strncmp_eq act (lit "remove") 6 = false ->
  strncmp_eq act (lit "add") 3 = true ->
  file_exists env (lit "/sys/" ++ path ++ lit "/serial") = true ->
  file_read_new env (lit "/sys/" ++ path ++ lit "/serial") 255 = Some content ->
  cstr content <> [] ->
  serial = (if Ascii.eqb (last (cstr content) NUL) "010"%char
            then removelast (cstr content) else cstr content) ->
  cmld_token_attach env serial path <> 0 ->
  uevent_handle_usb_device env u g
  = match usb_allow_loop u serial (uevent_container_dev_mapping_list g) g with
    | Some (l, g', effs) =>
        Some (false, set_dev_list l g, ETokenAttach serial path :: effs)
    | None => None
    end.
Proof.
  intros Hsub Hdt Hact Hpath Husb Hdev Hrem Hadd Hex Hrd Hne Hser Htok.
  unfold uevent_handle_usb_device, bind, lift, ret, get, put, emit.
  rewrite Hsub, Hdt, Husb, Hdev, Hact, Hrem. cbn [negb orb].
  rewrite Hadd, Hpath, Hex, Hrd. cbn [option_map].
  destruct (cstr content) as [|c s] eqn:Ec; [contradiction|].
  rewrite <- Hser.
  destruct (Z.eqb_spec (cmld_token_attach env serial path) 0) as [E|_];
    [contradiction|].
  destruct (usb_allow_loop u serial (uevent_container_dev_mapping_list g) g)
    as [[[l g'] effs]|]; [|reflexivity].
  cbn [app]. rewrite app_nil_r. reflexivity.
Qed.

(** C7: with the mapping (c1, 1d6b:0002, serial 0000:00:14.0, assign
    false) registered, the kernel add event of the USB device with MAJOR=189
    and MINOR=3, a serial file that reads the serial followed by a newline
    and no token attachment, the USB dispatcher calls device_allow(c1, 189,
    3, false) exactly once and leaves the mapping with (major, minor) =
    (189, 3); the event is not consumed. *)
Theorem usb_add_allows_once (env : Env) (u : uevent)
        (Hparse : uevent_parse (received usb_add_msg)
                    (strlen_at usb_add_msg 0 + 1) = Some u)
        (Hexists : file_exists env usb_serial_path = true)
        (Hread : file_read_new env usb_serial_path 255 = Some usb_serial_file)
        (Htoken : cmld_token_attach env usb_serial (lit usb_devpath) <> 0) :
  exists m,
    uevent_handle_usb_device env u usb_registered
    = Some (false, set_dev_list [m] usb_registered,
            [ETokenAttach usb_serial (lit usb_devpath);
             EDeviceAllow c1 189 3 false])
    /\ usb_identity m = (c1, 7531, 2, usb_serial)
    /\ Usbdev.major (usbdev m) = 189
    /\ Usbdev.minor (usbdev m) = 3.
Proof.
  vm_compute in Hparse. injection Hparse as <-.
  eexists. split.
  - rewrite (usb_add_dispatch env _ usb_registered (lit "usb") (lit "usb_device")
               (lit "add") (lit usb_devpath) usb_serial_file usb_serial);
      try (vm_compute; reflexivity); try assumption.
    vm_compute. discriminate.
  - repeat split.
Qed.

Lemma usb_add_allows_once_witness :
  exists m,
    uevent_handle_usb_device world
      (match uevent_parse (received usb_add_msg) (strlen_at usb_add_msg 0 + 1) with
       | Some u => u
       | None => uevent_zero
       end) usb_registered
    = Some (false, set_dev_list [m] usb_registered,
            [ETokenAttach usb_serial (lit usb_devpath);
             EDeviceAllow c1 189 3 false])
    /\ usb_identity m = (c1, 7531, 2, usb_serial)
    /\ Usbdev.major (usbdev m) = 189
    /\ Usbdev.minor (usbdev m) = 3.
Proof.
  apply (usb_add_allows_once world).
  - vm_compute. reflexivity.
  - reflexivity.
  - reflexivity.
  - vm_compute. discriminate.
Defined.

(** C8: a received message that carries the libudev prefix and whose magic
    is not htonl(0xfeedcafe) is dropped: [uevent_handle] returns, the
    globals (both routing tables, the counters, the socket and its watcher)
    are what they were, and the only effect is one warning; no injector is
    forked and no mknod, mkdir or unlink happens. *)
Theorem bad_magic_dropped (order : byte_order) (env : Env) (g : globals)
        (ret_recv : Z) (data : list ascii)
        (Hrecv : 0 < wrap_size_t ret_recv)
        (Hudev : strncmp_eq
                   (cstr_at (raw (uevent_received data (wrap_size_t ret_recv))) 0)
                   UDEV_MONITOR_TAG (wrap_size_t ret_recv) = true)
        (Hmagic : nlh_magic order (raw (uevent_received data (wrap_size_t ret_recv)))
                  <> htonl order UDEV_MONITOR_MAGIC) :
  uevent_handle order env ret_recv data g
  = Some (tt, g, [EWarn "unrecognized message signature"]).
Proof.
  unfold uevent_handle. cbv zeta.
  change (msg_len (uevent_received data (wrap_size_t ret_recv)))
    with (wrap_size_t ret_recv).
  destruct (wrap_size_t ret_recv <=? 0)%Z eqn:E; [apply Z.leb_le in E; lia|].
  rewrite Hudev.
  destruct (Z.eqb_spec (nlh_magic order (raw (uevent_received data (wrap_size_t ret_recv))))
              (htonl order UDEV_MONITOR_MAGIC)) as [Heq|_]; [contradiction|].
  reflexivity.
Qed.

Lemma bad_magic_dropped_witness :
  uevent_handle LittleEndian world (Z.of_nat (length udev_bad_msg)) udev_bad_msg
    net_twice_registered
  = Some (tt, net_twice_registered, [EWarn "unrecognized message signature"]).
Proof.
  apply (bad_magic_dropped LittleEndian world net_twice_registered
           (Z.of_nat (length udev_bad_msg)) udev_bad_msg).
  - vm_compute. reflexivity.
  - vm_compute. reflexivity.
  - vm_compute. discriminate.
Defined.

(** The same frame with the right magic is accepted (and only parsed). *)
Lemma good_magic_accepted :
  uevent_handle LittleEndian world (Z.of_nat (length udev_net_msg)) udev_net_msg
    net_twice_registered
  = Some (tt, net_twice_registered, []).
Proof. vm_compute. reflexivity. Qed.

End RouterFacts.

(** * Further properties *)

(** ** The parser *)

Module ParserFacts.
Import CStr Frame View Lookup CodecFacts.

Lemma key_eqb_eq (a b : key) : key_eqb a b = true <-> a = b.
Proof.
  unfold key_eqb. rewrite Nat.eqb_eq. split; [|now intros ->].
  destruct a, b; simpl; intros H; try reflexivity; discriminate H.
Qed.

Lemma key_eqb_refl (a : key) : key_eqb a a = true.
Proof. now apply key_eqb_eq. Qed.


Lemma apply_key_type (k : key) (p : nat) (u : uevent) :
  type (apply_key k p u) = type u.
Proof. destruct k; simpl; try reflexivity; destruct (sscanf_hx _); reflexivity. Qed.

Lemma parse_loop_type : forall fuel u p v,
  parse_loop fuel u p = Some v -> type v = type u.
Proof.
  induction fuel as [|fuel IH]; intros u p v H; [discriminate|].
  rewrite parse_loop_step in H.
  assert (Hent : type (entry_effect u p) = type u).
  { unfold entry_effect. destruct (classify _); [apply apply_key_type|reflexivity]. }
  destruct (is_nul (byte_at (raw u) p)); [now injection H as <-|].
  destruct (msg_len u <=? _); [injection H as <-; exact Hent|].
  apply IH in H. congruence.
Qed.

Lemma member_not_null (f : member) (u v : uevent) (start : nat) :
  uevent_parse u start = Some v -> get f v <> NullPtr.
Proof.
  intros Hparse. rewrite uevent_parse_eq in Hparse.
  apply (parse_loop_origin (get f) (key_of f) (fun _ q a => a = InRaw q)) in Hparse.
  - destruct Hparse as [Hsame|[t [_ [_ Hv]]]].
    + rewrite Hsame, get_parse_defaults. discriminate.
    + rewrite Hv. discriminate.
  - intros k' p w Hne. apply get_apply_other. exact Hne.
  - intros p w. right. apply get_apply_same.
Qed.

Lemma value_defined (f : member) (u v : uevent) (start : nat) :
  uevent_parse u start = Some v -> exists s, value f v = Some s.
Proof.
  intros Hv. pose proof (member_not_null f u v start Hv) as Hnn.
  unfold value. destruct (get f v); [contradiction| |]; eexists; reflexivity.
Qed.

Lemma member_not_null_product (u v : uevent) (start : nat) :
  uevent_parse u start = Some v -> product v <> NullPtr.
Proof. exact (member_not_null MProduct u v start). Qed.

(** A projection that only entries with the key [k] change is left alone
    by a run of the loop that handles no entry with that key. *)
Lemma parse_loop_unscanned {A : Type} (proj : uevent -> A) (k : key) :
  (forall k' p w, k' <> k -> proj (apply_key k' p w) = proj w) ->
  forall fuel a p v,
    parse_loop fuel a p = Some v ->
    (forall t, In t (entries_scanned fuel (raw a) (msg_len a) p) ->
               classify (cstr_at (raw a) t) <> Some k) ->
    proj v = proj a.
Proof.
  intros Hother. induction fuel as [|fuel IH]; intros a p v H Hun;
    [discriminate|].
  rewrite parse_loop_step in H. cbn [entries_scanned] in Hun. cbv zeta in Hun.
  destruct (is_nul (byte_at (raw a) p)); [now injection H as <-|].
  assert (Hent : proj (entry_effect a p) = proj a).
  { unfold entry_effect.
    destruct (classify (cstr_at (raw a) p)) as [k'|] eqn:Ek; [|reflexivity].
    apply Hother. intros ->. apply (Hun p); [now left|exact Ek]. }
  destruct (entry_effect_raw a p) as [Hr Hm].
  destruct (msg_len a <=? Z.of_nat (p + strlen_at (raw a) p + 1)).
  - injection H as <-. exact Hent.
  - rewrite (IH _ _ _ H); [exact Hent|]. rewrite Hr, Hm.
    intros t Ht. apply Hun. right. exact Ht.
Qed.

Lemma other_key_keeps_numbers (k' : key) (p : nat) (w : uevent) :
  (k' <> KMajor -> major (apply_key k' p w) = major w)
  /\ (k' <> KMinor -> minor (apply_key k' p w) = minor w)
  /\ (k' <> KIdVendorId -> id_vendor_id (apply_key k' p w) = id_vendor_id w)
  /\ (k' <> KIdModelId -> id_model_id (apply_key k' p w) = id_model_id w).
Proof.
  repeat split; intros Hne; destruct k'; simpl; try reflexivity;
    try (destruct (sscanf_hx _); reflexivity); contradiction Hne; reflexivity.
Qed.

(** A property for which the loop of [uevent_parse] handles no entry has
    its default when the parse returns: the empty string for a string
    member, -1 for [major] and [minor], 0 for the two ids.  Only the
    entries that the loop gets to count: those from the start pointer up to
    the first empty entry or the end of the message. *)
Theorem missing_entries_get_defaults (u v : uevent) (start : nat)
        (Hparse : uevent_parse u start = Some v) :
  (forall f, unscanned u start (key_of f) -> value f v = Some [])
  /\ (unscanned u start KMajor -> major v = -1)
  /\ (unscanned u start KMinor -> minor v = -1)
  /\ (unscanned u start KIdVendorId -> id_vendor_id v = 0)
  /\ (unscanned u start KIdModelId -> id_model_id v = 0).
Proof.
  rewrite uevent_parse_eq in Hparse. unfold unscanned, scanned.
  split; [|split; [|split; [|split]]].
  - intros f Hun.
    assert (Hg : get f v = get f (parse_defaults u)).
    { apply (parse_loop_unscanned (get f) (key_of f)
               (fun k' p w Hne => get_apply_other f k' p w Hne) _ _ _ _ Hparse).
      exact Hun. }
    unfold value. rewrite Hg, get_parse_defaults. reflexivity.
  - intros Hun.
    apply (parse_loop_unscanned major KMajor
             (fun k' p w => proj1 (other_key_keeps_numbers k' p w))
             _ _ _ _ Hparse Hun).
  - intros Hun.
    apply (parse_loop_unscanned minor KMinor
             (fun k' p w => proj1 (proj2 (other_key_keeps_numbers k' p w)))
             _ _ _ _ Hparse Hun).
  - intros Hun.
    apply (parse_loop_unscanned id_vendor_id KIdVendorId
             (fun k' p w =>
                proj1 (proj2 (proj2 (other_key_keeps_numbers k' p w))))
             _ _ _ _ Hparse Hun).
  - intros Hun.
    apply (parse_loop_unscanned id_model_id KIdModelId
             (fun k' p w =>
                proj2 (proj2 (proj2 (other_key_keeps_numbers k' p w))))
             _ _ _ _ Hparse Hun).
Qed.


(** *** Parsing a parsed struct again *)

Lemma apply_key_set_driver (k : key) (p : nat) (d : cptr) (a : uevent) :
  apply_key k p (set_driver d a)
  = if key_eqb k KDriver then apply_key k p a
    else set_driver d (apply_key k p a).
Proof.
  destruct k; try reflexivity;
    simpl; change (raw (set_driver d a)) with (raw a);
    destruct (sscanf_hx _); reflexivity.
Qed.

Lemma entry_effect_set_driver (p : nat) (d : cptr) (a : uevent) :
  entry_effect (set_driver d a) p
  = if has_key KDriver (cstr_at (raw a) p) then entry_effect a p
    else set_driver d (entry_effect a p).
Proof.
  unfold entry_effect, has_key. change (raw (set_driver d a)) with (raw a).
  destruct (classify (cstr_at (raw a) p)) as [k|]; [|reflexivity].
  apply apply_key_set_driver.
Qed.

Lemma entry_effect_driver (p : nat) (a : uevent) :
  has_key KDriver (cstr_at (raw a) p) = false ->
  driver (entry_effect a p) = driver a.
Proof.
  unfold entry_effect, has_key.
  destruct (classify (cstr_at (raw a) p)) as [k|]; [|reflexivity].
  destruct k; simpl; intros H; try reflexivity; try discriminate H;
    destruct (sscanf_hx _); reflexivity.
Qed.

Lemma set_driver_same (v : uevent) : set_driver (driver v) v = v.
Proof. destruct v; reflexivity. Qed.

(** The loop started with another [driver] gives the same struct, up to a
    [driver] that no entry set. *)
Lemma parse_loop_set_driver : forall fuel a p v d,
  parse_loop fuel a p = Some v ->
  parse_loop fuel (set_driver d a) p = Some v
  \/ (parse_loop fuel (set_driver d a) p = Some (set_driver d v)
      /\ driver v = driver a).
Proof.
  induction fuel as [|fuel IH]; intros a p v d H; [discriminate|].
  rewrite parse_loop_step in H. rewrite parse_loop_step.
  change (raw (set_driver d a)) with (raw a).
  change (msg_len (set_driver d a)) with (msg_len a).
  destruct (is_nul (byte_at (raw a) p)).
  { injection H as <-. right. split; reflexivity. }
  rewrite entry_effect_set_driver.
  destruct (has_key KDriver (cstr_at (raw a) p)) eqn:Ek.
  - left. exact H.
  - pose proof (entry_effect_driver p a Ek) as Hd.
    destruct (msg_len a <=? _).
    + injection H as <-. right. split; [reflexivity|exact Hd].
    + destruct (IH _ _ _ d H) as [Hl|[Hr Hdv]]; [now left|right].
      split; [exact Hr|congruence].
Qed.

Lemma parse_defaults_of_parsed (u v : uevent) :
  raw v = raw u -> msg_len v = msg_len u -> type v = type u ->
  parse_defaults v = set_driver (driver v) (parse_defaults u).
Proof.
  destruct u, v. simpl. intros -> -> ->. reflexivity.
Qed.

Lemma parse_idempotent (u v : uevent) (start : nat) :
  uevent_parse u start = Some v -> uevent_parse v start = Some v.
Proof.
  intros Hv.
  pose proof Hv as Hloop. rewrite uevent_parse_eq in Hloop.
  destruct (parse_loop_raw _ _ _ _ Hloop) as [Hraw Hmsg].
  change (raw (parse_defaults u)) with (raw u) in Hraw.
  change (msg_len (parse_defaults u)) with (msg_len u) in Hmsg.
  pose proof (parse_loop_type _ _ _ _ Hloop) as Htype.
  change (type (parse_defaults u)) with (type u) in Htype.
  rewrite uevent_parse_eq, Hraw.
  rewrite (parse_defaults_of_parsed u v Hraw Hmsg Htype).
  destruct (parse_loop_set_driver _ _ _ _ (driver v) Hloop) as [Hl|[Hr _]].
  - exact Hl.
  - rewrite Hr. now rewrite set_driver_same.
Qed.

(** *** A message given by its entries *)











Lemma missing_entries_get_defaults_witness :
  (forall f,
      unscanned (Scenario.received Scenario.usb_add_msg)
        (strlen_at Scenario.usb_add_msg 0 + 1) (key_of f) ->
      value f (Samples.parsed Scenario.usb_add_msg) = Some [])
  /\ (unscanned (Scenario.received Scenario.usb_add_msg)
         (strlen_at Scenario.usb_add_msg 0 + 1) KMajor ->
      major (Samples.parsed Scenario.usb_add_msg) = -1)
  /\ (unscanned (Scenario.received Scenario.usb_add_msg)
         (strlen_at Scenario.usb_add_msg 0 + 1) KMinor ->
      minor (Samples.parsed Scenario.usb_add_msg) = -1)
  /\ (unscanned (Scenario.received Scenario.usb_add_msg)
         (strlen_at Scenario.usb_add_msg 0 + 1) KIdVendorId ->
      id_vendor_id (Samples.parsed Scenario.usb_add_msg) = 0)
  /\ (unscanned (Scenario.received Scenario.usb_add_msg)
         (strlen_at Scenario.usb_add_msg 0 + 1) KIdModelId ->
      id_model_id (Samples.parsed Scenario.usb_add_msg) = 0).
Proof.
  apply (missing_entries_get_defaults
           (Scenario.received Scenario.usb_add_msg)
           (Samples.parsed Scenario.usb_add_msg)
           (strlen_at Scenario.usb_add_msg 0 + 1)).
  vm_compute. reflexivity.
Defined.


End ParserFacts.

(** ** Rewriting *)

Module RewriteFacts.
Import CStr Frame View CodecFacts.

Lemma cstr_split : forall l : list ascii,
  (length (cstr l) < length l)%nat ->
  l = cstr l ++ NUL :: skipn (S (length (cstr l))) l.
Proof.
  induction l as [|c l IH]; simpl; intros H; [lia|].
  destruct (is_nul c) eqn:E.
  - apply is_nul_true in E. subst c. reflexivity.
  - simpl. f_equal. simpl in H. apply IH. lia.
Qed.

(** A buffer around the string at [off]. *)
Lemma raw_around_member (raw : list ascii) (off : nat) :
  (off + strlen_at raw off < length raw)%nat ->
  raw = firstn off raw ++ cstr_at raw off
          ++ NUL :: skipn (off + strlen_at raw off + 1) raw.
Proof.
  intros H. rewrite <- (firstn_skipn off raw) at 1. f_equal.
  unfold strlen_at, cstr_at in *.
  rewrite (cstr_split (skipn off raw)) at 1
    by (rewrite length_skipn; lia).
  f_equal. f_equal. rewrite skipn_skipn. f_equal. lia.
Qed.

(** The message that [uevent_replace_member] returns is the message it was
    given with the old member exchanged for the new one: the bytes in front
    of the member and the bytes behind its terminator are the same, and
    [msg_len] changes by the difference of the two lengths. *)
Theorem replace_member_exchanges_member
        (order : byte_order) (newevent u F' : uevent) (off : nat)
        (newmember : list ascii)
        (Hrepl : uevent_replace_member order newevent u (InRaw off) newmember
                 = Some F')
        (Hlen : 0 <= msg_len u <= Z.of_nat (length (raw u)))
        (Hcap : Z.of_nat (length (raw u)) < 2 ^ 31)
        (Hnew : Z.of_nat (length (cstr newmember)) < 2 ^ 31)
        (Hterm : byte_at (raw u) (Z.to_nat (msg_len u) - 1) = NUL) :
  exists head tail,
    length head = off
    /\ payload (raw u) (msg_len u)
       = head ++ cstr_at (raw u) off ++ NUL :: tail
    /\ payload (raw F') (msg_len F')
       = head ++ cstr newmember ++ NUL :: tail
    /\ msg_len F' = msg_len u + Z.of_nat (length (cstr newmember))
                    - Z.of_nat (strlen_at (raw u) off).
Proof.
  destruct (replace_member_shape _ _ _ _ _ _ Hrepl Hlen Hcap Hnew Hterm)
    as (Hoff0 & Hend & Hmsg & junk & Hraw).
  set (M := Z.to_nat (msg_len u)) in *.
  set (old_len := strlen_at (raw u) off) in *.
  set (tail := slice (raw u) (off + old_len + 1) (M - (off + old_len + 1))) in *.
  assert (Hhead : length (firstn off (raw u)) = off)
    by (rewrite length_firstn; lia).
  assert (Htail : length tail = (M - (off + old_len + 1))%nat).
  { unfold tail, slice. rewrite length_firstn, length_skipn. lia. }
  exists (firstn off (raw u)), tail.
  split; [exact Hhead|]. split; [|split].
  - unfold payload. rewrite Z.min_l by lia. fold M.
    rewrite (raw_around_member (raw u) off) at 1 by (fold old_len; lia).
    fold old_len.
    rewrite app_assoc.
    rewrite firstn_app.
    rewrite firstn_all2 by (rewrite length_app; fold (strlen_at (raw u) off); fold old_len; lia).
    rewrite <- app_assoc. f_equal. f_equal.
    rewrite length_app, Hhead. fold (strlen_at (raw u) off). fold old_len.
    replace (M - (off + old_len))%nat with (S (M - (off + old_len + 1))) by lia.
    simpl. reflexivity.
  - unfold payload. rewrite Hmsg.
    assert (Hlong : (M + length (cstr newmember) - old_len <= length (raw F'))%nat).
    { rewrite Hraw. rewrite !length_app. simpl length. rewrite length_app. lia. }
    rewrite Z.min_l by lia. rewrite Nat2Z.id.
    rewrite Hraw.
    replace (firstn off (raw u) ++ cstr newmember ++ NUL :: tail ++ junk)
      with ((firstn off (raw u) ++ cstr newmember ++ NUL :: tail) ++ junk)
      by (rewrite <- !app_assoc; reflexivity).
    apply firstn_app_exact.
    rewrite !length_app. simpl length. lia.
  - rewrite Hmsg. lia.
Qed.

Lemma replace_member_exchanges_member_witness :
  exists head tail,
    length head = Scenario.eth5_interface_off
    /\ payload (raw Scenario.eth5_event) (msg_len Scenario.eth5_event)
       = head ++ lit "eth5" ++ NUL :: tail
    /\ payload (raw Scenario.eth5_renamed) (msg_len Scenario.eth5_renamed)
       = head ++ lit "cmleth0" ++ NUL :: tail
    /\ msg_len Scenario.eth5_renamed = msg_len Scenario.eth5_event + 7 - 4.
Proof.
  apply (replace_member_exchanges_member LittleEndian uevent_zero
           Scenario.eth5_event Scenario.eth5_renamed
           Scenario.eth5_interface_off (lit "cmleth0")).
  - vm_compute. reflexivity.
  - vm_compute. split; discriminate.
  - vm_compute. reflexivity.
  - vm_compute. reflexivity.
  - vm_compute. reflexivity.
Defined.

(** *** uevent_replace_devpath_new *)

Lemma starts_with_spec (needle : list ascii) : forall hay,
  starts_with needle hay = true <-> exists post, hay = needle ++ post.
Proof.
  induction needle as [|x needle IH]; intros hay; simpl.
  - split; [intros _; now exists hay|reflexivity].
  - destruct hay as [|y hay].
    + split; [discriminate|intros [post H]; discriminate H].
    + rewrite andb_true_iff, Ascii.eqb_eq, IH. split.
      * intros [-> [post ->]]. now exists post.
      * intros [post H]. injection H as -> ->. split; [reflexivity|now exists post].
Qed.

Lemma strstr_spec (needle : list ascii) : forall hay,
  match strstr hay needle with
  | Some off =>
      exists pre post,
        hay = pre ++ needle ++ post /\ length pre = off
        /\ forall pre' post', hay = pre' ++ needle ++ post' ->
                              (off <= length pre')%nat
  | None => forall pre post, hay <> pre ++ needle ++ post
  end.
Proof.
  induction hay as [|c hay IH].
  - simpl. destruct needle as [|x needle]; simpl.
    + exists [], []. repeat split. intros; lia.
    + intros pre post H. destruct pre; discriminate H.
  - cbn [strstr]. destruct (starts_with needle (c :: hay)) eqn:E.
    + apply starts_with_spec in E. destruct E as [post Hpost].
      exists [], post. repeat split; [exact Hpost|]. intros; lia.
    + destruct (strstr hay needle) as [off|]; simpl.
      * destruct IH as [pre [post [Hhay [Hlen Hmin]]]].
        exists (c :: pre), post. split; [simpl; now rewrite Hhay|].
        split; [simpl; now rewrite Hlen|].
        intros pre' post' H. destruct pre' as [|c' pre'].
        -- exfalso. assert (starts_with needle (c :: hay) = true)
             by (apply starts_with_spec; now exists post').
           congruence.
        -- injection H as _ H. apply Hmin in H. simpl. lia.
      * intros pre post H. destruct pre as [|c' pre].
        -- assert (starts_with needle (c :: hay) = true)
             by (apply starts_with_spec; now exists post).
           congruence.
        -- injection H as _ H. now apply IH in H.
Qed.

(** [uevent_replace_devpath_new] returns NULL exactly when the old name
    does not occur in the string; otherwise it exchanges the first
    occurrence of the old name for the new name and leaves the rest of the
    string as it is. *)
Theorem replace_devpath_first_occurrence (str oldstr newstr : list ascii) :
  match uevent_replace_devpath_new str oldstr newstr with
  | None => forall pre post, str <> pre ++ oldstr ++ post
  | Some replaced =>
      exists pre post,
        str = pre ++ oldstr ++ post
        /\ replaced = pre ++ newstr ++ post
        /\ forall pre' post', str = pre' ++ oldstr ++ post' ->
                              (length pre <= length pre')%nat
  end.
Proof.
  unfold uevent_replace_devpath_new.
  pose proof (strstr_spec oldstr str) as H.
  destruct (strstr str oldstr) as [off|]; [|exact H].
  destruct H as [pre [post [Hstr [Hlen Hmin]]]].
  exists pre, post. split; [exact Hstr|]. split.
  - assert (Hpre : firstn off str = pre)
      by (rewrite Hstr; now apply firstn_app_exact).
    assert (Hpost : skipn (off + length oldstr) str = post).
    { rewrite Hstr, app_assoc. apply skipn_app_exact.
      rewrite length_app. lia. }
    now rewrite Hpre, Hpost.
  - intros pre' post' H'. rewrite Hlen. now apply (Hmin pre' post').
Qed.

(** *** The magic of a udev frame *)

Lemma Z_of_byte_range (c : ascii) : 0 <= Z_of_byte c < 256.
Proof.
  unfold Z_of_byte. pose proof (N_ascii_bounded c). lia.
Qed.

Lemma Z_of_byte_inj (a b : ascii) : Z_of_byte a = Z_of_byte b -> a = b.
Proof.
  unfold Z_of_byte. intros H. apply N2Z.inj in H.
  rewrite <- (ascii_N_embedding a), <- (ascii_N_embedding b). now rewrite H.
Qed.

Lemma decode_be32_inj (l l' : list ascii) :
  length l = 4%nat -> length l' = 4%nat ->
  decode_be32 l = decode_be32 l' -> l = l'.
Proof.
  destruct l as [|a [|b [|c [|d [|? ?]]]]]; try discriminate.
  destruct l' as [|a' [|b' [|c' [|d' [|? ?]]]]]; try discriminate.
  intros _ _. unfold decode_be32. simpl.
  pose proof (Z_of_byte_range a). pose proof (Z_of_byte_range b).
  pose proof (Z_of_byte_range c). pose proof (Z_of_byte_range d).
  pose proof (Z_of_byte_range a'). pose proof (Z_of_byte_range b').
  pose proof (Z_of_byte_range c'). pose proof (Z_of_byte_range d').
  intros Heq.
  assert (Hall : Z_of_byte a = Z_of_byte a' /\ Z_of_byte b = Z_of_byte b'
                 /\ Z_of_byte c = Z_of_byte c' /\ Z_of_byte d = Z_of_byte d')
    by lia.
  destruct Hall as (Ha & Hb & Hc & Hd).
  apply Z_of_byte_inj in Ha, Hb, Hc, Hd. now subst.
Qed.

Lemma decode_u32_inj (order : byte_order) (l l' : list ascii) :
  length l = 4%nat -> length l' = 4%nat ->
  decode_u32 order l = decode_u32 order l' -> l = l'.
Proof.
  intros Hl Hl' H. destruct order; simpl in H.
  - apply decode_be32_inj in H; [|now rewrite length_rev..].
    apply (f_equal (@rev ascii)) in H. now rewrite !rev_involutive in H.
  - now apply decode_be32_inj.
Qed.

Lemma received_length (data : list ascii) (len : Z) :
  length (raw (uevent_received data len)) = UEVENT_BUF_LEN.
Proof.
  unfold uevent_received. cbv zeta.
  change (raw (set_msg_len len (set_raw ?b uevent_zero))) with b.
  rewrite length_app, repeat_length.
  pose proof (firstn_le_length (UEVENT_BUF_LEN - 1) data).
  lia.
Qed.

(** The test of the magic in [uevent_handle] does not depend on the byte
    order of the host: it passes exactly when the four bytes behind the
    prefix are fe ed ca fe. *)
Theorem magic_test_reads_bytes (order : byte_order) (data : list ascii) (len : Z) :
  nlh_magic order (raw (uevent_received data len))
  = htonl order UDEV_MONITOR_MAGIC
  <-> slice (raw (uevent_received data len)) 8 4
      = map byte_of_Z [254; 237; 202; 254].
Proof.
  unfold nlh_magic, nlh_field, htonl.
  change (encode_be32 UDEV_MONITOR_MAGIC) with (map byte_of_Z [254; 237; 202; 254]).
  change OFF_MAGIC with 8%nat.
  split.
  - apply decode_u32_inj; [|reflexivity].
    unfold slice. rewrite length_firstn, length_skipn, received_length.
    reflexivity.
  - intros ->. reflexivity.
Qed.

End RewriteFacts.

(** ** The reads of the parser *)

Module BoundsFacts.
Import CStr Frame View Lookup CodecFacts ParserFacts RewriteFacts.

Lemma load_inside (raw : list ascii) (p : nat) :
  (p < length raw)%nat -> Bounds.load raw p = Some (byte_at raw p).
Proof.
  intros H. unfold Bounds.load, byte_at. apply nth_error_nth'. exact H.
Qed.

Lemma load_outside (raw : list ascii) (p : nat) :
  (length raw <= p)%nat -> Bounds.load raw p = None.
Proof. intros H. unfold Bounds.load. apply nth_error_None. exact H. Qed.

Lemma load_byte (raw : list ascii) (p : nat) (c : ascii) :
  Bounds.load raw p = Some c -> c = byte_at raw p /\ (p < length raw)%nat.
Proof.
  intros H. assert (Hlt : (p < length raw)%nat).
  { apply nth_error_Some. unfold Bounds.load in H. congruence. }
  rewrite (load_inside raw p Hlt) in H. injection H as <-. split; [reflexivity|exact Hlt].
Qed.

Lemma trace_loop_step (fuel : nat) (u : uevent) (p : nat) :
  Bounds.trace_loop (S fuel) u p
  = match Bounds.load (raw u) p with
    | None => Bounds.Outside p
    | Some c =>
        if negb (is_nul c) || (Z.of_nat p <? msg_len u) then
          if Bounds.terminated (raw u) p
          then Bounds.trace_loop fuel u (p + strlen_at (raw u) p + 1)
          else Bounds.Outside (length (raw u))
        else Bounds.Done tt
    end.
Proof. reflexivity. Qed.

(** One iteration of the checked loop, in the words of
    [parse_loop_step]. *)
Lemma checked_loop_step (fuel : nat) (u : uevent) (p : nat) :
  Bounds.parse_loop (S fuel) u p
  = match Bounds.load (raw u) p with
    | None => Bounds.Outside p
    | Some c =>
        if is_nul c then Bounds.Done u
        else if Bounds.terminated (raw u) p then
          if msg_len u <=? Z.of_nat (p + strlen_at (raw u) p + 1)
          then Bounds.Done (entry_effect u p)
          else Bounds.parse_loop fuel (entry_effect u p)
                 (p + strlen_at (raw u) p + 1)
        else Bounds.Outside (length (raw u))
    end.
Proof.
  cbn [Bounds.parse_loop]. destruct (Bounds.load (raw u) p); [|reflexivity].
  destruct (is_nul a); [reflexivity|].
  destruct (Bounds.terminated (raw u) p); [|reflexivity].
  rewrite parse_entry_classify. unfold entry_effect.
  destruct (classify (cstr_at (raw u) p)) as [k|] eqn:Ek; [|reflexivity].
  rewrite strlen_at_plus by (apply key_prefix_length; assumption).
  reflexivity.
Qed.

(** A run whose reads all lie in the array leaves the struct that
    [Frame.parse_loop] gives. *)
Lemma checked_loop_agrees : forall fuel u p v,
  Bounds.parse_loop fuel u p = Bounds.Done v -> parse_loop fuel u p = Some v.
Proof.
  induction fuel as [|fuel IH]; intros u p v H; [discriminate|].
  rewrite checked_loop_step in H. rewrite parse_loop_step.
  destruct (Bounds.load (raw u) p) as [c|] eqn:El; [|discriminate].
  apply load_byte in El. destruct El as [-> _].
  destruct (is_nul (byte_at (raw u) p)); [injection H as <-; reflexivity|].
  destruct (Bounds.terminated (raw u) p); [|discriminate].
  destruct (msg_len u <=? _); [injection H as <-; reflexivity|].
  exact (IH _ _ _ H).
Qed.

Section ZeroTail.

Variable u : uevent.
Hypothesis Hzero : Bounds.zero_tailed u.

Local Abbreviation L := (length (raw u)).
Local Abbreviation M := (Z.to_nat (msg_len u)).

Lemma tail_is_nul (p : nat) : (M <= p)%nat -> is_nul (byte_at (raw u) p) = true.
Proof.
  intros H. destruct Hzero as (_ & _ & Hz). apply is_nul_true. exact (Hz p H).
Qed.

(** An entry that starts in the message ends at [msg_len] at the latest. *)
Lemma entry_ends_in_message (p : nat) :
  (p < M)%nat -> (p + strlen_at (raw u) p <= M)%nat.
Proof.
  intros H. destruct Hzero as (_ & _ & Hz).
  apply strlen_at_le_nul; [lia|]. apply Hz. lia.
Qed.

Lemma entry_terminated (p : nat) :
  (p < M)%nat -> Bounds.terminated (raw u) p = true.
Proof.
  intros H. pose proof (entry_ends_in_message p H).
  destruct Hzero as (_ & Hl & _). unfold Bounds.terminated.
  apply Nat.ltb_lt. lia.
Qed.

Lemma trace_stays_inside : forall fuel a p,
  raw a = raw u -> msg_len a = msg_len u ->
  (p < L)%nat -> (L - p < fuel)%nat ->
  Bounds.trace_loop fuel a p = Bounds.Done tt.
Proof.
  induction fuel as [|fuel IH]; intros a p Hr Hm Hp Hfuel; [lia|].
  rewrite trace_loop_step, Hr, Hm. rewrite (load_inside _ _ Hp).
  destruct Hzero as (Hpos & Hl & Hz).
  destruct (Nat.lt_ge_cases p M) as [Hin|Hout].
  - replace (Z.of_nat p <? msg_len u) with true
      by (symmetry; apply Z.ltb_lt; lia).
    rewrite orb_true_r, (entry_terminated p Hin).
    pose proof (entry_ends_in_message p Hin).
    apply IH; try assumption; lia.
  - rewrite (tail_is_nul p Hout).
    replace (Z.of_nat p <? msg_len u) with false
      by (symmetry; apply Z.ltb_ge; lia).
    reflexivity.
Qed.

Lemma loop_stays_inside : forall fuel a p,
  raw a = raw u -> msg_len a = msg_len u ->
  (p < L)%nat -> (L - p < fuel)%nat ->
  exists v, Bounds.parse_loop fuel a p = Bounds.Done v.
Proof.
  induction fuel as [|fuel IH]; intros a p Hr Hm Hp Hfuel; [lia|].
  rewrite checked_loop_step, Hr, Hm. rewrite (load_inside _ _ Hp).
  destruct Hzero as (Hpos & Hl & Hz).
  destruct (is_nul (byte_at (raw u) p)) eqn:Enul; [eexists; reflexivity|].
  assert (Hin : (p < M)%nat).
  { destruct (Nat.lt_ge_cases p M) as [|Hout]; [assumption|].
    rewrite (tail_is_nul p Hout) in Enul. discriminate. }
  rewrite (entry_terminated p Hin).
  pose proof (entry_ends_in_message p Hin).
  destruct (Z.leb_spec (msg_len u) (Z.of_nat (p + strlen_at (raw u) p + 1)));
    [eexists; reflexivity|].
  destruct (entry_effect_raw a p) as [Her Hem].
  apply IH; try congruence; lia.
Qed.

End ZeroTail.

(** What [uevent_handle] holds after a receive that left two bytes of the
    buffer or more unused is zero from [msg_len] on. *)
Lemma received_zero_tailed (data : list ascii) :
  (length data + 1 < UEVENT_BUF_LEN)%nat ->
  Bounds.zero_tailed (uevent_received data (Z.of_nat (length data))).
Proof.
  intros Hfits. unfold Bounds.zero_tailed.
  rewrite received_length.
  change (msg_len (uevent_received data (Z.of_nat (length data))))
    with (Z.of_nat (length data)).
  rewrite Nat2Z.id. split; [lia|]. split; [exact Hfits|].
  intros j Hj. unfold uevent_received. cbv zeta.
  change (raw (set_msg_len ?l (set_raw ?b uevent_zero))) with b.
  rewrite (firstn_all2 (n := UEVENT_BUF_LEN - 1) data) by lia.
  unfold byte_at. rewrite app_nth2 by lia.
  destruct (Nat.lt_ge_cases (j - length data) (UEVENT_BUF_LEN - length data))
    as [Hlt|Hge].
  - apply nth_repeat_lt. exact Hlt.
  - apply nth_overflow. rewrite repeat_length. exact Hge.
Qed.

Lemma checked_parse_returns (u : uevent) (start : nat) :
  Bounds.zero_tailed u -> (start < length (raw u))%nat ->
  exists v,
    Bounds.uevent_parse u start = Bounds.Done v
    /\ uevent_parse u start = Some v.
Proof.
  intros Hzero Hstart. unfold Bounds.uevent_parse, Bounds.uevent_trace.
  change (raw (parse_defaults u)) with (raw u).
  rewrite (trace_stays_inside u Hzero (S (length (raw u))) (parse_defaults u)
             start eq_refl eq_refl Hstart) by lia.
  destruct (loop_stays_inside u Hzero (S (length (raw u))) (parse_defaults u)
              start eq_refl eq_refl Hstart) as [v Hv]; [lia|].
  exists v. split; [exact Hv|].
  apply checked_loop_agrees in Hv. rewrite <- uevent_parse_eq in Hv. exact Hv.
Qed.

(** When the message lies in the buffer with the buffer zero behind it (at
    least two bytes, as after a receive of at most [sizeof(raw) - 2] bytes
    into the zeroed struct) and the start pointer lies in the buffer, every
    read of [uevent_parse], those of [uevent_trace] included, lies in
    [msg.raw], and the call returns: with the struct of
    [Frame.uevent_parse], with the buffer, [msg_len] and [type] as they
    were, and with none of the nine string members that it resets NULL.
    A parse that is started behind the buffer reads outside of it at
    once. *)
Theorem parse_stays_in_buffer (u : uevent) (start : nat)
        (Hzero : Bounds.zero_tailed u) :
  ((start < length (raw u))%nat ->
   exists v,
     Bounds.uevent_parse u start = Bounds.Done v
     /\ uevent_parse u start = Some v
     /\ raw v = raw u /\ msg_len v = msg_len u /\ type v = type u
     /\ forall f, exists s, value f v = Some s)
  /\ ((length (raw u) <= start)%nat ->
      Bounds.uevent_parse u start = Bounds.Outside start).
Proof.
  split.
  - intros Hstart.
    destruct (checked_parse_returns u start Hzero Hstart) as [v [Hc Hv]].
    exists v. split; [exact Hc|]. split; [exact Hv|].
    pose proof Hv as Hloop. rewrite uevent_parse_eq in Hloop.
    destruct (parse_loop_raw _ _ _ _ Hloop) as [Hraw Hmsg].
    split; [exact Hraw|]. split; [exact Hmsg|].
    split; [exact (parse_loop_type _ _ _ _ Hloop)|].
    intros f. exact (value_defined f u v start Hv).
  - intros Hout. unfold Bounds.uevent_parse, Bounds.uevent_trace.
    rewrite trace_loop_step.
    change (raw (parse_defaults u)) with (raw u).
    rewrite (load_outside _ _ Hout). reflexivity.
Qed.

Lemma parse_stays_in_buffer_witness :
  (exists v,
     Bounds.uevent_parse (Scenario.received Scenario.usb_add_msg)
       (strlen_at Scenario.usb_add_msg 0 + 1) = Bounds.Done v
     /\ uevent_parse (Scenario.received Scenario.usb_add_msg)
          (strlen_at Scenario.usb_add_msg 0 + 1) = Some v
     /\ raw v = raw (Scenario.received Scenario.usb_add_msg)
     /\ msg_len v = msg_len (Scenario.received Scenario.usb_add_msg)
     /\ type v = type (Scenario.received Scenario.usb_add_msg)
     /\ forall f, exists s, value f v = Some s)
  /\ Bounds.uevent_parse (Scenario.received Scenario.usb_add_msg)
       UEVENT_BUF_LEN
     = Bounds.Outside UEVENT_BUF_LEN.
Proof.
  split.
  - apply (proj1 (parse_stays_in_buffer
                    (Scenario.received Scenario.usb_add_msg)
                    (strlen_at Scenario.usb_add_msg 0 + 1)
                    (received_zero_tailed Scenario.usb_add_msg
                       ltac:(vm_compute; lia)))).
    vm_compute. lia.
  - apply (proj2 (parse_stays_in_buffer
                    (Scenario.received Scenario.usb_add_msg) UEVENT_BUF_LEN
                    (received_zero_tailed Scenario.usb_add_msg
                       ltac:(vm_compute; lia)))).
    vm_compute. lia.
Defined.

(** A parse that is started outside of the buffer reads there at once. *)
Lemma parse_started_outside (u : uevent) (start : nat) :
  (length (raw u) <= start)%nat ->
  Bounds.uevent_parse u start = Bounds.Outside start.
Proof.
  intros H. unfold Bounds.uevent_parse, Bounds.uevent_trace.
  rewrite trace_loop_step.
  change (raw (parse_defaults u)) with (raw u).
  rewrite (load_outside _ _ H). reflexivity.
Qed.

(** Which reads a run makes depends on the buffer and [msg_len] only. *)
Lemma trace_loop_same : forall fuel a b p,
  raw a = raw b -> msg_len a = msg_len b ->
  Bounds.trace_loop fuel a p = Bounds.trace_loop fuel b p.
Proof.
  induction fuel as [|fuel IH]; intros a b p Hr Hm; [reflexivity|].
  rewrite !trace_loop_step, Hr, Hm.
  destruct (Bounds.load (raw b) p); [|reflexivity].
  destruct (_ || _); [|reflexivity].
  destruct (Bounds.terminated (raw b) p); [|reflexivity].
  apply IH; assumption.
Qed.

Lemma checked_loop_same_reads : forall fuel a b p v,
  raw a = raw b -> msg_len a = msg_len b ->
  Bounds.parse_loop fuel a p = Bounds.Done v ->
  exists w, Bounds.parse_loop fuel b p = Bounds.Done w.
Proof.
  induction fuel as [|fuel IH]; intros a b p v Hr Hm H; [discriminate|].
  rewrite checked_loop_step in H. rewrite checked_loop_step.
  rewrite Hr, Hm in H.
  destruct (Bounds.load (raw b) p); [|discriminate].
  destruct (is_nul a0); [eexists; reflexivity|].
  destruct (Bounds.terminated (raw b) p); [|discriminate].
  destruct (msg_len b <=? _); [eexists; reflexivity|].
  destruct (entry_effect_raw a p) as [Har Ham].
  destruct (entry_effect_raw b p) as [Hbr Hbm].
  apply (IH _ _ _ _ (eq_trans Har (eq_trans Hr (eq_sym Hbr)))
           (eq_trans Ham (eq_trans Hm (eq_sym Hbm))) H).
Qed.

(** Parsing is idempotent: when [uevent_parse] has returned a struct,
    parsing that struct once more from the same start pointer returns that
    very struct, with the buffer and [msg_len] of the first one; and when
    every read of the first parse was in [msg.raw], so is every read of the
    second. *)
Theorem reparse_gives_same_view (u v : uevent) (start : nat)
        (Hparse : uevent_parse u start = Some v) :
  uevent_parse v start = Some v /\ raw v = raw u /\ msg_len v = msg_len u
  /\ (Bounds.uevent_parse u start = Bounds.Done v ->
      Bounds.uevent_parse v start = Bounds.Done v).
Proof.
  pose proof (parse_idempotent u v start Hparse) as Hidem.
  pose proof Hparse as Hloop. rewrite uevent_parse_eq in Hloop.
  destruct (parse_loop_raw _ _ _ _ Hloop) as [Hraw Hmsg].
  change (raw (parse_defaults u)) with (raw u) in Hraw.
  change (msg_len (parse_defaults u)) with (msg_len u) in Hmsg.
  split; [exact Hidem|]. split; [exact Hraw|]. split; [exact Hmsg|].
  unfold Bounds.uevent_parse, Bounds.uevent_trace.
  change (raw (parse_defaults v)) with (raw v).
  change (raw (parse_defaults u)) with (raw u).
  intros Hc. rewrite Hraw.
  rewrite (trace_loop_same (S (length (raw u))) (parse_defaults v)
             (parse_defaults u) start Hraw Hmsg).
  destruct (Bounds.trace_loop (S (length (raw u))) (parse_defaults u) start);
    try discriminate.
  destruct (checked_loop_same_reads _ (parse_defaults u) (parse_defaults v)
              start v (eq_sym Hraw) (eq_sym Hmsg) Hc) as [w Hw].
  rewrite Hw. f_equal.
  apply checked_loop_agrees in Hw.
  rewrite uevent_parse_eq, Hraw in Hidem. congruence.
Qed.

Lemma reparse_gives_same_view_witness :
  uevent_parse (Samples.parsed Scenario.usb_add_msg)
    (strlen_at Scenario.usb_add_msg 0 + 1)
  = Some (Samples.parsed Scenario.usb_add_msg)
  /\ raw (Samples.parsed Scenario.usb_add_msg)
     = raw (Scenario.received Scenario.usb_add_msg)
  /\ msg_len (Samples.parsed Scenario.usb_add_msg)
     = msg_len (Scenario.received Scenario.usb_add_msg)
  /\ Bounds.uevent_parse (Samples.parsed Scenario.usb_add_msg)
       (strlen_at Scenario.usb_add_msg 0 + 1)
     = Bounds.Done (Samples.parsed Scenario.usb_add_msg).
Proof.
  destruct (reparse_gives_same_view
              (Scenario.received Scenario.usb_add_msg)
              (Samples.parsed Scenario.usb_add_msg)
              (strlen_at Scenario.usb_add_msg 0 + 1)
              ltac:(vm_compute; reflexivity)) as (H1 & H2 & H3 & H4).
  split; [exact H1|]. split; [exact H2|]. split; [exact H3|].
  apply H4. vm_compute. reflexivity.
Defined.

End BoundsFacts.

(** ** The USB dispatcher *)

Module UsbFacts.
Import CStr Frame Ext Tables Router View RouterSpec CodecFacts ParserFacts RouterFacts.
Local Open Scope string_scope.

Lemma usb_deny_loop_spec (u : uevent) : forall l g,
  usb_deny_loop u l g = Some (tt, g, map deny_of (filter (usb_bound u) l)).
Proof.
  induction l as [|m l IH]; intros g; [reflexivity|].
  cbn [usb_deny_loop filter]. unfold bind. fold (usb_bound u m).
  destruct (usb_bound u m); cbn [emit ret]; rewrite IH; reflexivity.
Qed.

Lemma usb_allow_loop_spec (u : uevent) (serial : list ascii) (vendor product : Z) :
  uevent_get_usb_vendor u = Some vendor ->
  uevent_get_usb_product u = Some product ->
  forall l g,
    usb_allow_loop u serial l g
    = Some (map (fun m => if usb_matches vendor product serial m
                          then usb_bind u m else m) l,
            g,
            map (allow_of u) (filter (usb_matches vendor product serial) l)).
Proof.
  intros Hv Hp. induction l as [|m l IH]; intros g; [reflexivity|].
  cbn [usb_allow_loop filter map]. unfold bind, lift. rewrite Hv, Hp.
  fold (usb_matches vendor product serial m).
  destruct (usb_matches vendor product serial m);
    cbn [emit ret]; rewrite IH; cbn [app map]; rewrite ?app_nil_r;
    reflexivity.
Qed.

(** After [uevent_parse] the vendor and the product of the event can be
    computed: [product] is not NULL. *)
Lemma usb_ids_defined (u0 u : uevent) (start : nat) :
  uevent_parse u0 start = Some u ->
  exists vendor product,
    uevent_get_usb_vendor u = Some vendor
    /\ uevent_get_usb_product u = Some product.
Proof.
  intros Hparse.
  pose proof (member_not_null_product u0 u start Hparse) as Hnn.
  unfold uevent_get_usb_vendor, uevent_get_usb_product.
  destruct (str_of u (product u)) as [s|] eqn:Es.
  - cbn [bind]. destruct (negb (id_vendor_id u =? 0)%Z),
      (negb (id_model_id u =? 0)%Z), (sscanf_hx3 s) as [[[a|] [b|]] c];
      eexists; eexists; split; reflexivity.
  - destruct (product u); try discriminate Es. contradiction.
Qed.

Lemma remove_is_not_add (act : list ascii) :
  strncmp_eq act (lit "remove") 6 = true ->
  strncmp_eq act (lit "add") 3 = false.
Proof.
  destruct act as [|c act]; [discriminate|].
  cbn. destruct (Ascii.eqb_spec c "r"%char) as [->|]; [|discriminate].
  reflexivity.
Qed.

(** A USB remove event that the token subsystem does not take (detach
    returns non-zero) is answered with one [container_device_deny] for every
    mapping bound to the device numbers of the event, in table order and
    with the numbers stored in the mapping; the table itself is left as it
    is (the mappings stay bound), and the event is not consumed. *)
Theorem usb_remove_denies_bound (env : Env) (u : uevent) (g : globals)
        (sub dt act path : list ascii)
        (Hsub : str_of u (subsystem u) = Some sub)
        (Hdt : str_of u (devtype u) = Some dt)
        (Hact : str_of u (action u) = Some act)
        (Hpath : str_of u (devpath u) = Some path)
        (Husb : strncmp_eq sub (lit "usb") 3 = true)
        (Hdev : strncmp_eq dt (lit "usb_device") 10 = true)
        (Hrem : strncmp_eq act (lit "remove") 6 = true)
        (Htok : cmld_token_detach env path <> 0) :
  uevent_handle_usb_device env u g
  = Some (false, g,
          ETokenDetach path
          :: map deny_of
               (filter (usb_bound u) (uevent_container_dev_mapping_list g))).
Proof.
  unfold uevent_handle_usb_device, bind, lift, ret, Router.get, put, emit.
  rewrite Hsub, Hdt, Husb, Hdev, Hact, Hrem. cbn [negb orb].
  rewrite Hpath. cbv beta iota.
  destruct (Z.eqb_spec (cmld_token_detach env path) 0) as [E|_];
    [contradiction|].
  cbv beta iota. rewrite usb_deny_loop_spec. rewrite (remove_is_not_add act Hrem).
  cbn [app]. rewrite !app_nil_r. reflexivity.
Qed.

Lemma usb_remove_denies_bound_witness :
  uevent_handle_usb_device Scenario.world (Samples.parsed Samples.usb_remove_msg)
    Samples.usb_bound_table
  = Some (false, Samples.usb_bound_table,
          ETokenDetach (lit Scenario.usb_devpath)
          :: map deny_of
               (filter (usb_bound (Samples.parsed Samples.usb_remove_msg))
                  (uevent_container_dev_mapping_list Samples.usb_bound_table))).
Proof.
  apply (usb_remove_denies_bound Scenario.world (Samples.parsed Samples.usb_remove_msg)
           Samples.usb_bound_table (lit "usb") (lit "usb_device")
           (lit "remove") (lit Scenario.usb_devpath)).
  - vm_compute. reflexivity.
  - vm_compute. reflexivity.
  - vm_compute. reflexivity.
  - vm_compute. reflexivity.
  - reflexivity.
  - reflexivity.
  - reflexivity.
  - vm_compute. discriminate.
Defined.

(** A USB add event whose serial file can be read and that the token
    subsystem does not take: every mapping of the table whose vendor,
    product and serial are those of the event gets the device numbers of
    the event, every other mapping and the order of the table stay, and
    [container_device_allow] is called once per matching mapping, in table
    order, with the numbers of the event and the mapping's own [assign]. *)
Theorem usb_add_binds_matching (env : Env) (u : uevent) (g : globals)
        (sub dt act path content serial : list ascii) (vendor product : Z)
        (Hsub : str_of u (subsystem u) = Some sub)
        (Hdt : str_of u (devtype u) = Some dt)
        (Hact : str_of u (action u) = Some act)
        (Hpath : str_of u (devpath u) = Some path)
        (Husb : strncmp_eq sub (lit "usb") 3 = true)
        (Hdev : strncmp_eq dt (lit "usb_device") 10 = true)
        (Hrem : strncmp_eq act (lit "remove") 6 = false)
        (Hadd : strncmp_eq act (lit "add") 3 = true)
        (Hex : file_exists env (lit "/sys/" ++ path ++ lit "/serial") = true)
        (Hrd : file_read_new env (lit "/sys/" ++ path ++ lit "/serial") 255
               = Some content)
        (Hne : cstr content <> [])
        (Hser : serial = (if Ascii.eqb (last (cstr content) NUL) "010"%char
                          then removelast (cstr content) else cstr content))
        (Htok : cmld_token_attach env serial path <> 0)
        (Hv : uevent_get_usb_vendor u = Some vendor)
        (Hp : uevent_get_usb_product u = Some product) :
  uevent_handle_usb_device env u g
  = Some (false,
          set_dev_list
            (map (fun m => if usb_matches vendor product serial m
                           then usb_bind u m else m)
               (uevent_container_dev_mapping_list g)) g,
          ETokenAttach serial path
          :: map (allow_of u)
               (filter (usb_matches vendor product serial)
                  (uevent_container_dev_mapping_list g))).
Proof.
  rewrite (usb_add_dispatch env u g sub dt act path content serial)
    by assumption.
  rewrite (usb_allow_loop_spec u serial vendor product Hv Hp). reflexivity.
Qed.

Lemma usb_add_binds_matching_witness :
  uevent_handle_usb_device Scenario.world (Samples.parsed Scenario.usb_add_msg)
    Scenario.twice_registered
  = Some (false,
          set_dev_list
            (map (fun m => if usb_matches 7531 2 Scenario.usb_serial m
                           then usb_bind (Samples.parsed Scenario.usb_add_msg) m
                           else m)
               (uevent_container_dev_mapping_list Scenario.twice_registered))
            Scenario.twice_registered,
          ETokenAttach Scenario.usb_serial (lit Scenario.usb_devpath)
          :: map (allow_of (Samples.parsed Scenario.usb_add_msg))
               (filter (usb_matches 7531 2 Scenario.usb_serial)
                  (uevent_container_dev_mapping_list Scenario.twice_registered))).
Proof.
  apply (usb_add_binds_matching Scenario.world (Samples.parsed Scenario.usb_add_msg)
           Scenario.twice_registered (lit "usb") (lit "usb_device")
           (lit "add") (lit Scenario.usb_devpath) Scenario.usb_serial_file
           Scenario.usb_serial 7531 2).
  - vm_compute. reflexivity.
  - vm_compute. reflexivity.
  - vm_compute. reflexivity.
  - vm_compute. reflexivity.
  - reflexivity.
  - reflexivity.
  - reflexivity.
  - reflexivity.
  - vm_compute. reflexivity.
  - vm_compute. reflexivity.
  - vm_compute. discriminate.
  - vm_compute. reflexivity.
  - vm_compute. discriminate.
  - vm_compute. reflexivity.
  - vm_compute. reflexivity.
Defined.

(** The USB dispatcher reports an event as consumed only when the token
    subsystem took it: either [cmld_token_detach] returned 0 for the devpath
    of a remove event, or [cmld_token_attach] returned 0 for the serial and
    devpath of an add event.  In both cases that call is the only effect:
    the table is unchanged and no cgroup rule is touched. *)
Theorem usb_consumed_only_by_token (env : Env) (u : uevent)
        (g g' : globals) (effs : list effect)
        (Hrun : uevent_handle_usb_device env u g = Some (true, g', effs)) :
  g' = g
  /\ ((exists path,
         str_of u (devpath u) = Some path
         /\ cmld_token_detach env path = 0
         /\ effs = [ETokenDetach path])
      \/ (exists serial path,
            str_of u (devpath u) = Some path
            /\ cmld_token_attach env serial path = 0
            /\ effs = [ETokenAttach serial path])).
Proof.
  unfold uevent_handle_usb_device, bind, lift, ret, Router.get, put, emit in Hrun.
  destruct (str_of u (subsystem u)) as [sub|]; [|discriminate].
  destruct (str_of u (devtype u)) as [dt|]; [|discriminate].
  destruct (negb (strncmp_eq sub (lit "usb") 3)
            || negb (strncmp_eq dt (lit "usb_device") 10)); [discriminate|].
  destruct (str_of u (action u)) as [act|]; [|discriminate].
  destruct (strncmp_eq act (lit "remove") 6) eqn:Hrem.
  - rewrite (remove_is_not_add act Hrem) in Hrun.
    destruct (str_of u (devpath u)) as [path|]; cbv beta iota in Hrun.
    + destruct (Z.eqb_spec (cmld_token_detach env path) 0) as [E|E];
        cbv beta iota in Hrun.
      * injection Hrun as <- <-. split; [reflexivity|].
        left. exists path. repeat split; assumption.
      * rewrite usb_deny_loop_spec in Hrun. discriminate.
    + rewrite usb_deny_loop_spec in Hrun. discriminate.
  - destruct (strncmp_eq act (lit "add") 3); [|discriminate].
    destruct (str_of u (devpath u)) as [path|]; [|discriminate].
    destruct (file_exists env (lit "/sys/" ++ path ++ lit "/serial"));
      [|discriminate].
    destruct (file_read_new env (lit "/sys/" ++ path ++ lit "/serial") 255)
      as [content|]; [|discriminate].
    cbn [option_map] in Hrun.
    destruct (cstr content) as [|c s]; [discriminate|].
    match type of Hrun with
    | context [cmld_token_attach env ?ser path] =>
        destruct (Z.eqb_spec (cmld_token_attach env ser path) 0) as [E|E];
        [ injection Hrun as <- <-; split; [reflexivity|];
          right; exists ser, path; repeat split; assumption
        | ]
    end.
    match type of Hrun with
    | context [usb_allow_loop ?a ?b ?c ?d] =>
        destruct (usb_allow_loop a b c d) as [[[l g1] e1]|]; discriminate
    end.
Qed.

Lemma usb_consumed_only_by_token_witness :
  Scenario.usb_registered = Scenario.usb_registered
  /\ ((exists path,
         str_of (Samples.parsed Scenario.usb_add_msg)
           (devpath (Samples.parsed Scenario.usb_add_msg)) = Some path
         /\ cmld_token_detach Samples.token_world path = 0
         /\ [ETokenAttach Scenario.usb_serial (lit Scenario.usb_devpath)]
            = [ETokenDetach path])
      \/ (exists serial path,
            str_of (Samples.parsed Scenario.usb_add_msg)
              (devpath (Samples.parsed Scenario.usb_add_msg)) = Some path
            /\ cmld_token_attach Samples.token_world serial path = 0
            /\ [ETokenAttach Scenario.usb_serial (lit Scenario.usb_devpath)]
               = [ETokenAttach serial path])).
Proof.
  apply (usb_consumed_only_by_token Samples.token_world
           (Samples.parsed Scenario.usb_add_msg)).
  vm_compute. reflexivity.
Defined.

Lemma bind_keeps_identity (u : uevent) (test : dev_mapping -> bool)
      (l : list dev_mapping) :
  map cell_identity (map (fun m => if test m then usb_bind u m else m) l)
  = map cell_identity l.
Proof.
  rewrite map_map. apply map_ext. intros m. destruct (test m); reflexivity.
Qed.

Lemma usb_allow_loop_shape (u : uevent) (serial : list ascii)
      (l l' : list dev_mapping) (g g' : globals) (effs : list effect) :
  usb_allow_loop u serial l g = Some (l', g', effs) ->
  g' = g
  /\ exists test : dev_mapping -> bool,
       l' = map (fun m => if test m then usb_bind u m else m) l
       /\ effs = map (allow_of u) (filter test l).
Proof.
  intros H.
  destruct (uevent_get_usb_vendor u) as [v|] eqn:Ev;
    [destruct (uevent_get_usb_product u) as [p|] eqn:Ep|].
  - rewrite (usb_allow_loop_spec u serial v p Ev Ep) in H.
    injection H as <- <- <-. split; [reflexivity|].
    exists (usb_matches v p serial). split; reflexivity.
  - destruct l as [|m l].
    + injection H as <- <- <-. split; [reflexivity|].
      exists (fun _ => false). split; reflexivity.
    + cbn [usb_allow_loop] in H. unfold bind, lift in H.
      rewrite Ev, Ep in H. discriminate.
  - destruct l as [|m l].
    + injection H as <- <- <-. split; [reflexivity|].
      exists (fun _ => false). split; reflexivity.
    + cbn [usb_allow_loop] in H. unfold bind, lift in H.
      rewrite Ev in H. discriminate.
Qed.

Lemma deny_carries_no_allow (l : list dev_mapping) :
  forallb allow_flag_false (map deny_of l) = true.
Proof. induction l as [|m l IH]; [reflexivity|exact IH]. Qed.

(** What a run of the USB dispatcher can be: either the table is left as
    it is and nothing is allowed, or it is the add path with its loop over
    the table. *)
Lemma usb_handler_shape (env : Env) (u : uevent) (g g' : globals) (b : bool)
      (effs : list effect) :
  uevent_handle_usb_device env u g = Some (b, g', effs) ->
  (g' = g /\ forallb allow_flag_false effs = true)
  \/ (exists serial path (test : dev_mapping -> bool),
        g' = set_dev_list
               (map (fun m => if test m then usb_bind u m else m)
                  (uevent_container_dev_mapping_list g)) g
        /\ effs = ETokenAttach serial path
                  :: map (allow_of u)
                       (filter test (uevent_container_dev_mapping_list g))).
Proof.
  intros Hrun.
  unfold uevent_handle_usb_device, bind, lift, ret, Router.get, put, emit in Hrun.
  destruct (str_of u (subsystem u)) as [sub|]; [|discriminate].
  destruct (str_of u (devtype u)) as [dt|]; [|discriminate].
  destruct (negb (strncmp_eq sub (lit "usb") 3)
            || negb (strncmp_eq dt (lit "usb_device") 10)).
  { injection Hrun as <- <- <-. left. split; reflexivity. }
  destruct (str_of u (action u)) as [act|]; [|discriminate].
  destruct (strncmp_eq act (lit "remove") 6) eqn:Hrem.
  - rewrite (remove_is_not_add act Hrem) in Hrun.
    destruct (str_of u (devpath u)) as [path|]; cbv beta iota in Hrun.
    + destruct (Z.eqb_spec (cmld_token_detach env path) 0) as [E|E];
        cbv beta iota in Hrun.
      * injection Hrun as <- <- <-. left. split; reflexivity.
      * rewrite usb_deny_loop_spec in Hrun. injection Hrun as <- <- <-.
        left. split; [reflexivity|]. cbn [app]. rewrite !app_nil_r.
        cbn [forallb allow_flag_false andb]. apply deny_carries_no_allow.
    + rewrite usb_deny_loop_spec in Hrun. injection Hrun as <- <- <-.
      left. split; [reflexivity|]. cbn [app]. rewrite !app_nil_r.
      apply deny_carries_no_allow.
  - destruct (strncmp_eq act (lit "add") 3).
    2:{ injection Hrun as <- <- <-. left. split; reflexivity. }
    destruct (str_of u (devpath u)) as [path|]; [|discriminate].
    destruct (file_exists env (lit "/sys/" ++ path ++ lit "/serial")).
    2:{ injection Hrun as <- <- <-. left. split; reflexivity. }
    destruct (file_read_new env (lit "/sys/" ++ path ++ lit "/serial") 255)
      as [content|].
    2:{ injection Hrun as <- <- <-. left. split; reflexivity. }
    cbn [option_map] in Hrun.
    destruct (cstr content) as [|c s].
    { injection Hrun as <- <- <-. left. split; reflexivity. }
    match type of Hrun with
    | context [cmld_token_attach env ?ser path] =>
        destruct (Z.eqb_spec (cmld_token_attach env ser path) 0) as [E|E];
        [ injection Hrun as <- <- <-; left; split; reflexivity | ];
        destruct (usb_allow_loop u ser (uevent_container_dev_mapping_list g) g)
          as [[[l g1] e1]|] eqn:El; [|discriminate];
        injection Hrun as <- <- <-;
        destruct (usb_allow_loop_shape _ _ _ _ _ _ _ El) as [_ [test [-> ->]]];
        right; exists ser, path, test; split; [reflexivity|];
        cbn [app]; rewrite !app_nil_r; reflexivity
    end.
Qed.

(** The mapping built by [uevent_container_dev_mapping_new] is zeroed and
    its own [assign] is never written: whatever the registered device asks
    for, no mapping of the table ever has [assign] set.  This holds for the
    empty table and is kept by registering, by unregistering and by the USB
    dispatcher; and so every [container_device_allow] the dispatcher makes
    carries [assign = false]. *)
Theorem mappings_stay_unassigned :
  all_unassigned globals_init = true
  /\ (forall g c dev,
        all_unassigned g = true ->
        all_unassigned (snd (uevent_register_usbdevice g c dev)) = true)
  /\ (forall g c dev,
        all_unassigned g = true ->
        all_unassigned (snd (uevent_unregister_usbdevice g c dev)) = true)
  /\ (forall env u g b g' effs,
        all_unassigned g = true ->
        uevent_handle_usb_device env u g = Some (b, g', effs) ->
        all_unassigned g' = true /\ forallb allow_flag_false effs = true).
Proof.
  split; [reflexivity|]. split; [|split].
  - intros g c dev H. unfold all_unassigned in *.
    unfold uevent_register_usbdevice. cbn [snd].
    rewrite TableFacts.dev_list_set. unfold list_append.
    rewrite forallb_app, H. reflexivity.
  - intros g c dev H. unfold all_unassigned in *.
    unfold uevent_unregister_usbdevice.
    destruct (last_match _ _) as [m|]; [|exact H].
    cbn [snd]. rewrite TableFacts.dev_list_set.
    induction (uevent_container_dev_mapping_list g) as [|x l IH];
      [reflexivity|].
    cbn [forallb] in H. apply andb_true_iff in H. destruct H as [Hx Hl].
    cbn [list_remove]. destruct (Nat.eqb (addr x) (addr m)); [exact Hl|].
    cbn [forallb]. rewrite Hx. exact (IH Hl).
  - intros env u g b g' effs H Hrun.
    destruct (usb_handler_shape env u g g' b effs Hrun)
      as [[-> Heffs]|(serial & path & test & -> & ->)].
    + split; assumption.
    + unfold all_unassigned in *. rewrite TableFacts.dev_list_set.
      rewrite forallb_forall in H. split.
      * apply forallb_forall. intros m Hm. apply in_map_iff in Hm.
        destruct Hm as [m0 [<- Hm0]].
        destruct (test m0); [|exact (H m0 Hm0)].
        exact (H m0 Hm0).
      * cbn [forallb allow_flag_false andb]. apply forallb_forall.
        intros e He. apply in_map_iff in He. destruct He as [m0 [<- Hm0]].
        apply filter_In in Hm0. exact (H m0 (proj1 Hm0)).
Qed.

End UsbFacts.

(** ** The dispatcher and the projection into containers *)

Module DispatchFacts.
Import CStr Frame Ext Tables Router View RouterSpec CodecFacts ParserFacts
       RouterFacts UsbFacts.
Local Open Scope string_scope.

Section Inv.

Variable R : globals -> globals -> Prop.
Variable E : effect -> bool.
Hypothesis R_refl : forall g, R g g.
Hypothesis R_trans : forall a b c, R a b -> R b c -> R a c.
Hypothesis R_numbers : forall g l,
  map cell_identity l = map cell_identity (uevent_container_dev_mapping_list g) ->
  R g (set_dev_list l g).
Hypothesis E_log : forall e, is_log e = true -> E e = true.
Hypothesis E_container : forall e, touches_container e = true -> E e = true.
Hypothesis E_quiet : forall e,
  moves_nic e = false -> changes_policy e = false -> E e = true.
Hypothesis E_policy : forall e, changes_policy e = true -> E e = true.

Lemma inv_ret (A : Type) (a : A) : inv R E (ret a).
Proof.
  intros g r g' effs H. injection H as <- <- <-. split; [apply R_refl|reflexivity].
Qed.

Lemma inv_lift (A : Type) (o : option A) : inv R E (lift o).
Proof.
  intros g r g' effs H. unfold lift in H. destruct o; [|discriminate].
  injection H as <- <- <-. split; [apply R_refl|reflexivity].
Qed.

Lemma inv_get : inv R E Router.get.
Proof.
  intros g r g' effs H. injection H as <- <- <-. split; [apply R_refl|reflexivity].
Qed.

Lemma inv_emit (e : effect) :
  moves_nic e = false -> changes_policy e = false -> inv R E (emit e).
Proof.
  intros H1 H2 g r g' effs H. injection H as <- <- <-.
  split; [apply R_refl|]. cbn. rewrite (E_quiet e H1 H2). reflexivity.
Qed.

Lemma inv_emit_log (e : effect) : is_log e = true -> inv R E (emit e).
Proof.
  intros H1 g r g' effs H. injection H as <- <- <-.
  split; [apply R_refl|]. cbn. rewrite (E_log e H1). reflexivity.
Qed.

Lemma inv_emit_container (e : effect) :
  touches_container e = true -> inv R E (emit e).
Proof.
  intros H1 g r g' effs H. injection H as <- <- <-.
  split; [apply R_refl|]. cbn. rewrite (E_container e H1). reflexivity.
Qed.

Lemma inv_emit_policy (e : effect) :
  changes_policy e = true -> inv R E (emit e).
Proof.
  intros H1 g r g' effs H. injection H as <- <- <-.
  split; [apply R_refl|]. cbn. rewrite (E_policy e H1). reflexivity.
Qed.

Lemma inv_bind (A B : Type) (m : M A) (k : A -> M B) :
  inv R E m -> (forall a, inv R E (k a)) -> inv R E (bind m k).
Proof.
  intros Hm Hk g r g' effs H. unfold bind in H.
  destruct (m g) as [[[a g1] e1]|] eqn:Em; [|discriminate].
  destruct (k a g1) as [[[b g2] e2]|] eqn:Ek; [|discriminate].
  injection H as <- <- <-.
  destruct (Hm _ _ _ _ Em) as [R1 F1]. destruct (Hk a _ _ _ _ Ek) as [R2 F2].
  split; [exact (R_trans _ _ _ R1 R2)|].
  rewrite forallb_app, F1, F2. reflexivity.
Qed.

Ltac inv_step :=
  lazymatch goal with
  | |- inv _ _ (bind _ _) => apply inv_bind; [|intro]
  | |- inv _ _ (ret _) => apply inv_ret
  | |- inv _ _ (lift _) => apply inv_lift
  | |- inv _ _ (emit _) =>
      first [ apply inv_emit_log; reflexivity
            | apply inv_emit_container; reflexivity
            | apply inv_emit_policy; reflexivity
            | apply inv_emit; reflexivity ]
  | |- inv _ _ Router.get => apply inv_get
  | |- inv _ _ (if ?c then _ else _) => destruct c
  | |- inv _ _ (match ?c with _ => _ end) => destruct c
  end.

Lemma inject_inv (env : Env) (buf : list ascii) (size pid : Z) (join : bool) :
  inv R E (uevent_inject_into_netns env buf size pid join).
Proof. unfold uevent_inject_into_netns. repeat inv_step. Qed.

Lemma create_inv (env : Env) (u : uevent) (path : list ascii) (c : container_t) :
  inv R E (uevent_create_device_node env u path c).
Proof. unfold uevent_create_device_node. cbv zeta. repeat inv_step. Qed.

Lemma forward_inv (env : Env) (u : uevent) (c : container_t) :
  inv R E (uevent_device_node_and_forward env u c).
Proof.
  unfold uevent_device_node_and_forward. cbv zeta.
  repeat first [apply create_inv | apply inject_inv | inv_step].
Qed.

Lemma forward_all_inv (env : Env) (u : uevent) (l : list container_t) :
  inv R E (forward_all env u l).
Proof.
  induction l as [|c l IH]; cbn [forward_all]; [apply inv_ret|].
  apply inv_bind; [apply forward_inv|intros _; exact IH].
Qed.

Lemma deny_inv (u : uevent) (l : list dev_mapping) : inv R E (usb_deny_loop u l).
Proof.
  induction l as [|m l IH]; cbn [usb_deny_loop]; [apply inv_ret|].
  apply inv_bind; [|intros _; exact IH]. repeat inv_step.
Qed.

Lemma allow_tail_inv (u : uevent) (serial : list ascii) :
  inv R E (bind Router.get (fun g =>
            bind (usb_allow_loop u serial (uevent_container_dev_mapping_list g))
                 (fun l => bind (put (set_dev_list l g)) (fun _ => ret false)))).
Proof.
  intros g r g' effs H. unfold bind, Router.get, put, ret in H.
  destruct (usb_allow_loop u serial (uevent_container_dev_mapping_list g) g)
    as [[[l g1] e1]|] eqn:El; [|discriminate].
  injection H as <- <- <-.
  destruct (usb_allow_loop_shape _ _ _ _ _ _ _ El) as [_ [test [-> ->]]].
  split.
  - apply R_numbers. apply bind_keeps_identity.
  - cbn [app]. rewrite !app_nil_r. apply forallb_forall. intros e He.
    apply in_map_iff in He. destruct He as [m [<- _]].
    apply E_policy. reflexivity.
Qed.

Lemma usb_handler_inv (env : Env) (u : uevent) :
  inv R E (uevent_handle_usb_device env u).
Proof.
  unfold uevent_handle_usb_device. cbv zeta.
  repeat first [apply allow_tail_inv | apply deny_inv | inv_step].
Qed.

Lemma kernel_inv (order : byte_order) (env : Env) (uev : uevent) (p : nat) :
  inv R E (handle_kernel_event order env uev p).
Proof.
  unfold handle_kernel_event.
  repeat first [apply usb_handler_inv | apply forward_inv
               | apply forward_all_inv | inv_step].
Qed.

Lemma handle_inv (order : byte_order) (env : Env) (ret_recv : Z)
      (data : list ascii) :
  inv R E (uevent_handle order env ret_recv data).
Proof.
  unfold uevent_handle, handle_udev_event. cbv zeta.
  repeat first [apply kernel_inv | inv_step].
Qed.

End Inv.

Lemma same_but_numbers_refl (g : globals) : same_but_numbers g g.
Proof. unfold same_but_numbers. tauto. Qed.

Lemma same_but_numbers_trans (a b c : globals) :
  same_but_numbers a b -> same_but_numbers b c -> same_but_numbers a c.
Proof.
  unfold same_but_numbers.
  intros (A1 & A2 & A3 & A4 & A5 & A6) (B1 & B2 & B3 & B4 & B5 & B6).
  repeat split; congruence.
Qed.

Lemma same_but_numbers_set (g : globals) (l : list dev_mapping) :
  map cell_identity l = map cell_identity (uevent_container_dev_mapping_list g) ->
  same_but_numbers g (set_dev_list l g).
Proof. intros H. unfold same_but_numbers. repeat split. exact H. Qed.

Lemma policy_moves_no_nic (e : effect) :
  changes_policy e = true -> negb (moves_nic e) = true.
Proof. destruct e; cbn; intros H; try reflexivity; discriminate H. Qed.

Lemma log_moves_no_nic (e : effect) :
  is_log e = true -> negb (moves_nic e) = true.
Proof. destruct e; cbn; intros H; try reflexivity; discriminate H. Qed.

Lemma container_moves_no_nic (e : effect) :
  touches_container e = true -> negb (moves_nic e) = true.
Proof. destruct e; cbn; intros H; try reflexivity; discriminate H. Qed.

Lemma container_or_log_is_quiet (e : effect) :
  touches_container e || is_log e = true ->
  negb (moves_nic e) && negb (changes_policy e) = true.
Proof. destruct e; cbn; intros H; try reflexivity; discriminate H. Qed.

(** Whatever [uevent_handle] receives and whatever the collaborators
    answer, when it returns the socket, its watcher, the table of network
    mappings and the two interface counters are what they were, and the USB
    table has the same cells in the same order with the same container,
    vendor, product, serial and flags: only device numbers of USB mappings
    can have changed.  No interface is renamed, taken from cmld's list or
    attached to a container, and no timer is ended. *)
Theorem handle_keeps_tables (order : byte_order) (env : Env) (ret_recv : Z)
        (data : list ascii) (g g' : globals) (r : unit) (effs : list effect)
        (Hrun : uevent_handle order env ret_recv data g = Some (r, g', effs)) :
  same_but_numbers g g'
  /\ forallb (fun e => negb (moves_nic e)) effs = true.
Proof.
  assert (Hinv : inv same_but_numbers (fun e => negb (moves_nic e))
                   (uevent_handle order env ret_recv data)).
  { apply handle_inv.
    - exact same_but_numbers_refl.
    - exact same_but_numbers_trans.
    - exact same_but_numbers_set.
    - exact log_moves_no_nic.
    - exact container_moves_no_nic.
    - intros e H _. rewrite H. reflexivity.
    - exact policy_moves_no_nic. }
  exact (Hinv g r g' effs Hrun).
Qed.

Lemma handle_keeps_tables_witness :
  same_but_numbers Scenario.twice_registered (snd (fst Samples.usb_handled))
  /\ forallb (fun e => negb (moves_nic e)) (snd Samples.usb_handled) = true.
Proof.
  apply (handle_keeps_tables LittleEndian Scenario.world
           (Z.of_nat (length Scenario.usb_add_msg)) Scenario.usb_add_msg
           Scenario.twice_registered (snd (fst Samples.usb_handled))
           (fst (fst Samples.usb_handled)) (snd Samples.usb_handled)).
  vm_compute. reflexivity.
Defined.

(** The projection of an event into a container leaves the globals as
    they are, and every effect of it is one on the container's file system
    (mkdir, mknod, id shift, unlink), the fork of the injector or a message
    of the log.  So it touches neither a network interface nor the cgroup
    device policy. *)
Theorem forward_keeps_globals (env : Env) (u : uevent) (c : container_t)
        (g g' : globals) (r : unit) (effs : list effect)
        (Hrun : uevent_device_node_and_forward env u c g = Some (r, g', effs)) :
  g' = g
  /\ forallb (fun e => touches_container e || is_log e) effs = true
  /\ forallb (fun e => negb (moves_nic e) && negb (changes_policy e)) effs
     = true.
Proof.
  assert (Hinv : inv (fun a b => b = a)
                   (fun e => touches_container e || is_log e)
                   (uevent_device_node_and_forward env u c)).
  { apply forward_inv.
    - reflexivity.
    - intros a b d -> ->. reflexivity.
    - intros e H. rewrite H. apply orb_true_r.
    - intros e H. rewrite H. reflexivity. }
  destruct (Hinv g r g' effs Hrun) as [Hg Heffs].
  split; [exact Hg|]. split; [exact Heffs|].
  apply forallb_forall. intros e He.
  apply container_or_log_is_quiet.
  rewrite forallb_forall in Heffs. exact (Heffs e He).
Qed.

Lemma forward_keeps_globals_witness :
  snd (fst Samples.usb_forwarded) = globals_init
  /\ forallb (fun e => touches_container e || is_log e)
       (snd Samples.usb_forwarded) = true
  /\ forallb (fun e => negb (moves_nic e) && negb (changes_policy e))
       (snd Samples.usb_forwarded) = true.
Proof.
  apply (forward_keeps_globals Scenario.world
           (Samples.parsed Scenario.usb_add_msg) Scenario.c1 globals_init
           (snd (fst Samples.usb_forwarded)) (fst (fst Samples.usb_forwarded))
           (snd Samples.usb_forwarded)).
  vm_compute. reflexivity.
Defined.

(** An event is projected only into a container that is booting, running
    or in setup and whose cgroup allows the device: otherwise
    [uevent_device_node_and_forward] returns without any effect (no device
    node, no unlink, no injection, no message), whatever the event is. *)
Theorem forward_is_gated (env : Env) (u : uevent) (c : container_t)
        (g : globals)
        (Hgate : projectable env u c = false) :
  uevent_device_node_and_forward env u c g = Some (tt, g, []).
Proof.
  unfold projectable in Hgate. unfold uevent_device_node_and_forward. cbv zeta.
  destruct (container_state_eqb (container_get_state env c) CONTAINER_STATE_BOOTING
            || container_state_eqb (container_get_state env c) CONTAINER_STATE_RUNNING
            || container_state_eqb (container_get_state env c) CONTAINER_STATE_SETUP).
  - cbn [andb] in Hgate. rewrite Hgate. reflexivity.
  - reflexivity.
Qed.

Lemma forward_is_gated_witness :
  uevent_device_node_and_forward Samples.stopped_world
    (Samples.parsed Scenario.usb_add_msg) Scenario.c1 Scenario.usb_registered
  = Some (tt, Scenario.usb_registered, []).
Proof.
  apply (forward_is_gated Samples.stopped_world
           (Samples.parsed Scenario.usb_add_msg) Scenario.c1
           Scenario.usb_registered).
  vm_compute. reflexivity.
Defined.

(** [uevent_create_device_node] returns 0 exactly when the node is there
    (it existed, or both [dir_mkdir_p] and [mknod] succeeded) and the id
    shift succeeded, and -1 otherwise; it never changes the globals.
    [mknod] is attempted only when the path does not exist and the
    directory could be made; the id shift is attempted only once the node
    is there. *)
Theorem create_device_node_outcome (env : Env) (u : uevent)
        (path dt : list ascii) (c : container_t) (g : globals)
        (Hdt : str_of u (devtype u) = Some dt) :
  let dir_ok := negb (dir_mkdir_p env (dirname path) 493 <? 0)%Z in
  let node_ok :=
    negb (mknod env path (node_mode dt) (major u) (minor u) <? 0)%Z in
  let shift_ok := negb (container_shift_ids env c path false <? 0)%Z in
  let there := file_exists env path || dir_ok && node_ok in
  exists effs,
    uevent_create_device_node env u path c g
    = Some (if there && shift_ok then 0 else -1, g, effs)
    /\ existsb is_mknod effs = negb (file_exists env path) && dir_ok
    /\ existsb is_shift_ids effs = there.
Proof.
  cbv zeta. unfold uevent_create_device_node, node_mode, bind, emit, ret, lift.
  rewrite Hdt.
  destruct (file_exists env path);
    destruct (container_shift_ids env c path false <? 0)%Z;
    destruct (dir_mkdir_p env (dirname path) 493 <? 0)%Z;
    destruct (mknod env path
                (if strcmp_eq dt (lit "disk") then S_IFBLK else S_IFCHR)
                (major u) (minor u) <? 0)%Z;
    eexists; (split; [reflexivity|split; reflexivity]).
Qed.

Lemma create_device_node_outcome_witness :
  exists effs,
    uevent_create_device_node Scenario.world
      (Samples.parsed Scenario.usb_add_msg) Samples.usb_node_path Scenario.c1
      globals_init
    = Some (0, globals_init, effs)
    /\ existsb is_mknod effs = true
    /\ existsb is_shift_ids effs = true.
Proof.
  apply (create_device_node_outcome Scenario.world
           (Samples.parsed Scenario.usb_add_msg) Samples.usb_node_path
           (lit "usb_device") Scenario.c1 globals_init).
  vm_compute. reflexivity.
Defined.

Lemma strncmp_empty (b : list ascii) (c : ascii) (n : Z) :
  (0 < n)%Z -> strncmp_eq [] (c :: b) n = false.
Proof.
  intros H. cbn. destruct (Z.leb_spec n 0); [lia|reflexivity].
Qed.

(** The test on the result of the receive is made on the unsigned
    [msg_len]: a return of 0 is reported with the warning, but a negative
    return is a huge length, and the zeroed buffer is then taken for a
    message that is neither a udev frame nor a kernel event and dropped
    without a warning.  In both cases the globals are unchanged. *)
Theorem failed_receive_is_silent (order : byte_order) (env : Env)
        (g : globals) (ret_recv : Z) (data : list ascii)
        (Hneg : (- 2 ^ 31 <= ret_recv < 0)%Z) :
  uevent_handle order env 0 data g = Some (tt, g, [EWarn "could not read uevent"])
  /\ uevent_handle order env ret_recv [] g = Some (tt, g, []).
Proof.
  split; [reflexivity|].
  unfold uevent_handle. cbv zeta.
  change (msg_len (uevent_received [] (wrap_size_t ret_recv)))
    with (wrap_size_t ret_recv).
  assert (Hpos : (0 < wrap_size_t ret_recv)%Z).
  { unfold wrap_size_t.
    replace ret_recv with (ret_recv + 2 ^ 64 + (-1) * 2 ^ 64)%Z by lia.
    rewrite Z.mod_add by lia. rewrite Z.mod_small by lia. lia. }
  destruct (Z.leb_spec (wrap_size_t ret_recv) 0); [lia|].
  replace (cstr_at (raw (uevent_received [] (wrap_size_t ret_recv))) 0)
    with (@nil ascii) by (vm_compute; reflexivity).
  unfold UDEV_MONITOR_TAG.
  change (lit "libudev") with ("l"%char :: lit "ibudev").
  rewrite (strncmp_empty _ _ _ Hpos). reflexivity.
Qed.

Lemma failed_receive_is_silent_witness :
  uevent_handle LittleEndian Scenario.world 0 Scenario.usb_add_msg
    Scenario.usb_registered
  = Some (tt, Scenario.usb_registered, [EWarn "could not read uevent"])
  /\ uevent_handle LittleEndian Scenario.world (-1) [] Scenario.usb_registered
     = Some (tt, Scenario.usb_registered, []).
Proof.
  apply (failed_receive_is_silent LittleEndian Scenario.world
           Scenario.usb_registered (-1) Scenario.usb_add_msg).
  lia.
Defined.

Lemma decode_be32_range (l : list ascii) :
  (length l <= 4)%nat -> (0 <= decode_be32 l < 2 ^ 32)%Z.
Proof.
  intros H. unfold decode_be32.
  destruct l as [|a [|b [|c [|d [|e l]]]]]; simpl in *; try lia;
    try pose proof (RewriteFacts.Z_of_byte_range a);
    try pose proof (RewriteFacts.Z_of_byte_range b);
    try pose proof (RewriteFacts.Z_of_byte_range c);
    try pose proof (RewriteFacts.Z_of_byte_range d); lia.
Qed.

(** A field of the header is an unsigned 32-bit number. *)
Lemma nlh_field_range (order : byte_order) (off : nat) (raw : list ascii) :
  (0 <= nlh_field order off raw < 2 ^ 32)%Z.
Proof.
  unfold nlh_field, decode_u32, slice.
  pose proof (firstn_le_length 4 (skipn off raw)) as H.
  destruct order; apply decode_be32_range;
    try rewrite length_rev; exact H.
Qed.

(** A message with the libudev prefix that lies in the receive buffer with
    two bytes to spare, and whose header gives an offset of the properties
    that the addition of 32 does not wrap, never has an effect beyond one
    warning: whether its magic and its length are right or not,
    [uevent_handle] returns with the globals unchanged.  An accepted frame
    is only parsed, with every read in [msg.raw], and nothing is forwarded,
    created or injected. *)
Theorem udev_frames_change_nothing (order : byte_order) (env : Env)
        (g : globals) (data : list ascii)
        (Hdata : (0 < length data)%nat)
        (Hfits : (length data + 1 < UEVENT_BUF_LEN)%nat)
        (Hudev : strncmp_eq
                   (cstr_at (raw (uevent_received data
                                    (Z.of_nat (length data)))) 0)
                   UDEV_MONITOR_TAG (Z.of_nat (length data)) = true)
        (Hoff : (nlh_properties_off order
                   (raw (uevent_received data (Z.of_nat (length data)))) + 32
                 < 2 ^ 32)%Z) :
  exists effs,
    uevent_handle order env (Z.of_nat (length data)) data g
    = Some (tt, g, effs)
    /\ ((effs = []
         /\ exists v,
              Bounds.uevent_parse
                (uevent_received data (Z.of_nat (length data)))
                (Z.to_nat (nlh_properties_off order
                   (raw (uevent_received data (Z.of_nat (length data))))))
              = Bounds.Done v)
        \/ effs = [EWarn "unrecognized message signature"]
        \/ effs = [EWarn "message smaller than expected"]).
Proof.
  pose proof Hfits as Hf. unfold UEVENT_BUF_LEN in Hf.
  unfold uevent_handle. cbv zeta.
  rewrite (wrap_size_t_small (Z.of_nat (length data))) by lia.
  set (uev := uevent_received data (Z.of_nat (length data))) in *.
  change (msg_len uev) with (Z.of_nat (length data)).
  destruct (Z.leb_spec (Z.of_nat (length data)) 0); [lia|].
  rewrite Hudev.
  destruct (negb _).
  - eexists. split; [reflexivity|]. right. left. reflexivity.
  - pose proof (nlh_field_range order OFF_PROPERTIES_OFF (raw uev)) as Hr.
    fold (nlh_properties_off order (raw uev)) in Hr.
    destruct (Z.ltb_spec (Z.of_nat (length data))
                (wrap_uint32 (nlh_properties_off order (raw uev) + 32)))
      as [Hlt|Hge].
    + eexists. split; [reflexivity|]. right. right. reflexivity.
    + unfold wrap_uint32 in Hge. rewrite Z.mod_small in Hge by lia.
      destruct (BoundsFacts.checked_parse_returns uev
                  (Z.to_nat (nlh_properties_off order (raw uev))))
        as [v [Hc Hv]].
      * apply BoundsFacts.received_zero_tailed. exact Hfits.
      * pose proof (RewriteFacts.received_length data
                      (Z.of_nat (length data))) as HL.
        fold uev in HL. rewrite HL. unfold UEVENT_BUF_LEN. lia.
      * unfold handle_udev_event, bind, lift, ret. rewrite Hv.
        eexists. split; [reflexivity|]. left. split; [reflexivity|].
        exists v. exact Hc.
Qed.

Lemma udev_frames_change_nothing_witness :
  exists effs,
    uevent_handle LittleEndian Scenario.world
      (Z.of_nat (length Scenario.udev_net_msg)) Scenario.udev_net_msg
      Scenario.net_twice_registered
    = Some (tt, Scenario.net_twice_registered, effs)
    /\ ((effs = []
         /\ exists v,
              Bounds.uevent_parse
                (uevent_received Scenario.udev_net_msg
                   (Z.of_nat (length Scenario.udev_net_msg)))
                (Z.to_nat (nlh_properties_off LittleEndian
                   (raw (uevent_received Scenario.udev_net_msg
                           (Z.of_nat (length Scenario.udev_net_msg))))))
              = Bounds.Done v)
        \/ effs = [EWarn "unrecognized message signature"]
        \/ effs = [EWarn "message smaller than expected"]).
Proof.
  apply (udev_frames_change_nothing LittleEndian Scenario.world
           Scenario.net_twice_registered Scenario.udev_net_msg).
  - vm_compute. lia.
  - vm_compute. lia.
  - vm_compute. reflexivity.
  - vm_compute. reflexivity.
Defined.

(** The test of the length of a udev frame adds 32 to the offset of the
    properties in 32 bits.  For a frame with the libudev prefix and the
    right magic whose offset is 0xffffffe0 or more, the sum wraps to a
    number below 32, a message of 32 bytes or more passes the test, and
    [uevent_handle] hands [msg.raw + properties_off] to [handle_udev_event]:
    a pointer behind the buffer, at which the first read of [uevent_parse]
    falls outside of [msg.raw]. *)
Theorem udev_offset_wraps (order : byte_order) (env : Env)
        (g : globals) (data : list ascii)
        (Hlen : (32 <= length data)%nat)
        (Hfits : (length data + 1 < UEVENT_BUF_LEN)%nat)
        (Hudev : strncmp_eq
                   (cstr_at (raw (uevent_received data
                                    (Z.of_nat (length data)))) 0)
                   UDEV_MONITOR_TAG (Z.of_nat (length data)) = true)
        (Hmagic : (nlh_magic order
                     (raw (uevent_received data (Z.of_nat (length data))))
                   =? htonl order UDEV_MONITOR_MAGIC)%Z = true)
        (Hoff : (2 ^ 32 - 32
                 <= nlh_properties_off order
                      (raw (uevent_received data (Z.of_nat (length data)))))%Z) :
  uevent_handle order env (Z.of_nat (length data)) data g
  = handle_udev_event
      (uevent_received data (Z.of_nat (length data)))
      (Z.to_nat (nlh_properties_off order
         (raw (uevent_received data (Z.of_nat (length data)))))) g
  /\ Bounds.uevent_parse
       (uevent_received data (Z.of_nat (length data)))
       (Z.to_nat (nlh_properties_off order
          (raw (uevent_received data (Z.of_nat (length data))))))
     = Bounds.Outside
         (Z.to_nat (nlh_properties_off order
            (raw (uevent_received data (Z.of_nat (length data)))))).
Proof.
  pose proof Hfits as Hf. unfold UEVENT_BUF_LEN in Hf.
  set (uev := uevent_received data (Z.of_nat (length data))) in *.
  pose proof (nlh_field_range order OFF_PROPERTIES_OFF (raw uev)) as Hr.
  fold (nlh_properties_off order (raw uev)) in Hr.
  split.
  - unfold uevent_handle. cbv zeta.
    rewrite (wrap_size_t_small (Z.of_nat (length data))) by lia.
    fold uev. change (msg_len uev) with (Z.of_nat (length data)).
    destruct (Z.leb_spec (Z.of_nat (length data)) 0); [lia|].
    rewrite Hudev, Hmagic. cbn [negb].
    destruct (Z.ltb_spec (Z.of_nat (length data))
                (wrap_uint32 (nlh_properties_off order (raw uev) + 32)))
      as [Hlt|Hge]; [|reflexivity].
    exfalso. unfold wrap_uint32 in Hlt.
    replace (nlh_properties_off order (raw uev) + 32)%Z
      with (nlh_properties_off order (raw uev) + 32 - 2 ^ 32
            + 1 * 2 ^ 32)%Z in Hlt by lia.
    rewrite Z.mod_add, Z.mod_small in Hlt by lia. lia.
  - apply BoundsFacts.parse_started_outside.
    pose proof (RewriteFacts.received_length data
                  (Z.of_nat (length data))) as HL.
    fold uev in HL. rewrite HL. unfold UEVENT_BUF_LEN. lia.
Qed.

Lemma udev_offset_wraps_witness :
  uevent_handle LittleEndian Scenario.world
    (Z.of_nat (length Samples.udev_wrap_msg)) Samples.udev_wrap_msg
    Scenario.net_twice_registered
  = handle_udev_event
      (uevent_received Samples.udev_wrap_msg
         (Z.of_nat (length Samples.udev_wrap_msg)))
      (Z.to_nat (nlh_properties_off LittleEndian
         (raw (uevent_received Samples.udev_wrap_msg
                 (Z.of_nat (length Samples.udev_wrap_msg))))))
      Scenario.net_twice_registered
  /\ Bounds.uevent_parse
       (uevent_received Samples.udev_wrap_msg
          (Z.of_nat (length Samples.udev_wrap_msg)))
       (Z.to_nat (nlh_properties_off LittleEndian
          (raw (uevent_received Samples.udev_wrap_msg
                  (Z.of_nat (length Samples.udev_wrap_msg))))))
     = Bounds.Outside
         (Z.to_nat (nlh_properties_off LittleEndian
            (raw (uevent_received Samples.udev_wrap_msg
                    (Z.of_nat (length Samples.udev_wrap_msg)))))).
Proof.
  apply (udev_offset_wraps LittleEndian Scenario.world
           Scenario.net_twice_registered Samples.udev_wrap_msg).
  - vm_compute. lia.
  - vm_compute. lia.
  - vm_compute. reflexivity.
  - vm_compute. reflexivity.
  - vm_compute. discriminate.
Defined.

(** [uevent_netdev_move] never attaches an interface: for every world,
    every table and every parsed event it returns -1 with one message,
    leaves the globals as they are, and renames, attaches and injects
    nothing.  Its liveness test asks the state of the target container to
    be BOOTING, RUNNING and STARTING at once. *)
Theorem netdev_move_never_attaches (order : byte_order) (env : Env)
        (uev : uevent) (start : nat) (g : globals) :
  exists u msg,
    uevent_parse uev start = Some u
    /\ uevent_netdev_move order env u g = Some (-1, g, [msg])
    /\ (msg = EError "Iface with no mac, skipping!"
        \/ msg = EWarn "Target container is not running, skip moving").
Proof.
  destruct (uevent_parse_total uev start) as [u [Hu _]].
  destruct (value_defined MInterface uev u start Hu) as [ifname Hif].
  destruct (uevent_netdev_move_never_moves order env u g ifname Hif)
    as [msg [Hrun Hmsg]].
  exists u, msg. split; [exact Hu|]. split; assumption.
Qed.

(** The timer callback of a network interface always returns and never
    changes the globals.  Either it waits (a wlan interface whose sysfs
    entry is not ready yet: no effect, the timer stays), or it ends the
    timer after one message of [uevent_netdev_move] and the warning that
    the interface was not moved: the interface is never handed to a
    container. *)
Theorem timer_never_moves (order : byte_order) (env : Env)
        (uevent_cb : uevent) (g : globals) :
  exists u dt ifname,
    uevent_parse uevent_cb 0 = Some u
    /\ str_of u (devtype u) = Some dt
    /\ str_of u (interface u) = Some ifname
    /\ ((strcmp_eq dt (lit "wlan")
         && negb (network_interface_is_wifi env ifname) = true
         /\ uevent_sysfs_netif_timer_cb order env uevent_cb g = Some (tt, g, []))
        \/ (strcmp_eq dt (lit "wlan")
            && negb (network_interface_is_wifi env ifname) = false
            /\ exists msg,
                 uevent_sysfs_netif_timer_cb order env uevent_cb g
                 = Some (tt, g, [msg; EWarn "Did not move net interface!";
                                 ETimerRemove]))).
Proof.
  destruct (uevent_parse_total uevent_cb 0) as [u [Hu _]].
  destruct (value_defined MDevtype uevent_cb u 0 Hu) as [dt Hdt].
  destruct (value_defined MInterface uevent_cb u 0 Hu) as [ifname Hif].
  change (value MDevtype u) with (str_of u (devtype u)) in Hdt.
  change (value MInterface u) with (str_of u (interface u)) in Hif.
  exists u, dt, ifname. split; [exact Hu|]. split; [exact Hdt|].
  split; [exact Hif|].
  unfold uevent_sysfs_netif_timer_cb, bind, lift, ret, emit.
  rewrite Hu, Hdt, Hif.
  destruct (strcmp_eq dt (lit "wlan")
            && negb (network_interface_is_wifi env ifname)).
  - left. split; reflexivity.
  - right. split; [reflexivity|].
    destruct (uevent_netdev_move_never_moves order env u g ifname Hif)
      as [msg [Hrun _]].
    rewrite Hrun. exists msg. reflexivity.
Qed.

End DispatchFacts.

(** ** The tables, again *)

Module RegistryFacts.
Import CStr Frame Ext Tables Router RouterSpec TableFacts DispatchFacts.

Section Lists.

Context {A : Type}.
Variable ptr : A -> nat.
Variable test : A -> bool.

Lemma last_match_some (l : list A) (m : A) :
  last_match test l = Some m -> In m l /\ test m = true.
Proof.
  induction l as [|x l IH] using rev_ind; [discriminate|].
  unfold last_match. rewrite fold_left_app. cbn [fold_left].
  fold (last_match test l). destruct (test x) eqn:Ex; intros H.
  - injection H as <-. split; [|exact Ex].
    apply in_or_app. right. now left.
  - destruct (IH H) as [Hin Ht]. split; [|exact Ht].
    apply in_or_app. now left.
Qed.

Lemma last_match_found (l : list A) (x : A) :
  In x l -> test x = true -> exists m, last_match test l = Some m.
Proof.
  intros Hin Hx. destruct (last_match test l) as [m|] eqn:E.
  - exists m. reflexivity.
  - exfalso. clear -Hin Hx E. revert E.
    induction l as [|y l IH] using rev_ind; [contradiction|].
    unfold last_match. rewrite fold_left_app. cbn [fold_left].
    fold (last_match test l). destruct (test y) eqn:Ey; [discriminate|].
    intros E. apply in_app_or in Hin. destruct Hin as [Hin|[->|[]]].
    + exact (IH Hin E).
    + congruence.
Qed.

End Lists.

Section Removal.

Context {A : Type}.
Variable ptr : A -> nat.

Lemma list_remove_incl (l : list A) (p : nat) (x : A) :
  In x (list_remove ptr l p) -> In x l.
Proof.
  induction l as [|y l IH]; cbn [list_remove]; [tauto|].
  destruct (Nat.eqb (ptr y) p).
  - intros H. now right.
  - intros [H|H]; [now left|right; exact (IH H)].
Qed.

Lemma list_remove_distinct_l (l : list A) (p : nat) (k : list nat) :
  NoDup (map ptr l ++ k) -> NoDup (map ptr (list_remove ptr l p) ++ k).
Proof.
  induction l as [|y l IH]; cbn [list_remove map app]; [tauto|].
  intros Hnd. inversion Hnd as [|? ? Hnotin Hnd']; subst.
  destruct (Nat.eqb (ptr y) p); [exact Hnd'|].
  cbn [map app]. constructor; [|exact (IH Hnd')].
  intros Hin. apply Hnotin. apply in_app_or in Hin. apply in_or_app.
  destruct Hin as [Hin|Hin]; [left|now right].
  apply in_map_iff in Hin. destruct Hin as [z [Hz Hin]].
  apply in_map_iff. exists z. split; [exact Hz|].
  exact (list_remove_incl l p z Hin).
Qed.

Lemma list_remove_distinct_r (l : list A) (p : nat) (k : list nat) :
  NoDup (k ++ map ptr l) -> NoDup (k ++ map ptr (list_remove ptr l p)).
Proof.
  induction k as [|y k IH]; cbn [app].
  - intros Hnd. rewrite <- (app_nil_r (map ptr l)) in Hnd.
    rewrite <- (app_nil_r (map ptr (list_remove ptr l p))).
    exact (list_remove_distinct_l l p [] Hnd).
  - intros Hnd. inversion Hnd as [|? ? Hnotin Hnd']; subst.
    constructor; [|exact (IH Hnd')].
    intros Hin. apply Hnotin. apply in_app_or in Hin. apply in_or_app.
    destruct Hin as [Hin|Hin]; [now left|right].
    apply in_map_iff in Hin. destruct Hin as [z [Hz Hin]].
    apply in_map_iff. exists z. split; [exact Hz|].
    exact (list_remove_incl l p z Hin).
Qed.

End Removal.

Lemma distinct_insert (l1 l2 : list nat) (x : nat) :
  NoDup (l1 ++ l2) -> ~ In x (l1 ++ l2) -> NoDup (l1 ++ x :: l2).
Proof.
  induction l1 as [|y l1 IH]; cbn [app]; intros Hnd Hx.
  - now constructor.
  - inversion Hnd as [|? ? Hnotin Hnd']; subst. constructor.
    + intros Hin. apply in_app_or in Hin.
      destruct Hin as [Hin|[->|Hin]].
      * apply Hnotin. apply in_or_app. now left.
      * apply Hx. now left.
      * apply Hnotin. apply in_or_app. now right.
    + apply IH; [exact Hnd'|]. intros Hin. apply Hx. now right.
Qed.

Lemma mem_new0_fresh (g : globals) : ~ In (mem_new0 g) (live g).
Proof.
  intros Hin. apply list_max_ge in Hin. unfold mem_new0 in Hin. lia.
Qed.

(** The calls on the tables that fail change nothing.  Unregistering
    returns -1 exactly when no mapping of the table has the container and
    the identity asked for, and registering a network mapping returns -1
    exactly when the name of its configuration is no MAC address; in each
    of these cases the globals are left as they were.  Every other call
    returns 0. *)
Theorem failed_table_calls_change_nothing (env : Env) (g : globals)
        (c : container_t) (dev : Usbdev.uevent_usbdev) (m6 : mac_addr)
        (cfg : container_pnet_cfg) :
  let usb := uevent_unregister_usbdevice g c dev in
  let net := uevent_unregister_netdev g c m6 in
  let reg := uevent_register_netdev env g c cfg in
  (fst usb = -1 <->
   forall m, In m (uevent_container_dev_mapping_list g) ->
             dev_mapping_matches c dev m = false)
  /\ (fst usb = -1 -> snd usb = g) /\ (fst usb = 0 \/ fst usb = -1)
  /\ (fst net = -1 <->
      forall m, In m (uevent_container_netdev_mapping_list g) ->
                netdev_mapping_matches c m6 m = false)
  /\ (fst net = -1 -> snd net = g) /\ (fst net = 0 \/ fst net = -1)
  /\ (fst reg = -1 <-> network_str_to_mac_addr env (pnet_name cfg) = None)
  /\ (fst reg = -1 -> snd reg = g) /\ (fst reg = 0 \/ fst reg = -1).
Proof.
  cbv zeta.
  unfold uevent_unregister_usbdevice, uevent_unregister_netdev,
    uevent_register_netdev, uevent_container_netdev_mapping_new.
  split; [|split; [|split; [|split; [|split; [|split; [|split; [|split]]]]]]].
  - destruct (last_match _ (uevent_container_dev_mapping_list g)) as [m|] eqn:E;
      cbn [fst]; split; intros H; try reflexivity; try discriminate.
    + apply last_match_some in E. destruct E as [Hin Hm].
      rewrite (H m Hin) in Hm. discriminate.
    + intros m Hin. destruct (dev_mapping_matches c dev m) eqn:Hm;
        [|reflexivity].
      destruct (last_match_found _ _ m Hin Hm) as [m' Hm']. congruence.
  - destruct (last_match _ (uevent_container_dev_mapping_list g));
      cbn [fst snd]; intros H; [discriminate|reflexivity].
  - destruct (last_match _ (uevent_container_dev_mapping_list g));
      cbn [fst]; [left|right]; reflexivity.
  - destruct (last_match _ (uevent_container_netdev_mapping_list g)) as [m|] eqn:E;
      cbn [fst]; split; intros H; try reflexivity; try discriminate.
    + apply last_match_some in E. destruct E as [Hin Hm].
      rewrite (H m Hin) in Hm. discriminate.
    + intros m Hin. destruct (netdev_mapping_matches c m6 m) eqn:Hm;
        [|reflexivity].
      destruct (last_match_found _ _ m Hin Hm) as [m' Hm']. congruence.
  - destruct (last_match _ (uevent_container_netdev_mapping_list g));
      cbn [fst snd]; intros H; [discriminate|reflexivity].
  - destruct (last_match _ (uevent_container_netdev_mapping_list g));
      cbn [fst]; [left|right]; reflexivity.
  - destruct (network_str_to_mac_addr env (pnet_name cfg)); cbn [fst];
      split; intros H; try reflexivity; discriminate.
  - destruct (network_str_to_mac_addr env (pnet_name cfg)); cbn [fst snd];
      intros H; [discriminate|reflexivity].
  - destruct (network_str_to_mac_addr env (pnet_name cfg)); cbn [fst];
      [left|right]; reflexivity.
Qed.

(** The cells of the two tables are distinct objects, and stay so: the
    addresses of all mappings are pairwise different in the empty tables,
    and registering, unregistering and handling an event keep them so.
    Removal by pointer therefore always takes the one cell that was
    found. *)
Theorem cells_stay_distinct :
  NoDup (live globals_init)
  /\ (forall g c dev,
        NoDup (live g) ->
        NoDup (live (snd (uevent_register_usbdevice g c dev))))
  /\ (forall g c dev,
        NoDup (live g) ->
        NoDup (live (snd (uevent_unregister_usbdevice g c dev))))
  /\ (forall env g c cfg,
        NoDup (live g) ->
        NoDup (live (snd (uevent_register_netdev env g c cfg))))
  /\ (forall g c m6,
        NoDup (live g) ->
        NoDup (live (snd (uevent_unregister_netdev g c m6))))
  /\ (forall order env ret_recv data g r g' effs,
        NoDup (live g) ->
        uevent_handle order env ret_recv data g = Some (r, g', effs) ->
        NoDup (live g')).
Proof.
  split; [constructor|]. split; [|split; [|split; [|split]]].
  - intros g c dev H. pose proof (mem_new0_fresh g) as Hfresh.
    unfold uevent_register_usbdevice, live in *. cbn [snd].
    rewrite dev_list_set. unfold list_append. rewrite map_app.
    cbn [map uevent_container_dev_mapping_new addr set_dev_list
         uevent_container_netdev_mapping_list].
    rewrite <- app_assoc. cbn [app]. apply distinct_insert; assumption.
  - intros g c dev H. unfold uevent_unregister_usbdevice.
    destruct (last_match _ _) as [m|]; [|exact H].
    unfold live in *. cbn [snd]. rewrite dev_list_set.
    cbn [set_dev_list uevent_container_netdev_mapping_list].
    apply list_remove_distinct_l. exact H.
  - intros env g c cfg H. pose proof (mem_new0_fresh g) as Hfresh.
    unfold uevent_register_netdev, uevent_container_netdev_mapping_new.
    destruct (network_str_to_mac_addr env (pnet_name cfg)) as [m|]; [|exact H].
    unfold live in *. cbn [snd]. rewrite netdev_list_set.
    cbn [set_netdev_list uevent_container_dev_mapping_list].
    unfold list_append. rewrite map_app. cbn [map n_addr].
    rewrite app_assoc.
    rewrite <- (app_nil_r (map addr _ ++ map n_addr _)) in H, Hfresh.
    apply distinct_insert; assumption.
  - intros g c m6 H. unfold uevent_unregister_netdev.
    destruct (last_match _ _) as [m|]; [|exact H].
    unfold live in *. cbn [snd]. rewrite netdev_list_set.
    cbn [set_netdev_list uevent_container_dev_mapping_list].
    apply list_remove_distinct_r. exact H.
  - intros order env ret_recv data g r g' effs H Hrun.
    assert (Hinv : inv same_but_numbers (fun e => negb (moves_nic e))
                     (uevent_handle order env ret_recv data)).
    { apply handle_inv.
      - exact same_but_numbers_refl.
      - exact same_but_numbers_trans.
      - exact same_but_numbers_set.
      - exact log_moves_no_nic.
      - exact container_moves_no_nic.
      - intros e He _. rewrite He. reflexivity.
      - exact policy_moves_no_nic. }
    destruct (Hinv g r g' effs Hrun) as [(_ & _ & Hnet & _ & _ & Hdev) _].
    unfold live in *. rewrite Hnet.
    replace (map addr (uevent_container_dev_mapping_list g'))
      with (map addr (uevent_container_dev_mapping_list g)); [exact H|].
    apply (f_equal (map (fun x => fst (fst (fst (fst x)))))) in Hdev.
    rewrite !map_map in Hdev. symmetry. exact Hdev.
Qed.

End RegistryFacts.

(** ** Interface names, start and stop *)

Module LifecycleFacts.
Import CStr Frame Ext Tables Router RouterSpec Lifecycle.

Lemma lit_inj (s1 s2 : string) : lit s1 = lit s2 -> s1 = s2.
Proof.
  unfold lit. intros H.
  rewrite <- (string_of_list_ascii_of_string s1),
          <- (string_of_list_ascii_of_string s2), H.
  reflexivity.
Qed.

Lemma to_int_not_nil (z : Z) :
  Z.to_int z <> Decimal.Pos Decimal.Nil /\ Z.to_int z <> Decimal.Neg Decimal.Nil.
Proof.
  split; intros H; pose proof (f_equal Z.of_int H) as H';
    rewrite DecimalZ.of_to in H'; cbn in H'; subst z; discriminate H.
Qed.

Lemma print_d_inj (a b : Z) : print_d a = print_d b -> a = b.
Proof.
  unfold print_d. intros H. apply lit_inj in H.
  apply (f_equal NilZero.int_of_string) in H.
  destruct (to_int_not_nil a) as [Ha1 Ha2].
  destruct (to_int_not_nil b) as [Hb1 Hb2].
  rewrite !NilZero.isi in H by assumption.
  injection H as H. apply (f_equal Z.of_int) in H.
  rewrite !DecimalZ.of_to in H. exact H.
Qed.

Lemma wrap_int_inj (a b : Z) :
  0 <= a < 2 ^ 32 -> 0 <= b < 2 ^ 32 -> wrap_int a = wrap_int b -> a = b.
Proof.
  intros Ha Hb. unfold wrap_int, wrap_signed.
  rewrite !Z.mod_small by assumption.
  destruct (a <? 2 ^ (32 - 1)), (b <? 2 ^ (32 - 1)); lia.
Qed.

Lemma ifi_name_inj (p q : bool) (i j : Z) :
  0 <= i < 2 ^ 32 -> 0 <= j < 2 ^ 32 ->
  ifi_name (if p then lit "wlan" else lit "eth") i
  = ifi_name (if q then lit "wlan" else lit "eth") j ->
  p = q /\ i = j.
Proof.
  intros Hi Hj H. unfold ifi_name in H.
  destruct p, q; cbn [lit list_ascii_of_string app] in H;
    try discriminate H.
  - split; [reflexivity|]. injection H as H.
    apply print_d_inj in H. exact (wrap_int_inj i j Hi Hj H).
  - split; [reflexivity|]. injection H as H.
    apply print_d_inj in H. exact (wrap_int_inj i j Hi Hj H).
Qed.

Lemma ifi_name_infix_inj (infix : list ascii) (i j : Z) :
  0 <= i < 2 ^ 32 -> 0 <= j < 2 ^ 32 ->
  ifi_name infix i = ifi_name infix j -> i = j.
Proof.
  intros Hi Hj H. unfold ifi_name in H.
  apply app_inv_head in H. apply app_inv_head in H.
  apply print_d_inj in H. exact (wrap_int_inj i j Hi Hj H).
Qed.

(** One call of [uevent_rename_ifi_new]. *)
Lemma rename_ifi_new_step (env : Env) (oldname infix : list ascii) (g : globals) :
  let wlan := strcmp_eq infix (lit "wlan") in
  let idx := if wlan then cmld_wlan_idx g else cmld_eth_idx g in
  exists r rest,
    uevent_rename_ifi_new env oldname infix g
    = Some (r,
            (if wlan then set_wlan_idx else set_eth_idx) (wrap_uint32 (idx + 1)) g,
            ERenameIfi oldname (ifi_name infix idx) :: rest)
    /\ rename_targets rest = []
    /\ (r = None <-> network_rename_ifi env oldname (ifi_name infix idx) <> 0).
Proof.
  cbv zeta. unfold uevent_rename_ifi_new, bind, Router.get, put, emit, ret.
  fold (ifi_name infix
          (if strcmp_eq infix (lit "wlan") then cmld_wlan_idx g
           else cmld_eth_idx g)).
  destruct (Z.eqb_spec
              (network_rename_ifi env oldname
                 (ifi_name infix
                    (if strcmp_eq infix (lit "wlan") then cmld_wlan_idx g
                     else cmld_eth_idx g))) 0) as [E|E]; cbn [negb].
  - eexists. eexists. split; [reflexivity|]. split; [reflexivity|].
    split; [discriminate|intros H; contradiction].
  - eexists. eexists. split; [reflexivity|]. split; [reflexivity|].
    split; [intros _; exact E|reflexivity].
Qed.

(** Two calls of [uevent_rename_ifi_new] in a row with the same infix
    never ask for the same name, whether the renames succeed or not: the
    counter of the infix ("wlan", or the common one of every other infix)
    is advanced by every call, also by one whose rename fails, and the
    socket, the watcher and the tables are left as they are. *)
Theorem successive_names_differ (env : Env) (old1 old2 infix : list ascii)
        (g : globals)
        (Hrange : counters_in_range g) :
  exists r1 g1 n1 rest1 r2 g2 n2 rest2,
    uevent_rename_ifi_new env old1 infix g
    = Some (r1, g1, ERenameIfi old1 n1 :: rest1)
    /\ uevent_rename_ifi_new env old2 infix g1
       = Some (r2, g2, ERenameIfi old2 n2 :: rest2)
    /\ n1 <> n2
    /\ (r1 = None <-> network_rename_ifi env old1 n1 <> 0)
    /\ same_but_counters g g2
    /\ counters_in_range g2.
Proof.
  destruct Hrange as [Hw He].
  destruct (rename_ifi_new_step env old1 infix g) as (r1 & rest1 & H1 & _ & Hr1).
  cbv zeta in H1, Hr1.
  set (g1 := (if strcmp_eq infix (lit "wlan") then set_wlan_idx else set_eth_idx)
               (wrap_uint32
                  ((if strcmp_eq infix (lit "wlan") then cmld_wlan_idx g
                    else cmld_eth_idx g) + 1)) g) in *.
  destruct (rename_ifi_new_step env old2 infix g1) as (r2 & rest2 & H2 & _ & _).
  cbv zeta in H2.
  do 8 eexists. split; [exact H1|]. split; [exact H2|].
  assert (Hmod : forall z, 0 <= wrap_uint32 z < 2 ^ 32)
    by (intros z; unfold wrap_uint32; apply Z.mod_pos_bound; lia).
  split; [|split; [exact Hr1|split]].
  - intros Heq. subst g1.
    destruct (strcmp_eq infix (lit "wlan"));
      cbn [set_wlan_idx set_eth_idx cmld_wlan_idx cmld_eth_idx] in Heq;
      apply ifi_name_infix_inj in Heq; try apply Hmod; try assumption;
      unfold wrap_uint32 in Heq.
    + destruct (Z.eq_dec (cmld_wlan_idx g + 1) (2 ^ 32)) as [E|E].
      * rewrite E, Z.mod_same in Heq by lia. lia.
      * rewrite Z.mod_small in Heq by lia. lia.
    + destruct (Z.eq_dec (cmld_eth_idx g + 1) (2 ^ 32)) as [E|E].
      * rewrite E, Z.mod_same in Heq by lia. lia.
      * rewrite Z.mod_small in Heq by lia. lia.
  - subst g1. unfold same_but_counters.
    destruct (strcmp_eq infix (lit "wlan")); repeat split.
  - subst g1. unfold counters_in_range.
    destruct (strcmp_eq infix (lit "wlan"));
      cbn [set_wlan_idx set_eth_idx cmld_wlan_idx cmld_eth_idx];
      split; try apply Hmod; assumption.
Qed.

Lemma successive_names_differ_witness :
  exists r1 g1 n1 rest1 r2 g2 n2 rest2,
    uevent_rename_ifi_new Scenario.world (lit "eth0") (lit "eth") globals_init
    = Some (r1, g1, ERenameIfi (lit "eth0") n1 :: rest1)
    /\ uevent_rename_ifi_new Scenario.world (lit "eth1") (lit "eth") g1
       = Some (r2, g2, ERenameIfi (lit "eth1") n2 :: rest2)
    /\ n1 <> n2
    /\ (r1 = None <-> network_rename_ifi Scenario.world (lit "eth0") n1 <> 0)
    /\ same_but_counters globals_init g2
    /\ counters_in_range g2.
Proof.
  apply (successive_names_differ Scenario.world (lit "eth0") (lit "eth1")
           (lit "eth") globals_init).
  unfold counters_in_range. cbn. lia.
Defined.

Lemma rename_targets_app (a b : list effect) :
  rename_targets (a ++ b) = rename_targets a ++ rename_targets b.
Proof. unfold rename_targets. apply flat_map_app. Qed.

Lemma runs_of_run (effs : list effect) (rest : list life_effect) :
  runs (map Run effs ++ rest) = effs ++ runs rest.
Proof.
  induction effs as [|e effs IH]; [reflexivity|].
  cbn [map app]. unfold runs in *. cbn [flat_map app]. rewrite IH. reflexivity.
Qed.

Lemma run_frees_nothing (effs : list effect) :
  existsb frees_sock (map Run effs) = false.
Proof. induction effs as [|e effs IH]; [reflexivity|exact IH]. Qed.

Lemma rename_all_cons (env : Env) (a : list ascii) (l : list (list ascii))
      (g g1 g' : globals) (r : option (list ascii)) (names : list (list ascii))
      (rest effs : list effect) :
  uevent_rename_ifi_new env a
    (if network_interface_is_wifi env a then lit "wlan" else lit "eth") g
  = Some (r, g1, rest) ->
  rename_all env l g1 = Some (names, g', effs) ->
  rename_all env (a :: l) g
  = Some (match r with Some n => n :: names | None => a :: names end,
          g', rest ++ effs).
Proof.
  intros H1 H2. cbn [rename_all]. cbv zeta. unfold bind, ret.
  rewrite H1, H2. rewrite app_nil_r. reflexivity.
Qed.

(** The loop over the interfaces: it always returns, keeps the socket,
    the watcher and the tables, advances each counter by the number of
    interfaces of its kind, and asks for pairwise different names. *)
Lemma rename_all_spec (env : Env) : forall (l : list (list ascii)) (g : globals),
  0 <= cmld_wlan_idx g -> 0 <= cmld_eth_idx g ->
  cmld_wlan_idx g + Z.of_nat (length l) < 2 ^ 32 ->
  cmld_eth_idx g + Z.of_nat (length l) < 2 ^ 32 ->
  exists names g' effs,
    rename_all env l g = Some (names, g', effs)
    /\ length names = length l
    /\ same_but_counters g g'
    /\ cmld_wlan_idx g'
       = cmld_wlan_idx g
         + Z.of_nat (length (filter (network_interface_is_wifi env) l))
    /\ cmld_eth_idx g'
       = cmld_eth_idx g
         + Z.of_nat (length (filter (fun n => negb (network_interface_is_wifi env n)) l))
    /\ (forall n, In n (rename_targets effs) ->
          exists (w : bool) (i : Z),
            n = ifi_name (if w then lit "wlan" else lit "eth") i
            /\ (if w then cmld_wlan_idx g else cmld_eth_idx g) <= i < 2 ^ 32)
    /\ NoDup (rename_targets effs).
Proof.
  induction l as [|a l IH]; intros g Hw He Hwl Hel.
  - exists [], g, []. split; [reflexivity|]. split; [reflexivity|].
    split; [repeat split|]. cbn [filter length]. repeat split; try lia.
    + intros n [].
    + constructor.
  - cbn [length] in Hwl, Hel.
    destruct (rename_ifi_new_step env a
                (if network_interface_is_wifi env a then lit "wlan" else lit "eth") g)
      as (r & rest & Hstep & Hrest & _).
    cbv zeta in Hstep.
    destruct (network_interface_is_wifi env a) eqn:Ewa.
    + change (strcmp_eq (lit "wlan") (lit "wlan")) with true in Hstep.
      cbv iota in Hstep.
      assert (Hsmall : wrap_uint32 (cmld_wlan_idx g + 1) = cmld_wlan_idx g + 1)
        by (unfold wrap_uint32; apply Z.mod_small; lia).
      rewrite Hsmall in Hstep.
      destruct (IH (set_wlan_idx (cmld_wlan_idx g + 1) g))
        as (names & g' & effs & Hrec & Hlen & Hsame & Hwc & Hec & Hnames & Hnd);
        try (cbn [set_wlan_idx cmld_wlan_idx cmld_eth_idx]; lia).
      cbn [set_wlan_idx cmld_wlan_idx cmld_eth_idx] in Hwc, Hec, Hnames.
      eexists. exists g'. eexists.
      split; [eapply rename_all_cons; [rewrite Ewa; exact Hstep|exact Hrec]|].
      split; [destruct r; cbn [length]; rewrite Hlen; reflexivity|].
      split; [exact Hsame|].
      cbn [filter]. rewrite Ewa. cbn [negb length].
      split; [lia|]. split; [lia|].
      cbn [app]. unfold rename_targets at 1 2. cbn [flat_map app].
      fold (rename_targets (rest ++ effs)).
      rewrite rename_targets_app, Hrest. cbn [app].
      split.
      * intros n [<-|Hin].
        -- exists true, (cmld_wlan_idx g). split; [reflexivity|lia].
        -- destruct (Hnames n Hin) as (w & i & Hn & Hi).
           exists w, i. split; [exact Hn|]. destruct w; lia.
      * constructor; [|exact Hnd].
        intros Hin. destruct (Hnames _ Hin) as (w & i & Hn & Hi).
        destruct w.
        -- apply (ifi_name_inj true true) in Hn; [|lia|lia].
           destruct Hn as [Hb Hn]; try discriminate Hb; lia.
        -- apply (ifi_name_inj true false) in Hn; [|lia|lia].
           destruct Hn as [Hb Hn]; try discriminate Hb; lia.
    + change (strcmp_eq (lit "eth") (lit "wlan")) with false in Hstep.
      cbv iota in Hstep.
      assert (Hsmall : wrap_uint32 (cmld_eth_idx g + 1) = cmld_eth_idx g + 1)
        by (unfold wrap_uint32; apply Z.mod_small; lia).
      rewrite Hsmall in Hstep.
      destruct (IH (set_eth_idx (cmld_eth_idx g + 1) g))
        as (names & g' & effs & Hrec & Hlen & Hsame & Hwc & Hec & Hnames & Hnd);
        try (cbn [set_eth_idx cmld_wlan_idx cmld_eth_idx]; lia).
      cbn [set_eth_idx cmld_wlan_idx cmld_eth_idx] in Hwc, Hec, Hnames.
      eexists. exists g'. eexists.
      split; [eapply rename_all_cons; [rewrite Ewa; exact Hstep|exact Hrec]|].
      split; [destruct r; cbn [length]; rewrite Hlen; reflexivity|].
      split; [exact Hsame|].
      cbn [filter]. rewrite Ewa. cbn [negb length].
      split; [lia|]. split; [lia|].
      cbn [app]. unfold rename_targets at 1 2. cbn [flat_map app].
      fold (rename_targets (rest ++ effs)).
      rewrite rename_targets_app, Hrest. cbn [app].
      split.
      * intros n [<-|Hin].
        -- exists false, (cmld_eth_idx g). split; [reflexivity|lia].
        -- destruct (Hnames n Hin) as (w & i & Hn & Hi).
           exists w, i. split; [exact Hn|]. destruct w; lia.
      * constructor; [|exact Hnd].
        intros Hin. destruct (Hnames _ Hin) as (w & i & Hn & Hi).
        destruct w.
        -- apply (ifi_name_inj false true) in Hn; [|lia|lia].
           destruct Hn as [Hb Hn]; try discriminate Hb; lia.
        -- apply (ifi_name_inj false false) in Hn; [|lia|lia].
           destruct Hn as [Hb Hn]; try discriminate Hb; lia.
Qed.

(** The loop returns for every list and every state. *)
Lemma rename_all_total (env : Env) : forall (l : list (list ascii)) (g : globals),
  exists names g' effs,
    rename_all env l g = Some (names, g', effs)
    /\ length names = length l
    /\ same_but_counters g g'.
Proof.
  induction l as [|a l IH]; intros g.
  - exists [], g, []. split; [reflexivity|]. split; [reflexivity|].
    repeat split.
  - destruct (rename_ifi_new_step env a
                (if network_interface_is_wifi env a then lit "wlan" else lit "eth") g)
      as (r & rest & Hstep & _ & _).
    cbv zeta in Hstep.
    match type of Hstep with
    | _ = Some (_, ?g1, _) =>
        destruct (IH g1) as (names & g' & effs & Hrec & Hlen & Hsame);
        eexists; exists g'; eexists;
        split; [eapply rename_all_cons; [exact Hstep|exact Hrec]|];
        split; [destruct r; cbn [length]; rewrite Hlen; reflexivity|];
        unfold same_but_counters in *;
        destruct (strcmp_eq _ (lit "wlan")); exact Hsame
    end.
Qed.

(** Started with no socket and no watcher, [uevent_init] always
    returns, with 0 or -1.  It returns 0 exactly when the netlink socket
    could be opened for the chosen udevd and made non-blocking, and then
    both statics are set.  The socket is asked for after the interfaces
    were renamed, for the pid of systemd-udevd unless udevd has a smaller
    positive one: when systemd-udevd is not found, its not-found value is
    used also if udevd runs.  In every case the two tables are untouched and
    cmld's list of interfaces keeps its length. *)
Theorem init_outcome (ienv : InitEnv) (env : Env) (g : globals)
        (Hsock : uevent_netlink_sock g = None)
        (Hio : uevent_io_event g = None) :
  exists r g' names effs,
    uevent_init ienv env g = Some (r, g', names, effs)
    /\ (r = 0 \/ r = -1)
    /\ (r = 0 <->
        exists sock,
          nl_sock_uevent_new ienv (udevd_pid ienv) = Some sock
          /\ fd_make_non_blocking ienv (nl_sock_get_fd ienv sock) = 0)
    /\ (r = 0 -> uevent_netlink_sock g' <> None /\ uevent_io_event g' <> None)
    /\ In (ENlSockNew (udevd_pid ienv)) effs
    /\ (proc_find ienv 1 (lit "systemd-udevd") <= 0 ->
        udevd_pid ienv = proc_find ienv 1 (lit "systemd-udevd"))
    /\ uevent_container_dev_mapping_list g' = uevent_container_dev_mapping_list g
    /\ uevent_container_netdev_mapping_list g'
       = uevent_container_netdev_mapping_list g
    /\ length names = length (cmld_get_netif_phys_list ienv).
Proof.
  unfold uevent_init. rewrite Hsock, Hio.
  destruct (rename_all_total env (cmld_get_netif_phys_list ienv) g)
    as (names & g1 & effs & Hr & Hlen & (_ & _ & Hdev & Hnet)).
  rewrite Hr. cbv zeta.
  assert (Hpid : proc_find ienv 1 (lit "systemd-udevd") <= 0 ->
                 udevd_pid ienv = proc_find ienv 1 (lit "systemd-udevd")).
  { intros Hle. unfold udevd_pid. cbv zeta.
    destruct (Z.ltb_spec (proc_find ienv 1 (lit "udevd"))
                (proc_find ienv 1 (lit "systemd-udevd"))); [|reflexivity].
    destruct (Z.ltb_spec 0 (proc_find ienv 1 (lit "udevd"))); [lia|reflexivity]. }
  destruct (nl_sock_uevent_new ienv (udevd_pid ienv)) as [sock|] eqn:Es.
  - destruct (Z.eqb_spec (fd_make_non_blocking ienv (nl_sock_get_fd ienv sock)) 0)
      as [E|E]; cbn [negb].
    + do 4 eexists. split; [reflexivity|]. split; [left; reflexivity|].
      split; [split; [intros _; exists sock; split; [reflexivity|exact E]
                     |reflexivity]|].
      split; [intros _; split; discriminate|].
      split; [apply in_or_app; right; left; reflexivity|].
      split; [exact Hpid|]. split; [exact Hdev|]. split; [exact Hnet|exact Hlen].
    + do 4 eexists. split; [reflexivity|]. split; [right; reflexivity|].
      split; [split; [discriminate|]|].
      { intros (s & Hs & Hz). injection Hs as <-. contradiction. }
      split; [discriminate|].
      split; [apply in_or_app; right; left; reflexivity|].
      split; [exact Hpid|]. split; [exact Hdev|]. split; [exact Hnet|exact Hlen].
  - do 4 eexists. split; [reflexivity|]. split; [right; reflexivity|].
    split; [split; [discriminate|]|].
    { intros (s & Hs & _). discriminate Hs. }
    split; [discriminate|].
    split; [apply in_or_app; right; left; reflexivity|].
    split; [exact Hpid|]. split; [exact Hdev|]. split; [exact Hnet|exact Hlen].
Qed.

Lemma init_outcome_witness :
  exists r g' names effs,
    uevent_init (Samples.host 0) Samples.host_world Scenario.usb_registered
    = Some (r, g', names, effs)
    /\ (r = 0 \/ r = -1)
    /\ (r = 0 <->
        exists sock,
          nl_sock_uevent_new (Samples.host 0) (udevd_pid (Samples.host 0))
          = Some sock
          /\ fd_make_non_blocking (Samples.host 0)
               (nl_sock_get_fd (Samples.host 0) sock) = 0)
    /\ (r = 0 -> uevent_netlink_sock g' <> None /\ uevent_io_event g' <> None)
    /\ In (ENlSockNew (udevd_pid (Samples.host 0))) effs
    /\ (proc_find (Samples.host 0) 1 (lit "systemd-udevd") <= 0 ->
        udevd_pid (Samples.host 0)
        = proc_find (Samples.host 0) 1 (lit "systemd-udevd"))
    /\ uevent_container_dev_mapping_list g'
       = uevent_container_dev_mapping_list Scenario.usb_registered
    /\ uevent_container_netdev_mapping_list g'
       = uevent_container_netdev_mapping_list Scenario.usb_registered
    /\ length names = length (cmld_get_netif_phys_list (Samples.host 0)).
Proof.
  apply (init_outcome (Samples.host 0) Samples.host_world
           Scenario.usb_registered); reflexivity.
Defined.

(** [uevent_init] works once.  When a run of it opened the socket -
    whether it then succeeded or gave up because the socket could not be
    made non-blocking and freed it - the static pointer keeps its value, and
    [uevent_deinit] frees the objects without resetting the statics: every
    later [uevent_init], also one after [uevent_deinit], returns -1 with the
    error that the socket already exists, and renames and opens nothing. *)
Theorem init_is_one_shot (ienv : InitEnv) (env : Env) (g g' : globals)
        (r : Z) (names : list (list ascii)) (effs : list life_effect)
        (Hrun : uevent_init ienv env g = Some (r, g', names, effs))
        (Hopened : r = 0 \/ existsb frees_sock effs = true) :
  forall (ienv2 : InitEnv) (env2 : Env),
    uevent_init ienv2 env2 g'
    = Some (-1, g', cmld_get_netif_phys_list ienv2,
            [LError "Uevent netlink_socket already exists."])
    /\ fst (uevent_deinit g') = g'
    /\ uevent_init ienv2 env2 (fst (uevent_deinit g'))
       = Some (-1, g', cmld_get_netif_phys_list ienv2,
               [LError "Uevent netlink_socket already exists."]).
Proof.
  intros ienv2 env2.
  assert (Hset : exists sock, uevent_netlink_sock g' = Some sock).
  { unfold uevent_init in Hrun.
    destruct (uevent_netlink_sock g) as [s|] eqn:Es.
    - injection Hrun as <- <- <- <-. exists s. exact Es.
    - destruct (uevent_io_event g) as [io|].
      + injection Hrun as <- <- <- <-.
        destruct Hopened as [H|H]; discriminate H.
      + destruct (rename_all env (cmld_get_netif_phys_list ienv) g)
          as [[[names1 g1] effs1]|]; [|discriminate].
        cbv zeta in Hrun.
        destruct (nl_sock_uevent_new ienv (udevd_pid ienv)) as [sock|].
        * destruct (negb _); injection Hrun as <- <- <- <-;
            exists sock; reflexivity.
        * injection Hrun as <- <- <- <-.
          destruct Hopened as [H|H]; [discriminate H|].
          rewrite existsb_app, run_frees_nothing in H. discriminate H. }
  destruct Hset as [sock Hs].
  split; [|split; [reflexivity|]].
  - unfold uevent_init. rewrite Hs. reflexivity.
  - cbn [uevent_deinit fst]. unfold uevent_init. rewrite Hs. reflexivity.
Qed.

Lemma init_is_one_shot_witness :
  uevent_init (Samples.host 0) Samples.host_world
    (snd (fst (fst (Samples.host_started 1))))
  = Some (-1, snd (fst (fst (Samples.host_started 1))),
          cmld_get_netif_phys_list (Samples.host 0),
          [LError "Uevent netlink_socket already exists."])
  /\ fst (uevent_deinit (snd (fst (fst (Samples.host_started 1)))))
     = snd (fst (fst (Samples.host_started 1)))
  /\ uevent_init (Samples.host 0) Samples.host_world
       (fst (uevent_deinit (snd (fst (fst (Samples.host_started 1))))))
     = Some (-1, snd (fst (fst (Samples.host_started 1))),
             cmld_get_netif_phys_list (Samples.host 0),
             [LError "Uevent netlink_socket already exists."]).
Proof.
  apply (init_is_one_shot (Samples.host 1) Samples.host_world
           Scenario.usb_registered (snd (fst (fst (Samples.host_started 1))))
           (fst (fst (fst (Samples.host_started 1))))
           (snd (fst (Samples.host_started 1)))
           (snd (Samples.host_started 1))).
  - vm_compute. reflexivity.
  - right. vm_compute. reflexivity.
Defined.

(** The renames of [uevent_init] give every physical interface a name
    of its own: as long as the counters do not wrap, the names asked for
    are pairwise different.  The wireless interfaces are counted in one
    counter and all others in the second one, and both counters are
    advanced by the number of interfaces of their kind, whether the renames
    and the rest of [uevent_init] succeed or not. *)
Theorem init_names_distinct (ienv : InitEnv) (env : Env) (g : globals)
        (Hsock : uevent_netlink_sock g = None)
        (Hio : uevent_io_event g = None)
        (Hw : 0 <= cmld_wlan_idx g) (He : 0 <= cmld_eth_idx g)
        (Hwl : cmld_wlan_idx g
               + Z.of_nat (length (cmld_get_netif_phys_list ienv)) < 2 ^ 32)
        (Hel : cmld_eth_idx g
               + Z.of_nat (length (cmld_get_netif_phys_list ienv)) < 2 ^ 32) :
  exists r g' names effs,
    uevent_init ienv env g = Some (r, g', names, effs)
    /\ NoDup (rename_targets (runs effs))
    /\ cmld_wlan_idx g'
       = cmld_wlan_idx g
         + Z.of_nat (length (filter (network_interface_is_wifi env)
                               (cmld_get_netif_phys_list ienv)))
    /\ cmld_eth_idx g'
       = cmld_eth_idx g
         + Z.of_nat (length (filter (fun n => negb (network_interface_is_wifi env n))
                               (cmld_get_netif_phys_list ienv))).
Proof.
  unfold uevent_init. rewrite Hsock, Hio.
  destruct (rename_all_spec env (cmld_get_netif_phys_list ienv) g Hw He Hwl Hel)
    as (names & g1 & effs & Hr & _ & _ & Hwc & Hec & _ & Hnd).
  rewrite Hr. cbv zeta.
  destruct (nl_sock_uevent_new ienv (udevd_pid ienv)) as [sock|];
    [destruct (negb _)|];
    (do 4 eexists; split; [reflexivity|];
     rewrite runs_of_run; cbn [runs flat_map app]; rewrite app_nil_r;
     split; [exact Hnd|split; [exact Hwc|exact Hec]]).
Qed.

Lemma init_names_distinct_witness :
  exists r g' names effs,
    uevent_init (Samples.host 0) Samples.host_world Scenario.usb_registered
    = Some (r, g', names, effs)
    /\ NoDup (rename_targets (runs effs))
    /\ cmld_wlan_idx g'
       = cmld_wlan_idx Scenario.usb_registered
         + Z.of_nat (length (filter (network_interface_is_wifi Samples.host_world)
                               (cmld_get_netif_phys_list (Samples.host 0))))
    /\ cmld_eth_idx g'
       = cmld_eth_idx Scenario.usb_registered
         + Z.of_nat (length (filter (fun n => negb (network_interface_is_wifi
                                                      Samples.host_world n))
                               (cmld_get_netif_phys_list (Samples.host 0)))).
Proof.
  apply (init_names_distinct (Samples.host 0) Samples.host_world
           Scenario.usb_registered).
  - reflexivity.
  - reflexivity.
  - vm_compute. discriminate.
  - vm_compute. discriminate.
  - vm_compute. reflexivity.
  - vm_compute. reflexivity.
Defined.

End LifecycleFacts.

(** ** Received frames *)

Module ReceiveFacts.
Import CStr Frame View CodecFacts ParserFacts.

(** The first iteration of the loop on a token without a key only moves
    the pointer behind the token. *)
Lemma parse_loop_skips_header (fuel : nat) (d : uevent) :
  is_nul (byte_at (raw d) 0) = false ->
  classify (cstr_at (raw d) 0) = None ->
  Z.of_nat (strlen_at (raw d) 0 + 1) < msg_len d ->
  parse_loop (S fuel) d 0 = parse_loop fuel d (strlen_at (raw d) 0 + 1).
Proof.
  intros Hnn Hhead Hmore. rewrite parse_loop_step, Hnn.
  replace (0 + strlen_at (raw d) 0 + 1)%nat with (strlen_at (raw d) 0 + 1)%nat
    by lia.
  destruct (Z.leb_spec (msg_len d) (Z.of_nat (strlen_at (raw d) 0 + 1)));
    [lia|].
  unfold entry_effect. rewrite Hhead. reflexivity.
Qed.

(** Fuel beyond the bytes that are left changes nothing. *)
Lemma parse_loop_one_more (fuel : nat) (d : uevent) (p : nat) :
  (length (raw d) - p < fuel)%nat ->
  parse_loop fuel d p = parse_loop (S fuel) d p.
Proof.
  intros Hfuel. destruct (parse_loop_total fuel d p Hfuel) as [v Hv].
  rewrite Hv. symmetry. apply (parse_loop_more_fuel fuel); [exact Hv|lia].
Qed.

Lemma first_token_not_empty (raw : list ascii) :
  strchr_found (cstr_at raw 0) "@"%char = true ->
  is_nul (byte_at raw 0) = false.
Proof.
  intros Hfirst. destruct (is_nul (byte_at raw 0)) eqn:E; [|reflexivity].
  rewrite cstr_at_unfold, E in Hfirst. discriminate Hfirst.
Qed.

(** The header token of a kernel message ("add@/devices/...") does no
    harm: when it carries none of the keys, parsing the message from the
    start of the buffer gives the very struct that parsing from behind the
    header gives.  [handle_kernel_event] parses from behind the header,
    [uevent_replace_member] and the timer callback parse from the start. *)
Theorem header_token_is_skipped (u : uevent)
        (Hfirst : strchr_found (cstr_at (raw u) 0) "@"%char = true)
        (Hhead : classify (cstr_at (raw u) 0) = None)
        (Hmore : Z.of_nat (strlen_at (raw u) 0 + 1) < msg_len u) :
  uevent_parse u 0 = uevent_parse u (strlen_at (raw u) 0 + 1).
Proof.
  pose proof (first_token_not_empty _ Hfirst) as Hnn.
  pose proof (byte_at_not_nul_inside _ _ Hnn) as Hlen.
  rewrite !uevent_parse_eq.
  rewrite (parse_loop_skips_header (length (raw u)) (parse_defaults u));
    try assumption.
  apply parse_loop_one_more.
  change (raw (parse_defaults u)) with (raw u). lia.
Qed.

Lemma header_token_is_skipped_witness :
  uevent_parse (Scenario.received Scenario.usb_add_msg) 0
  = uevent_parse (Scenario.received Scenario.usb_add_msg)
      (strlen_at (raw (Scenario.received Scenario.usb_add_msg)) 0 + 1).
Proof.
  apply (header_token_is_skipped (Scenario.received Scenario.usb_add_msg)).
  - vm_compute. reflexivity.
  - vm_compute. reflexivity.
  - vm_compute. reflexivity.
Defined.








End ReceiveFacts.
